(** * frame-note: timeline interaction, drawing visibility, content hashing

    A shallow embedding of the client-side core of the frame-note video
    annotation tool, and the properties of it stated by the specification.

    Conventions of the embedding.
    - A JavaScript [number] that holds a time, a pixel coordinate or a zoom
      factor is an exact rational ([Q]); [Math.min], [Math.max] and
      [Math.abs] are [Qmin], [Qmax] and [Qabs], and [===] on numbers is
      [Qeq_bool].  The code computes in IEEE doubles: what is stated over
      [Q] is what comparisons decide (bounds, order, the branch taken), not
      equalities between rounded results.  Where the rounding shows, the
      computation is also given in doubles ([TimelineDouble]).  NaN is
      outside the model.
    - [T | null] and optional fields are [option T].
    - A React component is its state record together with one function per
      event handler; a handler returns the next state and the list of
      callbacks (or user-interface effects) it issued, in order.
    - An [async] function that awaits a [fetch] takes the outcome of that
      request as an argument.  Where the part after the [await] reads what
      the part before it captured, the two parts are modelled separately
      ([Editor.handleAddComment_submit], [Editor.handleAddComment_settle]). *)

From Stdlib Require Import QArith Qminmax Qabs Qround Lqa.
From Stdlib Require Import ZArith Lia Bool List String Ascii.
From Stdlib Require Import Permutation Sorted.
From Stdlib Require Strings.Byte DecimalString.
From Corelib Require PrimFloat.
Import Stdlib.Init.Byte.
Import ListNotations.

Open Scope Q_scope.

(** ** Shared data model ([types.ts]) *)

#[local] Set Warnings "-register-all".
#[local] Set Warnings "-inexact-float".

(** [any]: the Fabric.js objects of a drawing are JSON values the
    application never inspects. *)
Inductive json : Type :=
| JNull
| JBool (b : bool)
| JNum (n : Q)
| JStr (s : string)
| JArr (items : list json)
| JObj (fields : list (string * json)).

Record User : Type := mkUser {
  user_id : string;
  user_name : string;
  avatar : option string
}.

Inductive AttachmentType : Type := image | file.

Record Attachment : Type := mkAttachment {
  att_id : string;
  att_type : AttachmentType;
  url : string;
  att_name : string
}.

(** [DrawingPath]: the full Fabric JSON document. *)
Record DrawingPath : Type := mkDrawingPath {
  version : string;
  objects : list json
}.

Inductive AnnotationType : Type := comment | drawing.

Record Annotation : Type := mkAnnotation {
  id : string;
  videoId : string;
  startTime : Q;
  endTime : Q;
  author : User;
  text : string;
  createdAt : Z;
  type : AnnotationType;
  drawingData : option DrawingPath;
  attachments : list Attachment
}.

(** [{ start: number; end: number }]; [end] is reserved in Rocq. *)
Record Range : Type := mkRange {
  start : Q;
  end_ : Q
}.

(** The range invariant of the data model, for a video of length [d]. *)
Definition in_bounds (d : Q) (r : Range) : Prop :=
  0 <= start r /\ start r <= end_ r /\ end_ r <= d.

Definition in_bounds_opt (d : Q) (r : option Range) : Prop :=
  match r with
  | Some r => in_bounds d r
  | None => True
  end.

(** ** Timeline component (zoomable timeline with drag handles) *)

Module Timeline.

Inductive DragMode : Type := none | create | extend_start | extend_end.

Definition ZOOM_LEVELS : list Q := [1; 2; 4; 8; 16].

Record TimelineProps : Type := mkProps {
  duration : Q;
  currentTime : Q;
  selectionRange : option Range
}.

Record State : Type := mkState {
  dragMode : DragMode;
  dragStart : option Q;
  localHoverTime : option Q;
  tempRange : option Range;
  zoomLevel : Q;
  zoomCenter : Q
}.

(** [useState] initial values. *)
Definition initial : State :=
  mkState none None None None 1 0.

Inductive Callback : Type :=
| onSeek (time : Q)
| onRangeSelect (range : option Range).

(** *** Visible time window *)

Definition visibleDuration (p : TimelineProps) (s : State) : Q :=
  duration p / zoomLevel s.

Definition viewStart (p : TimelineProps) (s : State) : Q :=
  Qmax 0 (zoomCenter s - visibleDuration p s / 2).

Definition viewEnd (p : TimelineProps) (s : State) : Q :=
  Qmin (duration p) (viewStart p s + visibleDuration p s).

Definition actualViewStart (p : TimelineProps) (s : State) : Q :=
  if Qeq_bool (viewEnd p s) (duration p)
  then Qmax 0 (duration p - visibleDuration p s)
  else viewStart p s.

Definition actualViewEnd (p : TimelineProps) (s : State) : Q :=
  actualViewStart p s + visibleDuration p s.

(** *** Zoom controls *)

(** [Array.prototype.indexOf] on numbers: first index, or -1. *)
Fixpoint indexOf_from (i : Z) (l : list Q) (x : Q) : Z :=
  match l with
  | [] => (-1)%Z
  | y :: l' => if Qeq_bool y x then i else indexOf_from (i + 1)%Z l' x
  end.

Definition indexOf (l : list Q) (x : Q) : Z := indexOf_from 0%Z l x.

Definition set_zoom (s : State) (level center : Q) : State :=
  mkState (dragMode s) (dragStart s) (localHoverTime s) (tempRange s)
          level center.

Definition handleZoomIn (p : TimelineProps) (s : State) : State :=
  let currentIdx := indexOf ZOOM_LEVELS (zoomLevel s) in
  if (currentIdx <? Z.of_nat (List.length ZOOM_LEVELS) - 1)%Z
  then set_zoom s (nth (Z.to_nat (currentIdx + 1)) ZOOM_LEVELS 0)
                  (currentTime p)
  else s.

Definition handleZoomOut (p : TimelineProps) (s : State) : State :=
  let currentIdx := indexOf ZOOM_LEVELS (zoomLevel s) in
  if (currentIdx >? 0)%Z
  then set_zoom s (nth (Z.to_nat (currentIdx - 1)) ZOOM_LEVELS 0)
                  (currentTime p)
  else s.

Definition handleResetZoom (p : TimelineProps) (s : State) : State :=
  set_zoom s 1 (duration p / 2).

Record WheelEvent : Type := mkWheel {
  ctrlKey : bool;
  metaKey : bool;
  deltaY : Q
}.

Definition handleWheel (p : TimelineProps) (s : State) (e : WheelEvent)
  : State :=
  if ctrlKey e || metaKey e
  then if Qlt_le_dec (deltaY e) 0 then handleZoomIn p s
       else handleZoomOut p s
  else s.

(** Effect "keep playhead visible when zoomed". *)
Definition keepPlayheadVisible (p : TimelineProps) (s : State) : State :=
  if Qlt_le_dec 1 (zoomLevel s)
  then if Qlt_le_dec (currentTime p) (actualViewStart p s)
       then set_zoom s (zoomLevel s) (currentTime p)
       else if Qlt_le_dec (actualViewEnd p s) (currentTime p)
            then set_zoom s (zoomLevel s) (currentTime p)
            else s
  else s.

(** *** Pointer position to time *)

Record DOMRect : Type := mkRect {
  left : Q;
  width : Q
}.

(** A mouse event as the handlers read it: [clientX], and what
    [timelineRef.current.getBoundingClientRect()] answers while the event
    is handled ([None] when the ref is not attached). *)
Record MouseEvent : Type := mkMouse {
  clientX : Q;
  trackRect : option DOMRect
}.

(** The pointer position as a time of the video, clamped to
    [[0, duration]].  (On a track of width 0 JavaScript computes 0/0, a NaN;
    here [x / 0] is 0.) *)
Definition getTimeFromEvent (p : TimelineProps) (s : State) (e : MouseEvent)
  : Q :=
  match trackRect e with
  | None => 0
  | Some rect =>
      if Qeq_bool (duration p) 0 then 0
      else
        let x := Qmax 0 (Qmin (clientX e - left rect) (width rect)) in
        let relativeTime := (x / width rect) * visibleDuration p s in
        Qmax 0 (Qmin (duration p) (actualViewStart p s + relativeTime))
  end.

(** *** Drag state machine *)

Definition set_drag (s : State) (m : DragMode) (ds : option Q)
           (tr : option Range) : State :=
  mkState m ds (localHoverTime s) tr (zoomLevel s) (zoomCenter s).

Definition set_hover (s : State) (h : option Q) : State :=
  mkState (dragMode s) (dragStart s) h (tempRange s)
          (zoomLevel s) (zoomCenter s).

Definition set_tempRange (s : State) (tr : option Range) : State :=
  mkState (dragMode s) (dragStart s) (localHoverTime s) tr
          (zoomLevel s) (zoomCenter s).

Definition handleMouseDown (p : TimelineProps) (s : State) (e : MouseEvent)
  : State :=
  let time := getTimeFromEvent p s e in
  set_drag s create (Some time) None.

Definition handleStartHandleMouseDown (p : TimelineProps) (s : State)
  : State :=
  match selectionRange p with
  | None => s
  | Some r => set_drag s extend_start (dragStart s) (Some r)
  end.

Definition handleEndHandleMouseDown (p : TimelineProps) (s : State)
  : State :=
  match selectionRange p with
  | None => s
  | Some r => set_drag s extend_end (dragStart s) (Some r)
  end.

Definition handleGlobalMouseMove (p : TimelineProps) (s : State)
           (e : MouseEvent) : State :=
  let time := getTimeFromEvent p s e in
  let s1 := set_hover s (Some time) in
  match dragMode s, tempRange s with
  | extend_start, Some tr =>
      let newStart := Qmin time (end_ tr - 0.05) in
      set_tempRange s1 (Some (mkRange (Qmax 0 newStart) (end_ tr)))
  | extend_end, Some tr =>
      let newEnd := Qmax time (start tr + 0.05) in
      set_tempRange s1 (Some (mkRange (start tr) (Qmin (duration p) newEnd)))
  | _, _ => s1
  end.

Definition handleGlobalMouseUp (p : TimelineProps) (s : State)
           (e : MouseEvent) : State * list Callback :=
  let time := getTimeFromEvent p s e in
  let calls :=
    match dragMode s, dragStart s, tempRange s with
    | create, Some ds, _ =>
        if Qlt_le_dec (Qabs (time - ds)) 0.1
        then [onSeek time]
        else
          let start := Qmin ds time in
          let end' := Qmax ds time in
          [onRangeSelect (Some (mkRange start end')); onSeek start]
    | extend_start, _, Some tr
    | extend_end, _, Some tr =>
        [onRangeSelect (Some tr); onSeek (start tr)]
    | _, _, _ => []
    end in
  (set_drag s none None None, calls).

Definition handleMouseMove (p : TimelineProps) (s : State) (e : MouseEvent)
  : State :=
  set_hover s (Some (getTimeFromEvent p s e)).

Definition handleMouseLeave (s : State) : State :=
  set_hover s None.

(** Events the component reacts to.  The two global listeners are only
    registered while [dragMode] is not ['none']. *)
Inductive Event : Type :=
| MouseDown (e : MouseEvent)
| StartHandleMouseDown
| EndHandleMouseDown
| GlobalMouseMove (e : MouseEvent)
| GlobalMouseUp (e : MouseEvent)
| MouseMove (e : MouseEvent)
| MouseLeave
| Wheel (e : WheelEvent)
| ZoomInClick
| ZoomOutClick
| ResetZoomClick
| PlayheadEffect.

Definition dragging (s : State) : bool :=
  match dragMode s with none => false | _ => true end.

Definition step (p : TimelineProps) (s : State) (ev : Event)
  : State * list Callback :=
  match ev with
  | MouseDown e => (handleMouseDown p s e, [])
  | StartHandleMouseDown => (handleStartHandleMouseDown p s, [])
  | EndHandleMouseDown => (handleEndHandleMouseDown p s, [])
  | GlobalMouseMove e =>
      if dragging s then (handleGlobalMouseMove p s e, []) else (s, [])
  | GlobalMouseUp e =>
      if dragging s then handleGlobalMouseUp p s e else (s, [])
  | MouseMove e => (handleMouseMove p s e, [])
  | MouseLeave => (handleMouseLeave s, [])
  | Wheel e => (handleWheel p s e, [])
  | ZoomInClick => (handleZoomIn p s, [])
  | ZoomOutClick => (handleZoomOut p s, [])
  | ResetZoomClick => (handleResetZoom p s, [])
  | PlayheadEffect => (keepPlayheadVisible p s, [])
  end.

End Timeline.

(** ** Earlier Timeline component (no zoom, no handles)

    The repository also holds the first version of the component, which
    the local-storage build of the application mounts. *)

Module LegacyTimeline.

Record State : Type := mkState {
  isDragging : bool;
  dragStart : option Q;
  localHoverTime : option Q
}.

Definition getPercentageFromEvent (duration : Q) (e : Timeline.MouseEvent)
  : Q :=
  match Timeline.trackRect e with
  | None => 0
  | Some rect =>
      if Qeq_bool duration 0 then 0
      else
        let x := Qmax 0 (Qmin (Timeline.clientX e - Timeline.left rect)
                              (Timeline.width rect)) in
        x / Timeline.width rect
  end.

Definition handleMouseDown (duration : Q) (s : State)
           (e : Timeline.MouseEvent) : State * list Timeline.Callback :=
  let percent := getPercentageFromEvent duration e in
  let time := percent * duration in
  (mkState true (Some time) (localHoverTime s),
   [Timeline.onRangeSelect None]).

Definition handleMouseUp (duration : Q) (s : State)
           (e : Timeline.MouseEvent) : State * list Timeline.Callback :=
  match isDragging s, dragStart s with
  | true, Some ds =>
      let percent := getPercentageFromEvent duration e in
      let dragEnd := percent * duration in
      let calls :=
        if Qlt_le_dec (Qabs (dragEnd - ds)) 0.5
        then [Timeline.onSeek dragEnd; Timeline.onRangeSelect None]
        else
          let start := Qmin ds dragEnd in
          let end' := Qmax ds dragEnd in
          [Timeline.onRangeSelect (Some (mkRange start end'));
           Timeline.onSeek start] in
      (mkState false None (localHoverTime s), calls)
  | _, _ => (s, [])
  end.

End LegacyTimeline.

(** ** String and array helpers of the JavaScript runtime *)

Module JS.

(** [Array.prototype.join(sep)] on strings. *)
Definition join (sep : string) (l : list string) : string :=
  String.concat sep l.

(** [String.prototype.split(sep)] for a one-character separator. *)
Fixpoint split (sep : ascii) (s : string) : list string :=
  match s with
  | EmptyString => [EmptyString]
  | String c s' =>
      if Ascii.eqb c sep then EmptyString :: split sep s'
      else match split sep s' with
           | [] => [String c EmptyString]
           | w :: ws => String c w :: ws
           end
  end.

(** [Array.prototype.includes] on strings. *)
Definition includes (l : list string) (x : string) : bool :=
  existsb (String.eqb x) l.

(** [Array.prototype.sort()] without comparator, on strings: ascending
    code-unit order. *)
Fixpoint insert_string (x : string) (l : list string) : list string :=
  match l with
  | [] => [x]
  | y :: l' => if String.leb x y then x :: y :: l'
               else y :: insert_string x l'
  end.

Definition sort_strings (l : list string) : list string :=
  fold_right insert_string [] l.

(** [Array.prototype.sort((a, b) => key(a) - key(b))]: ascending by key,
    elements with equal keys keep their order. *)
Section SortBy.
Context {A : Type} (key : A -> Q).

Fixpoint insert_by (x : A) (l : list A) : list A :=
  match l with
  | [] => [x]
  | y :: l' => if Qle_bool (key x) (key y) then x :: y :: l'
               else y :: insert_by x l'
  end.

Definition sort_by (l : list A) : list A :=
  fold_right insert_by [] l.
End SortBy.

(** Does the character occur in the string? *)
Fixpoint has_char (c : ascii) (s : string) : bool :=
  match s with
  | EmptyString => false
  | String c' s' => Ascii.eqb c' c || has_char c s'
  end.

(** A string in a condition: the empty string is falsy. *)
Definition truthy (s : string) : bool :=
  negb (String.eqb s EmptyString).

End JS.

(** ** Effects of handlers and [async] functions *)

Module Eff.

(** What a handler does to the outside world, in program order. *)
Inductive Effect : Type :=
| alert (msg : string)
| console_error (msg : string)
| confirm (msg : string)
| seekTo (time : Q)
| clearCanvas
| storeUser (u : User)
| downloadFile.

Inductive Outcome (A : Type) : Type :=
| Returns (a : A)
| Throws (msg : string).
Arguments Returns {A} a.
Arguments Throws {A} msg.

(** An [async] computation: the effects it performed and how it settled. *)
Definition Async (A : Type) : Type := (list Effect * Outcome A)%type.

Definition ret {A} (a : A) : Async A := ([], Returns a).

Definition throw {A} (msg : string) : Async A := ([], Throws msg).

Definition emit (e : Effect) : Async unit := ([e], Returns tt).

Definition bind {A B} (m : Async A) (k : A -> Async B) : Async B :=
  match m with
  | (l, Returns a) => let (l', r) := k a in (l ++ l', r)
  | (l, Throws msg) => (l, Throws msg)
  end.

(** [try { m } catch (error) { h error }] *)
Definition try_catch {A} (m : Async A) (h : string -> Async A) : Async A :=
  match m with
  | (l, Throws msg) => let (l', r) := h msg in (l ++ l', r)
  | settled => settled
  end.

Definition effects {A} (m : Async A) : list Effect := fst m.

Definition is_alert (e : Effect) : bool :=
  match e with alert _ => true | _ => false end.

(** Did the user get a blocking notification? *)
Definition alerted (l : list Effect) : bool := existsb is_alert l.

End Eff.

Declare Scope async_scope.
Delimit Scope async_scope with async.
Notation "x <- m ;; k" := (Eff.bind m (fun x => k))
  (at level 61, m at next level, right associativity) : async_scope.
Notation "m ;;; k" := (Eff.bind m (fun _ => k))
  (at level 61, right associativity) : async_scope.

(** ** REST client ([services/api.ts]) *)

Module Api.
Import Eff.
Local Open Scope async_scope.

(** How an awaited [fetch] ends: the promise rejects (network failure),
    or a response arrives whose [ok] flag is false, or one whose body
    [response.json()] yields. *)
Inductive FetchResult (A : Type) : Type :=
| Rejected
| NotOk (status : Z)
| Ok (body : A).
Arguments Rejected {A}.
Arguments NotOk {A} status.
Arguments Ok {A} body.

Definition failed {A} (r : FetchResult A) : bool :=
  match r with Ok _ => false | _ => true end.

Record ExportedAnnotation : Type := mkExported {
  ex_timestamp : string;
  ex_startTime : Q;
  ex_endTime : Q;
  ex_author : string * string;
  ex_text : string;
  ex_type : AnnotationType;
  ex_drawingData : option DrawingPath;
  ex_attachments : list Attachment;
  ex_createdAt : string
}.

Record ExportData : Type := mkExportData {
  exportVersion : string;
  exportedAt : string;
  videoHash : string;
  ex_annotations : list ExportedAnnotation
}.

(** [await fetch(...)] followed by the [if (!response.ok) throw] guard
    that every endpoint but [getUser] starts with. *)
Definition fetch_ok {A} (r : FetchResult A) (msg : string) : Async A :=
  match r with
  | Rejected => throw "TypeError: Failed to fetch"
  | NotOk _ => throw msg
  | Ok body => ret body
  end.

Definition createUser (r : FetchResult User) : Async User :=
  user <- fetch_ok r "Failed to create user" ;;
  emit (storeUser user) ;;;
  ret user.

Definition getUser (r : FetchResult User) : Async (option User) :=
  try_catch
    match r with
    | Rejected => throw "TypeError: Failed to fetch"
    | NotOk status =>
        if (status =? 404)%Z then ret None
        else throw "Failed to fetch user"
    | Ok body => ret (Some body)
    end
    (fun _ => emit (console_error "Error fetching user:") ;;; ret None).

(** The body is the annotation list after the renaming of fields done by
    [data.map(...)].  Errors do not leave this function. *)
Definition getAnnotations (r : FetchResult (list Annotation))
  : Async (list Annotation) :=
  try_catch
    (data <- fetch_ok r "Failed to fetch annotations" ;;
     ret data)
    (fun _ =>
       emit (console_error "Error fetching annotations:") ;;; ret []).

Definition saveAnnotation (r : FetchResult Annotation) : Async Annotation :=
  fetch_ok r "Failed to save annotation".

Definition exportAnnotations (r : FetchResult ExportData)
  : Async ExportData :=
  fetch_ok r "Failed to export annotations".

Definition importAnnotations (r : FetchResult Z) : Async Z :=
  fetch_ok r "Failed to import annotations".

Definition downloadExportAsFile (data : ExportData) : Async unit :=
  emit downloadFile.

End Api.

(** ** Application controller ([App.tsx], server-backed build) *)

Module App.
Import Eff.
Local Open Scope async_scope.

Inductive Tool : Type := pointer | pen.

Record State : Type := mkState {
  currentUser : option User;
  isUserLoading : bool;
  showOnboarding : bool;
  videoId : option string;
  isPlaying : bool;
  currentTime : Q;
  duration : Q;
  isDrawingMode : bool;
  selectedTool : Tool;
  selectionRange : option Range;
  annotations : list Annotation;
  activeAnnotationId : option string
}.

Definition initial : State :=
  mkState None true false None false 0 0 false pointer None [] None.

(** State setters ([setX(v)] of each [useState] cell). *)

Definition setCurrentUser (v : option User) (s : State) : State :=
  mkState v (isUserLoading s) (showOnboarding s) (videoId s) (isPlaying s)
          (currentTime s) (duration s) (isDrawingMode s) (selectedTool s)
          (selectionRange s) (annotations s) (activeAnnotationId s).

Definition setIsUserLoading (v : bool) (s : State) : State :=
  mkState (currentUser s) v (showOnboarding s) (videoId s) (isPlaying s)
          (currentTime s) (duration s) (isDrawingMode s) (selectedTool s)
          (selectionRange s) (annotations s) (activeAnnotationId s).

Definition setShowOnboarding (v : bool) (s : State) : State :=
  mkState (currentUser s) (isUserLoading s) v (videoId s) (isPlaying s)
          (currentTime s) (duration s) (isDrawingMode s) (selectedTool s)
          (selectionRange s) (annotations s) (activeAnnotationId s).

Definition setIsPlaying (v : bool) (s : State) : State :=
  mkState (currentUser s) (isUserLoading s) (showOnboarding s) (videoId s) v
          (currentTime s) (duration s) (isDrawingMode s) (selectedTool s)
          (selectionRange s) (annotations s) (activeAnnotationId s).

Definition setCurrentTime (v : Q) (s : State) : State :=
  mkState (currentUser s) (isUserLoading s) (showOnboarding s) (videoId s)
          (isPlaying s) v (duration s) (isDrawingMode s) (selectedTool s)
          (selectionRange s) (annotations s) (activeAnnotationId s).

Definition setIsDrawingMode (v : bool) (s : State) : State :=
  mkState (currentUser s) (isUserLoading s) (showOnboarding s) (videoId s)
          (isPlaying s) (currentTime s) (duration s) v (selectedTool s)
          (selectionRange s) (annotations s) (activeAnnotationId s).

Definition setSelectedTool (v : Tool) (s : State) : State :=
  mkState (currentUser s) (isUserLoading s) (showOnboarding s) (videoId s)
          (isPlaying s) (currentTime s) (duration s) (isDrawingMode s) v
          (selectionRange s) (annotations s) (activeAnnotationId s).

Definition setSelectionRange (v : option Range) (s : State) : State :=
  mkState (currentUser s) (isUserLoading s) (showOnboarding s) (videoId s)
          (isPlaying s) (currentTime s) (duration s) (isDrawingMode s)
          (selectedTool s) v (annotations s) (activeAnnotationId s).

Definition setAnnotations (v : list Annotation) (s : State) : State :=
  mkState (currentUser s) (isUserLoading s) (showOnboarding s) (videoId s)
          (isPlaying s) (currentTime s) (duration s) (isDrawingMode s)
          (selectedTool s) (selectionRange s) v (activeAnnotationId s).

Definition setActiveAnnotationId (v : option string) (s : State) : State :=
  mkState (currentUser s) (isUserLoading s) (showOnboarding s) (videoId s)
          (isPlaying s) (currentTime s) (duration s) (isDrawingMode s)
          (selectedTool s) (selectionRange s) (annotations s) v.

(** *** Handlers wired to the Timeline *)

Definition handleRangeSelect (range : option Range) (s : State) : State :=
  let s1 := setSelectionRange range s in
  match range with
  | Some _ => setActiveAnnotationId None (setIsPlaying false s1)
  | None => s1
  end.

Definition handleSeek (time : Q) (s : State) : State * list Effect :=
  (setCurrentTime time s, [seekTo time]).

Definition timelineProps (s : State) : Timeline.TimelineProps :=
  Timeline.mkProps (duration s) (currentTime s) (selectionRange s).

Definition dispatch (acc : State * list Effect) (c : Timeline.Callback)
  : State * list Effect :=
  let (s, log) := acc in
  match c with
  | Timeline.onSeek time =>
      let (s', l) := handleSeek time s in (s', log ++ l)
  | Timeline.onRangeSelect range => (handleRangeSelect range s, log)
  end.

(** The mounted Timeline: one Timeline event, its callbacks run against
    the application state in the order they were issued. *)
Definition timelineEvent (s : State) (t : Timeline.State)
           (ev : Timeline.Event) : State * Timeline.State * list Effect :=
  let (t', calls) := Timeline.step (timelineProps s) t ev in
  let (s', log) := fold_left dispatch calls (s, []) in
  (s', t', log).

(** *** Tool mode *)

Definition handleToolChange (tool : Tool) (s : State)
  : State * list Effect :=
  let s1 := setSelectedTool tool s in
  match tool with
  | pen =>
      (setActiveAnnotationId None
         (setIsPlaying false (setIsDrawingMode true s1)),
       [clearCanvas])
  | pointer => (setIsDrawingMode false s1, [])
  end.

Definition handleAnnotationSelect (ann : Annotation) (s : State)
  : State * list Effect :=
  let s1 := setSelectionRange (Some (mkRange (startTime ann) (endTime ann)))
              (setCurrentTime (startTime ann)
                 (setIsPlaying false
                    (setActiveAnnotationId (Some (id ann)) s))) in
  let s2 := if isDrawingMode s
            then setIsDrawingMode false (setSelectedTool pointer s1)
            else s1 in
  (s2, [seekTo (startTime ann)]).

(** *** Which drawing is shown *)

Definition TIME_EPSILON : Q := 0.1.

Definition isTimeInRange (time start end' : Q) : bool :=
  Qle_bool (start - TIME_EPSILON) time && Qle_bool time (end' + TIME_EPSILON).

Definition hasDrawing (a : Annotation) : bool :=
  match drawingData a with Some _ => true | None => false end.

(** Step 1: the signature of the currently visible annotations. *)
Definition visibleAnnotationIdsString (s : State) : string :=
  if isDrawingMode s then EmptyString
  else
    let fallback :=
      JS.join ","
        (JS.sort_strings
           (map id
              (filter (fun ann =>
                         hasDrawing ann &&
                         isTimeInRange (currentTime s)
                                       (startTime ann) (endTime ann))
                      (annotations s)))) in
    match activeAnnotationId s with
    | Some active =>
        if JS.truthy active then
          match find (fun a => String.eqb (id a) active) (annotations s) with
          | Some activeAnn =>
              if hasDrawing activeAnn &&
                 isTimeInRange (currentTime s)
                               (startTime activeAnn) (endTime activeAnn)
              then id activeAnn
              else EmptyString
          | None => EmptyString
          end
        else fallback
    | None => fallback
    end.

Definition visibleAnns (sig : string) (anns : list Annotation)
  : list Annotation :=
  let ids := JS.split "," sig in
  filter (fun a => JS.includes ids (id a)) anns.

Definition combinedObjects (l : list Annotation) : list json :=
  flat_map (fun ann => match drawingData ann with
                       | Some d => objects d
                       | None => []
                       end) l.

(** Step 2: the drawing, a function of the signature and the list. *)
Definition activeDrawing_memo (sig : string) (anns : list Annotation)
  : option DrawingPath :=
  if negb (JS.truthy sig) then None
  else
    match visibleAnns sig anns with
    | [] => None
    | [only] => drawingData only
    | many => Some (mkDrawingPath "5.3.0" (combinedObjects many))
    end.

Definition activeDrawing (s : State) : option DrawingPath :=
  activeDrawing_memo (visibleAnnotationIdsString s) (annotations s).

(** *** Handlers that call the REST client

    Each handler takes the outcome of the request(s) it awaits. *)

Definition initUser (storedUser : option User) (r : Api.FetchResult User)
           (s : State) : State * list Effect :=
  match storedUser with
  | Some _ =>
      match Api.getUser r with
      | (l, Returns (Some dbUser)) =>
          (setIsUserLoading false (setCurrentUser (Some dbUser) s), l)
      | (l, Returns None) =>
          (setIsUserLoading false (setShowOnboarding true s), l)
      | (l, Throws _) => (s, l)
      end
  | None => (setIsUserLoading false (setShowOnboarding true s), [])
  end.

(** Effect "load annotations when video loads". *)
Definition loadAnnotations (r : Api.FetchResult (list Annotation))
           (s : State) : State * list Effect :=
  match videoId s with
  | Some v =>
      if JS.truthy v then
        match Api.getAnnotations r with
        | (l, Returns loaded) => (setAnnotations loaded s, l)
        | (l, Throws _) => (s, l)
        end
      else (s, [])
  | None => (s, [])
  end.

Definition handleUserCreate (r : Api.FetchResult User) (s : State)
  : State * list Effect :=
  let s1 := setIsUserLoading true s in
  match Api.createUser r with
  | (l, Returns user) =>
      (setIsUserLoading false
         (setShowOnboarding false (setCurrentUser (Some user) s1)), l)
  | (l, Throws _) =>
      (setIsUserLoading false s1,
       l ++ [console_error "Failed to create user:";
             alert "Failed to create user. Please make sure the server is running."])
  end.

(** [videoId] is set (a non-empty hash). *)
Definition videoLoaded (s : State) : bool :=
  match videoId s with
  | Some v => JS.truthy v
  | None => false
  end.

(** Neither guard of [if (!videoId || !currentUser) return] fires. *)
Definition signedIn (s : State) : bool :=
  match videoId s, currentUser s with
  | Some v, Some _ => JS.truthy v
  | _, _ => false
  end.

Definition handleAddComment (canvasJSON : option DrawingPath)
           (r : Api.FetchResult Annotation) (s : State)
  : State * list Effect :=
  if negb (signedIn s) then (s, [])
  else
    let currentDrawing := canvasJSON in
    let '(start, end') :=
      match selectionRange s, currentDrawing with
      | Some sel, _ => (start sel, end_ sel)
      | None, Some _ =>
          (currentTime s, Qmin (currentTime s + 1) (duration s))
      | None, None => (currentTime s, currentTime s)
      end in
    match Api.saveAnnotation r with
    | (l, Returns newAnnotation) =>
        let s1 :=
          setSelectionRange (Some (mkRange start end'))
            (setCurrentTime start
               (setActiveAnnotationId (Some (id newAnnotation))
                  (setAnnotations
                     (JS.sort_by startTime
                                 (annotations s ++ [newAnnotation])) s))) in
        match selectedTool s with
        | pen =>
            let (s2, l2) := handleToolChange pointer s1 in
            (s2, l ++ [seekTo start] ++ l2)
        | pointer => (s1, l ++ [seekTo start; clearCanvas])
        end
    | (l, Throws _) =>
        (s, l ++ [console_error "Failed to save annotation:";
                  alert "Failed to save annotation. Please make sure the server is running."])
    end.

Definition handleExport (r : Api.FetchResult Api.ExportData) (s : State)
  : State * list Effect :=
  match videoId s with
  | Some v =>
      if JS.truthy v then
        match (data <- Api.exportAnnotations r ;;
               Api.downloadExportAsFile data) with
        | (l, Returns _) => (s, l)
        | (l, Throws _) =>
            (s, l ++ [console_error "Failed to export:";
                      alert "Failed to export annotations."])
        end
      else (s, [])
  | None => (s, [])
  end.

Definition newline : string := String (ascii_of_nat 10) EmptyString.

Definition mismatchWarning (data : Api.ExportData) (v : string) : string :=
  ("Warning: The imported annotations are for a different video."
     ++ newline ++ newline
     ++ "Import file hash: " ++ String.substring 0 16 (Api.videoHash data)
     ++ "..." ++ newline
     ++ "Current video hash: " ++ String.substring 0 16 v
     ++ "..." ++ newline ++ newline
     ++ "Do you want to import anyway?")%string.

Definition importedMessage (imported : Z) : string :=
  ("Successfully imported "
     ++ DecimalString.NilZero.string_of_int (Z.to_int imported)
     ++ " annotations!")%string.

(** [file]: [None] when no file was chosen, [Some None] when its text
    is not valid JSON, [Some (Some data)] otherwise.  [userConfirms] is
    the answer to the hash-mismatch [window.confirm]. *)
Definition handleImportFile (file : option (option Api.ExportData))
           (userConfirms : bool)
           (rImport : Api.FetchResult Z)
           (rReload : Api.FetchResult (list Annotation))
           (s : State) : State * list Effect :=
  match file, videoId s with
  | Some parsed, Some v =>
      if negb (signedIn s) then (s, [])
      else
        let failure l :=
          (s, l ++ [console_error "Failed to import:";
                    alert "Failed to import annotations. Make sure the file is valid JSON."]) in
        match parsed with
        | None => failure []
        | Some data =>
            let mismatch := negb (String.eqb (Api.videoHash data) v) in
            let asked :=
              if mismatch then [confirm (mismatchWarning data v)] else [] in
            if mismatch && negb userConfirms then (s, asked)
            else
              match (result <- Api.importAnnotations rImport ;;
                     loaded <- Api.getAnnotations rReload ;;
                     ret (result, loaded)) with
              | (l, Returns (result, loaded)) =>
                  (setAnnotations loaded s,
                   asked ++ l ++ [alert (importedMessage result)])
              | (l, Throws _) => failure (asked ++ l)
              end
        end
  | _, _ => (s, [])
  end.

(** *** The editor as a transition system

    The events that move the selection: a Timeline event (its callbacks
    run against the application state), a click on an annotation in the
    sidebar, and a time update from the video element. *)

Inductive Event : Type :=
| TimelineEvent (ev : Timeline.Event)
| AnnotationSelect (ann : Annotation)
| TimeUpdate (time : Q).

Definition handleTimeUpdate (time : Q) (s : State) : State :=
  setCurrentTime time s.

(** Ranges handed to [onRangeSelect]. *)
Definition committed (calls : list Timeline.Callback) : list Range :=
  flat_map (fun c => match c with
                     | Timeline.onRangeSelect (Some r) => [r]
                     | _ => []
                     end) calls.

Definition step (st : State * Timeline.State) (ev : Event)
  : State * Timeline.State * list Range :=
  let (s, t) := st in
  match ev with
  | TimelineEvent tev =>
      let calls := snd (Timeline.step (timelineProps s) t tev) in
      let '(s', t', _) := timelineEvent s t tev in
      (s', t', committed calls)
  | AnnotationSelect ann => (fst (handleAnnotationSelect ann s), t, [])
  | TimeUpdate time => (handleTimeUpdate time s, t, [])
  end.

(** Run a sequence of events; collect every range the Timeline commits. *)
Fixpoint run (st : State * Timeline.State) (evs : list Event)
  : State * Timeline.State * list Range :=
  match evs with
  | [] => (st, [])
  | ev :: rest =>
      let '(s', t', out) := step st ev in
      let '(st'', outs) := run (s', t') rest in
      (st'', out ++ outs)
  end.

End App.

(** ** Local-storage persistence ([services/storage.ts])

    The value kept under [STORAGE_KEY] is the JSON text of an array of
    annotations, or nothing.  The store is modelled by what [JSON.parse]
    gives on that text: [JSON.stringify] followed by [JSON.parse] returns
    an equal array of annotations. *)

Module Storage.

Definition localStorage : Type := option (list Annotation).

(** [localStorage.getItem(STORAGE_KEY)] followed by [JSON.parse], with an
    absent key read as the empty collection. *)
Definition stored (ls : localStorage) : list Annotation :=
  match ls with
  | Some all => all
  | None => []
  end.

Definition getAnnotations (ls : localStorage) (v : string)
  : list Annotation :=
  match ls with
  | None => []
  | Some all =>
      JS.sort_by startTime (filter (fun a => String.eqb (videoId a) v) all)
  end.

Definition saveAnnotation (ls : localStorage) (annotation : Annotation)
  : localStorage * Annotation :=
  (Some (stored ls ++ [annotation]), annotation).

Definition clearAnnotations (ls : localStorage) (v : string)
  : localStorage :=
  match ls with
  | None => None
  | Some all =>
      let remaining :=
        filter (fun a => negb (String.eqb (videoId a) v)) all in
      Some remaining
  end.

End Storage.

(** ** Content hashing ([utils/hash.ts]) *)

Module Hash.

(** A [File] (a [Blob]) is its byte content. *)
Definition File : Type := list byte.

Definition size (f : File) : Z := Z.of_nat (List.length f).

(** [Blob.slice(start, end)]: negative positions count from the end,
    both positions are clamped to [0, size], and an omitted [end] is the
    size. *)
Definition relative (sz pos : Z) : Z :=
  if (pos <? 0)%Z then Z.max (sz + pos) 0 else Z.min pos sz.

Definition slice (f : File) (start : Z) (end' : option Z) : list byte :=
  let sz := size f in
  let relativeStart := relative sz start in
  let relativeEnd :=
    match end' with
    | Some e => relative sz e
    | None => sz
    end in
  let span := Z.max (relativeEnd - relativeStart) 0 in
  firstn (Z.to_nat span) (skipn (Z.to_nat relativeStart) f).

(** [new Uint8Array(n)]: [n] zero bytes. *)
Definition new_Uint8Array (n : Z) : list byte :=
  repeat Byte.x00 (Z.to_nat n).

Definition byteLength (b : list byte) : Z := Z.of_nat (List.length b).

(** [target.set(source, offset)]: overwrite in place; a source that does
    not fit raises [RangeError]. *)
Definition set (target source : list byte) (offset : Z)
  : option (list byte) :=
  if (offset + byteLength source <=? byteLength target)%Z
  then Some (firstn (Z.to_nat offset) target ++ source ++
             skipn (Z.to_nat (offset + byteLength source)) target)
  else None.

(** [new TextEncoder().encode(n.toString())] for a non-negative integer:
    its decimal digits in ASCII. *)
Definition encode_decimal (n : Z) : list byte :=
  list_byte_of_string (DecimalString.NilZero.string_of_uint (N.to_uint (Z.to_N n))).

(** [b.toString(16).padStart(2, '0')] *)
Definition hex_digit (n : N) : ascii :=
  match String.get (N.to_nat n) "0123456789abcdef" with
  | Some c => c
  | None => "0"%char
  end.

Definition hex_of_byte (b : byte) : string :=
  let n := Byte.to_N b in
  String (hex_digit (n / 16)) (String (hex_digit (n mod 16)) EmptyString).

Definition hex (digest : list byte) : string :=
  String.concat EmptyString (map hex_of_byte digest).

(** Lowercase hexadecimal text. *)
Definition lower_hex (c : ascii) : bool :=
  JS.has_char c "0123456789abcdef".

Fixpoint all_chars (P : ascii -> bool) (s : string) : bool :=
  match s with
  | EmptyString => true
  | String c s' => P c && all_chars P s'
  end.

Definition CHUNK_SIZE : Z := 1024 * 1024.

(** [chunks.reduce((acc, c) => acc + c.byteLength, 0)], as a length. *)
Definition total_length (chunks : list (list byte)) : nat :=
  List.length (List.concat chunks).

Section WithDigest.

(** [crypto.subtle.digest('SHA-256', ·)], a function of the message. *)
Variable sha256 : list byte -> list byte.

Definition generateFileHash (f : File) : string :=
  let buffer := f in
  hex (sha256 buffer).

(** The loop [for (const chunk of chunks)] with its running offset. *)
Fixpoint copy_chunks (combined : list byte) (offset : Z)
         (chunks : list (list byte)) : option (list byte) :=
  match chunks with
  | [] => Some combined
  | chunk :: rest =>
      match set combined chunk offset with
      | Some combined' =>
          copy_chunks combined' (offset + byteLength chunk) rest
      | None => None
      end
  end.

(** The message the sampling branch hands to the digest. *)
Definition combined_message (f : File) : option (list byte) :=
  let sz := size f in
  let first := slice f 0 (Some CHUNK_SIZE) in
  let midStart := (sz / 2 - CHUNK_SIZE / 2)%Z in
  let middle := slice f midStart (Some (midStart + CHUNK_SIZE)%Z) in
  let last := slice f (- CHUNK_SIZE) None in
  let chunks := [first; middle; last] in
  let sizeBuffer := encode_decimal sz in
  let totalLength :=
    (byteLength sizeBuffer +
     fold_left (fun acc c => acc + byteLength c) chunks 0)%Z in
  let combined := new_Uint8Array totalLength in
  match set combined sizeBuffer 0 with
  | Some combined' => copy_chunks combined' (byteLength sizeBuffer) chunks
  | None => None
  end.

(** [None] stands for an exception ([RangeError] from [set]). *)
Definition generateFastFileHash (f : File) : option string :=
  if (size f <=? CHUNK_SIZE * 3)%Z then Some (generateFileHash f)
  else
    match combined_message f with
    | Some combined => Some (hex (sha256 combined))
    | None => None
    end.

End WithDigest.

(** Following the specification's words: the decimal string of the total
    byte length, the first 1 MiB, the 1 MiB starting at
    [floor(size/2) - 512 KiB], and the last 1 MiB, in that order. *)
Definition MiB : nat := Z.to_nat 1048576.
Definition KiB512 : Z := 524288.

Definition spec_sampled_message (f : File) : list byte :=
  encode_decimal (size f) ++
  firstn MiB f ++
  firstn MiB (skipn (Z.to_nat (size f / 2 - KiB512)) f) ++
  skipn (List.length f - MiB) f.

End Hash.

(** ** Invariants of the editor *)

(** Annotation ids are keys: pairwise distinct, not empty, and (being
    UUIDs) free of the comma that separates them in the signature. *)
Definition ids_well_formed (anns : list Annotation) : Prop :=
  NoDup (map id anns) /\
  Forall (fun a => id a <> EmptyString /\ JS.has_char "," (id a) = false)
         anns.

(** Following the specification's words: an annotation is gathered when it
    has a drawing payload and its range contains the time within the
    tolerance. *)
Definition gathered_at (time : Q) (a : Annotation) : Prop :=
  drawingData a <> None /\
  startTime a - 0.1 <= time /\ time <= endTime a + 0.1.

Definition gathered_atb (time : Q) (a : Annotation) : bool :=
  App.hasDrawing a && App.isTimeInRange time (startTime a) (endTime a).

(** The gathered annotations, in the order of the annotation list. *)
Definition spec_gathered (s : App.State) : list Annotation :=
  filter (gathered_atb (App.currentTime s)) (App.annotations s).

(** What the drag state holds while the video has length [d]: a recorded
    anchor is a time of the video and a provisional range is in bounds. *)
Definition drag_state_ok (d : Q) (t : Timeline.State) : Prop :=
  (forall a, Timeline.dragStart t = Some a -> 0 <= a /\ a <= d) /\
  in_bounds_opt d (Timeline.tempRange t).

Definition editor_ok (d : Q) (st : App.State * Timeline.State) : Prop :=
  App.duration (fst st) = d /\
  in_bounds_opt d (App.selectionRange (fst st)) /\
  drag_state_ok d (snd st).

(** Selections that do not come from the Timeline are ranges of stored
    annotations; they are assumed to lie inside the video. *)
Definition event_ok (d : Q) (ev : App.Event) : Prop :=
  match ev with
  | App.AnnotationSelect ann => in_bounds d (mkRange (startTime ann) (endTime ann))
  | _ => True
  end.

Definition call_ok (d : Q) (c : Timeline.Callback) : Prop :=
  match c with
  | Timeline.onRangeSelect (Some r) => in_bounds d r
  | _ => True
  end.

(** ** Sample data for the worked examples *)

Definition demo_user : User := mkUser "u1" "Ada" None.

Definition demo_drawing (idv : string) (t0 t1 : Q) (ver : string)
           (objs : list json) : Annotation :=
  mkAnnotation idv "video" t0 t1 demo_user EmptyString 0 drawing
               (Some (mkDrawingPath ver objs)) [].

Definition demo_state (anns : list Annotation) (time : Q) : App.State :=
  App.mkState (Some demo_user) false false (Some "video"%string) false
              time 120 false App.pointer None anns None.

Definition demo_pointer (x : Q) : Timeline.MouseEvent :=
  Timeline.mkMouse x (Some (Timeline.mkRect 0 1200)).

(** ** Numbers and text of the JavaScript runtime, continued *)

Module JSNum.

(** Truncation toward zero, the integer part the [%] operator uses. *)
Definition trunc (q : Q) : Z :=
  if Qlt_le_dec q 0 then Qceiling q else Qfloor q.

(** [x % y]: the remainder has the sign of the dividend. *)
Definition rem (x y : Q) : Q :=
  x - y * inject_Z (trunc (x / y)).

(** [Math.floor]. *)
Definition floor (q : Q) : Z := Qfloor q.

(** [n.toString()] for an integer-valued number. *)
Definition toString (z : Z) : string :=
  DecimalString.NilZero.string_of_int (Z.to_int z).

Fixpoint replicate (n : nat) (c : ascii) : string :=
  match n with
  | O => EmptyString
  | S n' => String c (replicate n' c)
  end.

(** [s.padStart(n, c)] for a one-character filler. *)
Definition padStart (n : nat) (c : ascii) (s : string) : string :=
  (replicate (n - String.length s) c ++ s)%string.

(** White space that [String.prototype.trim] removes (ASCII part). *)
Definition is_space (c : ascii) : bool :=
  match nat_of_ascii c with
  | 9%nat | 10%nat | 11%nat | 12%nat | 13%nat | 32%nat => true
  | _ => false
  end.

Fixpoint trimStart (s : string) : string :=
  match s with
  | EmptyString => EmptyString
  | String c s' => if is_space c then trimStart s' else s
  end.

Fixpoint trimEnd (s : string) : string :=
  match s with
  | EmptyString => EmptyString
  | String c s' =>
      match trimEnd s' with
      | EmptyString => if is_space c then EmptyString
                       else String c EmptyString
      | rest => String c rest
      end
  end.

Definition trim (s : string) : string := trimEnd (trimStart s).

End JSNum.

(** ** The zoom window in double precision

    The five lines that compute the visible window, as the code computes
    them: in IEEE 754 binary64 ([PrimFloat]), every operation rounded to
    nearest.  [Math.max] and [Math.min] are taken on numbers (NaN is
    outside the model). *)

Module TimelineDouble.
Import PrimFloat.
Local Open Scope float_scope.

Definition max (a b : float) : float := if ltb a b then b else a.

Definition min (a b : float) : float := if ltb b a then b else a.

Definition visibleDuration (duration zoomLevel : float) : float :=
  duration / zoomLevel.

Definition viewStart (duration zoomLevel zoomCenter : float) : float :=
  max 0 (zoomCenter - visibleDuration duration zoomLevel / 2).

Definition viewEnd (duration zoomLevel zoomCenter : float) : float :=
  min duration (viewStart duration zoomLevel zoomCenter
                + visibleDuration duration zoomLevel).

Definition actualViewStart (duration zoomLevel zoomCenter : float) : float :=
  if eqb (viewEnd duration zoomLevel zoomCenter) duration
  then max 0 (duration - visibleDuration duration zoomLevel)
  else viewStart duration zoomLevel zoomCenter.

Definition actualViewEnd (duration zoomLevel zoomCenter : float) : float :=
  actualViewStart duration zoomLevel zoomCenter
  + visibleDuration duration zoomLevel.

End TimelineDouble.

(** ** Timeline component: displayed times *)

Module TimelineView.

(** [formatTimeShort] (the Sidebar's [formatTime] is the same function). *)
Definition formatTimeShort (seconds : Q) : string :=
  let mins := JSNum.floor (seconds / 60) in
  let secs := JSNum.floor (JSNum.rem seconds 60) in
  (JSNum.toString mins ++ ":"
     ++ JSNum.padStart 2 "0" (JSNum.toString secs))%string.

End TimelineView.

(** ** REST client, continued: the stored identity and the other endpoints *)

Module ApiStore.
Import Eff Api.
Local Open Scope async_scope.

(** What [localStorage] holds under [USER_STORAGE_KEY]: nothing, the JSON
    of a user, or text that [JSON.parse] rejects. *)
Inductive Item : Type :=
| UserJson (u : User)
| Garbage.

Definition UserStorage : Type := option Item.

Definition getStoredUser (ls : UserStorage) : option User :=
  match ls with
  | None => None
  | Some (UserJson u) => Some u
  | Some Garbage => None
  end.

Definition clearStoredUser (ls : UserStorage) : UserStorage := None.

(** The effect of [localStorage.setItem(USER_STORAGE_KEY, ...)]. *)
Definition apply_effect (ls : UserStorage) (e : Effect) : UserStorage :=
  match e with
  | storeUser u => Some (UserJson u)
  | _ => ls
  end.

Definition apply_effects (ls : UserStorage) (l : list Effect) : UserStorage :=
  fold_left apply_effect l ls.

Definition deleteAnnotation (r : FetchResult unit) : Async unit :=
  fetch_ok r "Failed to delete annotation".

Definition updateAnnotation (r : FetchResult Annotation) : Async Annotation :=
  fetch_ok r "Failed to update annotation".

Definition clearAnnotations (r : FetchResult unit) : Async unit :=
  fetch_ok r "Failed to clear annotations".

End ApiStore.

(** ** Application controller, continued: the editor's actions *)

Module Editor.
Import Eff.

(** Start and end of a new annotation ("Determine Start/End"). *)
Definition commentRange (canvasJSON : option DrawingPath) (s : App.State)
  : Q * Q :=
  match App.selectionRange s, canvasJSON with
  | Some sel, _ => (start sel, end_ sel)
  | None, Some _ =>
      (App.currentTime s, Qmin (App.currentTime s + 1) (App.duration s))
  | None, None => (App.currentTime s, App.currentTime s)
  end.

(** [handleAddComment] awaits [saveAnnotation], and other handlers can run
    before the response arrives.  The part after the [await] keeps in its
    closure the range computed at the submit and the tool selected then;
    everything else it does through state setters, which act on the state
    of the moment they run. *)
Record AddCommentClosure : Type := mkClosure {
  captured_start : Q;
  captured_end : Q;
  captured_tool : App.Tool
}.

(** The part before the [await]; [None] when the guard returns. *)
Definition handleAddComment_submit (canvasJSON : option DrawingPath)
           (s : App.State) : option AddCommentClosure :=
  if negb (App.signedIn s) then None
  else
    let '(start, end') := commentRange canvasJSON s in
    Some (mkClosure start end' (App.selectedTool s)).

(** The part after the [await], run on the state [s] of that later
    moment. *)
Definition handleAddComment_settle (c : AddCommentClosure)
           (r : Api.FetchResult Annotation) (s : App.State)
  : App.State * list Effect :=
  let start := captured_start c in
  let end' := captured_end c in
  match Api.saveAnnotation r with
  | (l, Returns newAnnotation) =>
      let s1 :=
        App.setSelectionRange (Some (mkRange start end'))
          (App.setCurrentTime start
             (App.setActiveAnnotationId (Some (id newAnnotation))
                (App.setAnnotations
                   (JS.sort_by startTime
                               (App.annotations s ++ [newAnnotation])) s))) in
      match captured_tool c with
      | App.pen =>
          let (s2, l2) := App.handleToolChange App.pointer s1 in
          (s2, l ++ [seekTo start] ++ l2)
      | App.pointer => (s1, l ++ [seekTo start; clearCanvas])
      end
  | (l, Throws _) =>
      (s, l ++ [console_error "Failed to save annotation:";
                alert "Failed to save annotation. Please make sure the server is running."])
  end.

Definition togglePlay (s : App.State) : App.State :=
  App.setIsPlaying (negb (App.isPlaying s)) s.

Definition setVideoId (v : option string) (s : App.State) : App.State :=
  App.mkState (App.currentUser s) (App.isUserLoading s)
              (App.showOnboarding s) v (App.isPlaying s)
              (App.currentTime s) (App.duration s) (App.isDrawingMode s)
              (App.selectedTool s) (App.selectionRange s)
              (App.annotations s) (App.activeAnnotationId s).

Definition setDuration (v : Q) (s : App.State) : App.State :=
  App.mkState (App.currentUser s) (App.isUserLoading s)
              (App.showOnboarding s) (App.videoId s) (App.isPlaying s)
              (App.currentTime s) v (App.isDrawingMode s)
              (App.selectedTool s) (App.selectionRange s)
              (App.annotations s) (App.activeAnnotationId s).

(** [chosen]: the content hash of the chosen file, [None] when the file
    dialog was closed without a file. *)
Definition handleFileUpload (chosen : option string) (s : App.State)
  : App.State :=
  match chosen with
  | Some hash =>
      App.setSelectionRange None
        (App.setCurrentTime 0
           (App.setIsPlaying false
              (App.setAnnotations [] (setVideoId (Some hash) s))))
  | None => s
  end.

(** The actions of the editor.  [AddComment] is a submit answered before
    anything else happens; [AddCommentSettle] is the response to a submit
    made at any earlier moment, with whatever that submit captured. *)
Inductive Action : Type :=
| ToolChange (tool : App.Tool)
| AnnotationSelect (ann : Annotation)
| AddComment (canvasJSON : option DrawingPath)
             (r : Api.FetchResult Annotation)
| AddCommentSettle (c : AddCommentClosure) (r : Api.FetchResult Annotation)
| TimelineEvent (ev : Timeline.Event)
| TimeUpdate (time : Q)
| TogglePlay
| DurationChange (d : Q)
| FileUpload (chosen : option string)
| InitUser (storedUser : option User) (r : Api.FetchResult User)
| UserCreate (r : Api.FetchResult User)
| LoadAnnotations (r : Api.FetchResult (list Annotation))
| Export (r : Api.FetchResult Api.ExportData)
| ImportFile (chosen : option (option Api.ExportData)) (userConfirms : bool)
             (rImport : Api.FetchResult Z)
             (rReload : Api.FetchResult (list Annotation)).

Definition step (st : App.State * Timeline.State) (a : Action)
  : App.State * Timeline.State * list Effect :=
  let (s, t) := st in
  let keep (r : App.State * list Effect) := (fst r, t, snd r) in
  match a with
  | ToolChange tool => keep (App.handleToolChange tool s)
  | AnnotationSelect ann => keep (App.handleAnnotationSelect ann s)
  | AddComment canvasJSON r => keep (App.handleAddComment canvasJSON r s)
  | AddCommentSettle c r => keep (handleAddComment_settle c r s)
  | TimelineEvent ev => App.timelineEvent s t ev
  | TimeUpdate time => (App.handleTimeUpdate time s, t, [])
  | TogglePlay => (togglePlay s, t, [])
  | DurationChange d => (setDuration d s, t, [])
  | FileUpload chosen => (handleFileUpload chosen s, t, [])
  | InitUser storedUser r => keep (App.initUser storedUser r s)
  | UserCreate r => keep (App.handleUserCreate r s)
  | LoadAnnotations r => keep (App.loadAnnotations r s)
  | Export r => keep (App.handleExport r s)
  | ImportFile chosen userConfirms rImport rReload =>
      keep (App.handleImportFile chosen userConfirms rImport rReload s)
  end.

Fixpoint run (st : App.State * Timeline.State) (acts : list Action)
  : App.State * Timeline.State * list Effect :=
  match acts with
  | [] => (st, [])
  | a :: rest =>
      let '(s', t', log) := step st a in
      let '(st'', logs) := run (s', t') rest in
      (st'', log ++ logs)
  end.

(** Pen and drawing mode go together. *)
Definition mode_ok (s : App.State) : Prop :=
  App.isDrawingMode s = true <-> App.selectedTool s = App.pen.

End Editor.

(** ** Transcript utilities ([utils/transcript.ts]) *)

Module Transcript.

Record TranscriptCue : Type := mkCue {
  cue_start : Q;
  cue_end : Q;
  cue_text : string
}.

Definition overlaps (start end' : Q) (cue : TranscriptCue) : bool :=
  negb (Qle_bool end' (cue_start cue)) && negb (Qle_bool (cue_end cue) start).

Definition getTranscriptForRange (cues : list TranscriptCue)
           (start end' : Q) : string :=
  let relevantCues := filter (overlaps start end') cues in
  JSNum.trim (JS.join " " (map cue_text relevantCues)).

Definition getFullTranscript (cues : list TranscriptCue) : string :=
  JSNum.trim (JS.join " " (map cue_text cues)).

End Transcript.

(** ** Content hashing: devices for the proofs *)

(** The value of a lowercase hexadecimal digit. *)
Definition hex_value (c : ascii) : N :=
  match String.index 0 (String c EmptyString) "0123456789abcdef" with
  | Some i => N.of_nat i
  | None => 0
  end.

(** The byte written as two lowercase hexadecimal digits. *)
Definition unhex_byte (c1 c2 : ascii) : option byte :=
  Byte.of_N (16 * hex_value c1 + hex_value c2).

(** The file with the byte at position [i] replaced. *)
Definition with_byte (f : Hash.File) (i : nat) (b : byte) : Hash.File :=
  firstn i f ++ b :: skipn (S i) f.

(** Ascending order of start times. *)
Definition by_start (a b : Annotation) : Prop := startTime a <= startTime b.

(** A comment without a drawing. *)
Definition demo_comment (idv : string) (t0 t1 : Q) : Annotation :=
  mkAnnotation idv "video" t0 t1 demo_user "note" 0 comment None [].

(** * Properties *)

(** ** Rational arithmetic *)

Lemma Qmin_cases (x y : Q) :
  (x <= y /\ Qmin x y = x) \/ (y < x /\ Qmin x y = y).
Proof.
  unfold Qmin, GenericMinMax.gmin.
  destruct (x ?= y) eqn:E;
    [apply Qeq_alt in E | apply Qlt_alt in E | apply Qgt_alt in E];
    [left | left | right]; (split; [lra | reflexivity]).
Qed.

Lemma Qmax_cases (x y : Q) :
  (y <= x /\ Qmax x y = x) \/ (x < y /\ Qmax x y = y).
Proof.
  unfold Qmax, GenericMinMax.gmax.
  destruct (x ?= y) eqn:E;
    [apply Qeq_alt in E | apply Qlt_alt in E | apply Qgt_alt in E];
    [left | right | left]; (split; [lra | reflexivity]).
Qed.

(** Case analysis on every [Qmin] and [Qmax] of the goal, one at a time. *)
Ltac split_minmax :=
  repeat match goal with
         | |- context [Qmin ?x ?y] =>
             let H := fresh "Hmin" in
             let E := fresh "Emin" in
             destruct (Qmin_cases x y) as [[H E] | [H E]]; rewrite E in *
         | |- context [Qmax ?x ?y] =>
             let H := fresh "Hmax" in
             let E := fresh "Emax" in
             destruct (Qmax_cases x y) as [[H E] | [H E]]; rewrite E in *
         end.

Lemma Qhalf (x : Q) : x / 2 == x * (1 # 2).
Proof. field. Qed.

Lemma Qdiv_bounds (d z : Q) :
  0 <= d -> 1 <= z -> 0 <= d / z /\ d / z <= d.
Proof.
  intros Hd Hz. split.
  - apply Qle_shift_div_l; lra.
  - apply Qle_shift_div_r; [lra | nra].
Qed.

(** ** Zoom window *)

Lemma ZOOM_LEVELS_ge_1 (z : Q) : In z Timeline.ZOOM_LEVELS -> 1 <= z.
Proof.
  unfold Timeline.ZOOM_LEVELS. simpl.
  intros [<- | [<- | [<- | [<- | [<- | []]]]]]; lra.
Qed.

(** The zoom controls only ever select one of the five levels. *)
Lemma step_keeps_zoom_level (p : Timeline.TimelineProps) (t : Timeline.State)
      (ev : Timeline.Event) :
  In (Timeline.zoomLevel t) Timeline.ZOOM_LEVELS ->
  In (Timeline.zoomLevel (fst (Timeline.step p t ev))) Timeline.ZOOM_LEVELS.
Proof.
  intros Hz.
  assert (Hin : In (Timeline.zoomLevel (Timeline.handleZoomIn p t))
                   Timeline.ZOOM_LEVELS).
  { unfold Timeline.handleZoomIn. simpl in Hz.
    destruct Hz as [E | [E | [E | [E | [E | []]]]]]; rewrite <- E;
      vm_compute; tauto. }
  assert (Hout : In (Timeline.zoomLevel (Timeline.handleZoomOut p t))
                    Timeline.ZOOM_LEVELS).
  { unfold Timeline.handleZoomOut. simpl in Hz.
    destruct Hz as [E | [E | [E | [E | [E | []]]]]]; rewrite <- E;
      vm_compute; tauto. }
  destruct ev; cbn [Timeline.step]; try exact Hz; try exact Hin;
    try exact Hout.
  - unfold Timeline.handleStartHandleMouseDown.
    destruct (Timeline.selectionRange p); exact Hz.
  - unfold Timeline.handleEndHandleMouseDown.
    destruct (Timeline.selectionRange p); exact Hz.
  - destruct (Timeline.dragging t); [| exact Hz].
    unfold Timeline.handleGlobalMouseMove.
    destruct (Timeline.dragMode t), (Timeline.tempRange t); exact Hz.
  - destruct (Timeline.dragging t); exact Hz.
  - unfold Timeline.handleWheel.
    destruct (_ || _); [| exact Hz].
    destruct (Qlt_le_dec _ _); [exact Hin | exact Hout].
  - simpl. tauto.
  - unfold Timeline.keepPlayheadVisible.
    repeat destruct (Qlt_le_dec _ _); exact Hz.
Qed.

Section ZoomWindow.
Import Timeline.
Variables (p : TimelineProps) (s : State).
Hypothesis duration_nonneg : 0 <= duration p.
Hypothesis zoom_ge_1 : 1 <= zoomLevel s.

Lemma visibleDuration_bounds :
  0 <= visibleDuration p s /\ visibleDuration p s <= duration p.
Proof. unfold visibleDuration. now apply Qdiv_bounds. Qed.

Lemma viewStart_nonneg : 0 <= viewStart p s.
Proof. unfold viewStart. split_minmax; lra. Qed.

(** The window that would run past the end is moved back to end there. *)
Lemma window_shifted_left :
  duration p <= viewStart p s + visibleDuration p s ->
  actualViewStart p s == duration p - visibleDuration p s.
Proof.
  destruct visibleDuration_bounds as [H0 H1].
  intros Hpast. unfold actualViewStart, viewEnd.
  destruct (Qeq_bool _ _) eqn:E.
  - split_minmax; lra.
  - apply Qeq_bool_neq in E. exfalso. apply E.
    split_minmax; lra.
Qed.

Lemma window_not_shifted :
  viewStart p s + visibleDuration p s < duration p ->
  actualViewStart p s = viewStart p s.
Proof.
  intros Hin. unfold actualViewStart, viewEnd.
  destruct (Qeq_bool _ _) eqn:E; trivial.
  apply Qeq_bool_iff in E. exfalso. revert E.
  split_minmax; lra.
Qed.

Lemma zoom_window_bounds :
  0 <= actualViewStart p s /\
  actualViewStart p s <= actualViewEnd p s /\
  actualViewEnd p s <= duration p.
Proof.
  destruct visibleDuration_bounds as [H0 H1].
  pose proof viewStart_nonneg as Hv.
  unfold actualViewEnd.
  destruct (Qlt_le_dec (viewStart p s + visibleDuration p s) (duration p))
    as [Hin | Hpast].
  - rewrite (window_not_shifted Hin). lra.
  - rewrite (window_shifted_left Hpast). lra.
Qed.

End ZoomWindow.

Section ZoomWindowDouble.
Import PrimFloat.
Local Open Scope float_scope.


End ZoomWindowDouble.



(** ** Pointer times *)

Lemma getTimeFromEvent_in_bounds (p : Timeline.TimelineProps)
      (s : Timeline.State) (e : Timeline.MouseEvent) :
  0 <= Timeline.duration p ->
  0 <= Timeline.getTimeFromEvent p s e /\
  Timeline.getTimeFromEvent p s e <= Timeline.duration p.
Proof.
  intros Hd. unfold Timeline.getTimeFromEvent.
  destruct (Timeline.trackRect e) as [rect |]; [| lra].
  destruct (Qeq_bool _ _); [lra |].
  cbv zeta.
  match goal with
  | |- context [Qmin (Timeline.duration p) ?x] => generalize x; intro y
  end.
  split_minmax; lra.
Qed.

(** ** Pointer-up after a drag on the empty track *)

Lemma fold_dispatch_seek (s : App.State) (time : Q) :
  fold_left App.dispatch [Timeline.onSeek time] (s, [])
  = (App.setCurrentTime time s, [Eff.seekTo time]).
Proof. reflexivity. Qed.

Lemma fold_dispatch_range_seek (s : App.State) (r : Range) (time : Q) :
  fold_left App.dispatch
            [Timeline.onRangeSelect (Some r); Timeline.onSeek time] (s, [])
  = (App.setCurrentTime time (App.handleRangeSelect (Some r) s),
     [Eff.seekTo time]).
Proof. reflexivity. Qed.

(** C1.  In state [create] with anchor [anchor], pointer-up at time [time]
    returns the machine to [none]; when [|time - anchor| < 0.1] the only
    callback is a seek to [time] and the application's selection range is
    what it was; otherwise the range [[min anchor time, max anchor time]]
    is committed as the selection range and the playhead seeks to its
    start. *)
Theorem click_or_drag_on_pointer_up (s : App.State) (t : Timeline.State)
        (e : Timeline.MouseEvent) (anchor : Q) :
  Timeline.dragMode t = Timeline.create ->
  Timeline.dragStart t = Some anchor ->
  let p := App.timelineProps s in
  let time := Timeline.getTimeFromEvent p t e in
  let calls := snd (Timeline.handleGlobalMouseUp p t e) in
  let '(s', t', log) := App.timelineEvent s t (Timeline.GlobalMouseUp e) in
  Timeline.dragMode t' = Timeline.none /\
  (Qabs (time - anchor) < 0.1 ->
   calls = [Timeline.onSeek time] /\
   App.selectionRange s' = App.selectionRange s /\
   App.currentTime s' = time /\
   log = [Eff.seekTo time]) /\
  (0.1 <= Qabs (time - anchor) ->
   let range := mkRange (Qmin anchor time) (Qmax anchor time) in
   calls = [Timeline.onRangeSelect (Some range);
            Timeline.onSeek (start range)] /\
   App.selectionRange s' = Some range /\
   App.currentTime s' = start range /\
   log = [Eff.seekTo (start range)]).
Proof.
  intros Hmode Hanchor p time calls.
  unfold App.timelineEvent, Timeline.step, Timeline.dragging.
  rewrite Hmode.
  subst calls. unfold Timeline.handleGlobalMouseUp.
  rewrite Hmode, Hanchor. fold p. fold time.
  destruct (Qlt_le_dec (Qabs (time - anchor)) 0.1) as [Hclick | Hdrag].
  - rewrite fold_dispatch_seek. cbn [snd].
    split; [reflexivity |]. split.
    + intros _. repeat split.
    + intros Hge. exfalso. lra.
  - rewrite fold_dispatch_range_seek. cbn [snd].
    split; [reflexivity |]. split.
    + intros Hlt. exfalso. lra.
    + intros _. repeat split.
Qed.

(** The specification's example: pointer-down at 10.0 s; pointer-up at
    10.05 s leaves the selection [[3, 4]] alone, pointer-up at 10.2 s
    commits [[10.0, 10.2]]. *)
Lemma click_or_drag_on_pointer_up_witness :
  let s := App.setSelectionRange (Some (mkRange 3 4)) (demo_state [] 0) in
  let t := Timeline.handleMouseDown (App.timelineProps s) Timeline.initial
                                    (demo_pointer 100) in
  let up x := App.timelineEvent s t (Timeline.GlobalMouseUp (demo_pointer x)) in
  Timeline.dragMode t = Timeline.create /\
  Timeline.dragStart t = Some (12000 # 1200) /\
  App.selectionRange (fst (fst (up 100.5))) = Some (mkRange 3 4) /\
  App.selectionRange (fst (fst (up 102)))
  = Some (mkRange (Qmin (12000 # 1200) (12240 # 1200))
                  (Qmax (12000 # 1200) (12240 # 1200))).
Proof.
  intros s t up.
  assert (Hm : Timeline.dragMode t = Timeline.create) by reflexivity.
  assert (Ha : Timeline.dragStart t = Some (12000 # 1200)) by reflexivity.
  split; [exact Hm |]. split; [exact Ha |]. split.
  - pose proof (click_or_drag_on_pointer_up s t (demo_pointer 100.5) _ Hm Ha)
      as H.
    cbv zeta in H. unfold up.
    destruct (App.timelineEvent s t (Timeline.GlobalMouseUp (demo_pointer 100.5)))
      as [[s' t'] log].
    destruct H as (_ & Hclick & _).
    destruct Hclick as (_ & Hsel & _); [vm_compute; reflexivity |].
    exact Hsel.
  - pose proof (click_or_drag_on_pointer_up s t (demo_pointer 102) _ Hm Ha)
      as H.
    cbv zeta in H. unfold up.
    destruct (App.timelineEvent s t (Timeline.GlobalMouseUp (demo_pointer 102)))
      as [[s' t'] log].
    destruct H as (_ & _ & Hdrag).
    destruct Hdrag as (_ & Hsel & _); [vm_compute; discriminate |].
    exact Hsel.
Defined.

(** The earlier Timeline component treats pointer-up differently: the
    threshold is 0.5 s, and a click also clears the selection (as
    pointer-down already did). *)
Remark legacy_timeline_click (duration : Q) (s : LegacyTimeline.State)
       (e : Timeline.MouseEvent) (anchor : Q) :
  LegacyTimeline.isDragging s = true ->
  LegacyTimeline.dragStart s = Some anchor ->
  let dragEnd := LegacyTimeline.getPercentageFromEvent duration e * duration in
  Qabs (dragEnd - anchor) < 0.5 ->
  snd (LegacyTimeline.handleMouseUp duration s e)
  = [Timeline.onSeek dragEnd; Timeline.onRangeSelect None].
Proof.
  intros Hdrag Hanchor dragEnd Hclick.
  unfold LegacyTimeline.handleMouseUp. rewrite Hdrag, Hanchor.
  fold dragEnd. destruct (Qlt_le_dec _ _); [reflexivity | lra].
Qed.

(** ** Dragging a handle *)

(** C7, as the code has it.  A pointer-move while a handle is dragged
    keeps the other end of the provisional range; the dragged start
    becomes [max 0 (min time (end - 0.05))], which is at least 0.05 s
    before the end when the end is at least 0.05 s, and 0 otherwise; the
    dragged end becomes [min duration (max time (start + 0.05))], which is
    at least 0.05 s after the start when the start is at most
    [duration - 0.05], and [duration] otherwise. *)
Theorem extend_move_keeps_other_end (p : Timeline.TimelineProps)
        (s : Timeline.State) (e : Timeline.MouseEvent) (tr : Range) :
  Timeline.tempRange s = Some tr ->
  let time := Timeline.getTimeFromEvent p s e in
  let s' := Timeline.handleGlobalMouseMove p s e in
  (Timeline.dragMode s = Timeline.extend_start ->
   exists tr',
     Timeline.tempRange s' = Some tr' /\
     end_ tr' = end_ tr /\
     start tr' = Qmax 0 (Qmin time (end_ tr - 0.05)) /\
     (0.05 <= end_ tr -> start tr' <= end_ tr - 0.05) /\
     (end_ tr < 0.05 -> start tr' == 0)) /\
  (Timeline.dragMode s = Timeline.extend_end ->
   exists tr',
     Timeline.tempRange s' = Some tr' /\
     start tr' = start tr /\
     end_ tr' = Qmin (Timeline.duration p) (Qmax time (start tr + 0.05)) /\
     (start tr <= Timeline.duration p - 0.05 ->
      start tr + 0.05 <= end_ tr') /\
     (Timeline.duration p - 0.05 < start tr ->
      end_ tr' == Timeline.duration p)).
Proof.
  intros Htr time s'. subst s'. unfold Timeline.handleGlobalMouseMove.
  fold time. rewrite Htr. split; intros Hmode; rewrite Hmode.
  - eexists. split; [reflexivity |]. cbn [start end_].
    split; [reflexivity |]. split; [reflexivity |].
    split; intros H; split_minmax; lra.
  - eexists. split; [reflexivity |]. cbn [start end_].
    split; [reflexivity |]. split; [reflexivity |].
    split; intros H; split_minmax; lra.
Qed.

Lemma extend_move_keeps_other_end_witness :
  let p := Timeline.mkProps 120 0 (Some (mkRange 10 20)) in
  let s := Timeline.handleStartHandleMouseDown p Timeline.initial in
  let e := demo_pointer 300 in
  Timeline.tempRange s = Some (mkRange 10 20) /\
  exists tr',
    Timeline.tempRange (Timeline.handleGlobalMouseMove p s e) = Some tr' /\
    end_ tr' = 20 /\ start tr' <= 20 - 0.05.
Proof.
  intros p s e.
  assert (Htr : Timeline.tempRange s = Some (mkRange 10 20)) by reflexivity.
  split; [exact Htr |].
  destruct (extend_move_keeps_other_end p s e _ Htr) as [Hs _].
  destruct (Hs eq_refl) as (tr' & H1 & H2 & _ & H4 & _).
  exists tr'. split; [exact H1 |]. split; [exact H2 |].
  apply H4. vm_compute. discriminate.
Defined.

(** C7 as stated fails next to the clamping bounds.  A point selection at
    0.02 s (a click on a point annotation) whose start handle is dragged:
    the start is clamped to 0, only 0.02 s before the fixed end.  A point
    selection at 119.98 s of a 120 s video whose end handle is dragged:
    the end is clamped to 120, only 0.02 s after the fixed start. *)
Lemma extend_min_width_fails_at_bounds :
  (let p := Timeline.mkProps 120 0 (Some (mkRange 0.02 0.02)) in
   let s := Timeline.handleStartHandleMouseDown p Timeline.initial in
   Timeline.dragMode s = Timeline.extend_start /\
   Timeline.tempRange s = Some (mkRange 0.02 0.02) /\
   exists tr',
     Timeline.tempRange (Timeline.handleGlobalMouseMove p s (demo_pointer 0))
     = Some tr' /\
     end_ tr' = 0.02 /\
     start tr' == 0 /\
     ~ (start tr' <= end_ tr' - 0.05)) /\
  (let p := Timeline.mkProps 120 0 (Some (mkRange 119.98 119.98)) in
   let s := Timeline.handleEndHandleMouseDown p Timeline.initial in
   Timeline.dragMode s = Timeline.extend_end /\
   Timeline.tempRange s = Some (mkRange 119.98 119.98) /\
   exists tr',
     Timeline.tempRange (Timeline.handleGlobalMouseMove p s (demo_pointer 1200))
     = Some tr' /\
     start tr' = 119.98 /\
     end_ tr' == 120 /\
     ~ (start tr' + 0.05 <= end_ tr')).
Proof.
  split; intros p s; (split; [reflexivity |]); (split; [reflexivity |]);
    eexists; (split; [reflexivity |]); (split; [reflexivity |]);
    split; vm_compute; try reflexivity; intros H; apply H; reflexivity.
Qed.

(** ** Range invariant *)

Lemma set_zoom_drag_state_ok d t level center :
  drag_state_ok d t -> drag_state_ok d (Timeline.set_zoom t level center).
Proof. intros H; exact H. Qed.

Lemma handleZoomIn_ok d p t :
  drag_state_ok d t -> drag_state_ok d (Timeline.handleZoomIn p t).
Proof.
  intros H. unfold Timeline.handleZoomIn.
  destruct (_ <? _)%Z; [apply set_zoom_drag_state_ok |]; exact H.
Qed.

Lemma handleZoomOut_ok d p t :
  drag_state_ok d t -> drag_state_ok d (Timeline.handleZoomOut p t).
Proof.
  intros H. unfold Timeline.handleZoomOut.
  destruct (_ >? _)%Z; [apply set_zoom_drag_state_ok |]; exact H.
Qed.

Lemma handleGlobalMouseMove_ok p t e :
  0 <= Timeline.duration p ->
  drag_state_ok (Timeline.duration p) t ->
  drag_state_ok (Timeline.duration p) (Timeline.handleGlobalMouseMove p t e).
Proof.
  intros Hd [Hanchor Htemp]. unfold Timeline.handleGlobalMouseMove.
  destruct (Timeline.tempRange t) as [tr |] eqn:Etr.
  - destruct Htemp as (H0 & H1 & H2).
    destruct (Timeline.dragMode t); split; try exact Hanchor;
      cbn [Timeline.set_hover Timeline.set_tempRange Timeline.tempRange];
      try (rewrite Etr; repeat split; assumption);
      repeat split; cbn [start end_]; split_minmax; lra.
  - destruct (Timeline.dragMode t); split; try exact Hanchor;
      cbn [Timeline.set_hover Timeline.tempRange]; rewrite Etr; exact I.
Qed.

Lemma handleGlobalMouseUp_ok p t e :
  0 <= Timeline.duration p ->
  drag_state_ok (Timeline.duration p) t ->
  drag_state_ok (Timeline.duration p)
                (fst (Timeline.handleGlobalMouseUp p t e)) /\
  Forall (call_ok (Timeline.duration p))
         (snd (Timeline.handleGlobalMouseUp p t e)).
Proof.
  intros Hd [Hanchor Htemp]. split.
  - split; [intros a Ha; discriminate Ha | exact I].
  - pose proof (getTimeFromEvent_in_bounds p t e Hd) as [Ht0 Ht1].
    assert (Hextend : forall tr,
               in_bounds (Timeline.duration p) tr ->
               Forall (call_ok (Timeline.duration p))
                      [Timeline.onRangeSelect (Some tr);
                       Timeline.onSeek (start tr)]).
    { intros tr Hr. constructor; [exact Hr |]. constructor; [exact I |].
      constructor. }
    unfold Timeline.handleGlobalMouseUp. cbn [snd].
    destruct (Timeline.dragMode t).
    + destruct (Timeline.dragStart t), (Timeline.tempRange t); constructor.
    + destruct (Timeline.dragStart t) as [ds |].
      * destruct (Hanchor ds eq_refl) as [Ha0 Ha1].
        destruct (Qlt_le_dec _ _).
        -- constructor; [exact I | constructor].
        -- apply Hextend. unfold in_bounds. cbn [start end_].
           repeat split; split_minmax; lra.
      * constructor.
    + destruct (Timeline.dragStart t), (Timeline.tempRange t);
        first [now apply Hextend | constructor].
    + destruct (Timeline.dragStart t), (Timeline.tempRange t);
        first [now apply Hextend | constructor].
Qed.

Lemma timeline_step_ok p t ev :
  0 <= Timeline.duration p ->
  in_bounds_opt (Timeline.duration p) (Timeline.selectionRange p) ->
  drag_state_ok (Timeline.duration p) t ->
  drag_state_ok (Timeline.duration p) (fst (Timeline.step p t ev)) /\
  Forall (call_ok (Timeline.duration p)) (snd (Timeline.step p t ev)).
Proof.
  intros Hd Hsel Ht.
  assert (Hquiet : forall t',
             drag_state_ok (Timeline.duration p) t' ->
             drag_state_ok (Timeline.duration p)
                           (fst (t', @nil Timeline.Callback)) /\
             Forall (call_ok (Timeline.duration p))
                    (snd (t', @nil Timeline.Callback))).
  { intros t' H. split; [exact H | constructor]. }
  destruct ev; cbn [Timeline.step].
  - (* MouseDown *)
    apply Hquiet. split; [| exact I]. intros a Ha. injection Ha as <-.
    apply getTimeFromEvent_in_bounds, Hd.
  - (* StartHandleMouseDown *)
    apply Hquiet. unfold Timeline.handleStartHandleMouseDown.
    destruct (Timeline.selectionRange p); [| exact Ht].
    split; [apply Ht | exact Hsel].
  - (* EndHandleMouseDown *)
    apply Hquiet. unfold Timeline.handleEndHandleMouseDown.
    destruct (Timeline.selectionRange p); [| exact Ht].
    split; [apply Ht | exact Hsel].
  - (* GlobalMouseMove *)
    destruct (Timeline.dragging t); apply Hquiet;
      [now apply handleGlobalMouseMove_ok | exact Ht].
  - (* GlobalMouseUp *)
    destruct (Timeline.dragging t);
      [now apply handleGlobalMouseUp_ok | now apply Hquiet].
  - (* MouseMove *) apply Hquiet. exact Ht.
  - (* MouseLeave *) apply Hquiet. exact Ht.
  - (* Wheel *)
    apply Hquiet. unfold Timeline.handleWheel.
    destruct (_ || _); [| exact Ht].
    destruct (Qlt_le_dec _ _);
      [now apply handleZoomIn_ok | now apply handleZoomOut_ok].
  - apply Hquiet. now apply handleZoomIn_ok.
  - apply Hquiet. now apply handleZoomOut_ok.
  - apply Hquiet. exact Ht.
  - (* PlayheadEffect *)
    apply Hquiet. unfold Timeline.keepPlayheadVisible.
    repeat destruct (Qlt_le_dec _ _); exact Ht.
Qed.

Lemma dispatch_ok d calls :
  Forall (call_ok d) calls ->
  forall s log,
    App.duration s = d ->
    in_bounds_opt d (App.selectionRange s) ->
    App.duration (fst (fold_left App.dispatch calls (s, log))) = d /\
    in_bounds_opt d
      (App.selectionRange (fst (fold_left App.dispatch calls (s, log)))).
Proof.
  induction 1 as [| c calls Hc _ IH]; intros s log Hd Hsel.
  - split; assumption.
  - cbn [fold_left]. destruct c as [time | [r |]]; cbn [App.dispatch];
      cbn [App.handleSeek]; apply IH; trivial.
Qed.

Lemma committed_ok d calls :
  Forall (call_ok d) calls -> Forall (in_bounds d) (App.committed calls).
Proof.
  induction 1 as [| c calls Hc _ IH]; [constructor |].
  unfold App.committed. cbn [flat_map].
  destruct c as [time | [r |]]; cbn [app]; trivial.
  constructor; assumption.
Qed.

Lemma editor_step_ok d st ev :
  0 <= d -> editor_ok d st -> event_ok d ev ->
  editor_ok d (fst (App.step st ev)) /\
  Forall (in_bounds d) (snd (App.step st ev)).
Proof.
  intros Hd (Hdur & Hsel & Ht) Hev. destruct st as [s t].
  cbn [fst snd] in Hdur, Hsel, Ht.
  destruct ev as [tev | ann | time]; cbn [App.step].
  - unfold App.timelineEvent.
    assert (Hp : Timeline.duration (App.timelineProps s) = d) by exact Hdur.
    destruct (timeline_step_ok (App.timelineProps s) t tev) as [Ht' Hcalls];
      rewrite ?Hp; trivial.
    rewrite Hp in Ht', Hcalls.
    destruct (Timeline.step (App.timelineProps s) t tev) as [t' calls].
    cbn [fst snd] in *.
    destruct (dispatch_ok d calls Hcalls s [] Hdur Hsel) as [Hdur' Hsel'].
    destruct (fold_left App.dispatch calls (s, [])) as [s' log].
    cbn [fst snd] in *. split.
    + split; [exact Hdur' |]. split; [exact Hsel' | exact Ht'].
    + now apply committed_ok.
  - split; [| constructor]. cbn [fst snd].
    unfold App.handleAnnotationSelect. cbn [fst].
    destruct (App.isDrawingMode s); (split; [exact Hdur |]);
      (split; [exact Hev | exact Ht]).
  - split; [| constructor].
    split; [exact Hdur |]. split; [exact Hsel | exact Ht].
Qed.

(** C8.  Along every run of the editor from a state whose selection range
    (if any) is in bounds, in a video whose duration is not negative and
    with every selection made outside the Timeline in bounds, each range
    the Timeline commits at pointer-up (from a create-drag or from a
    dragged handle) satisfies [0 <= start <= end <= duration]. *)
Theorem committed_ranges_in_bounds (d : Q) (st : App.State * Timeline.State)
        (evs : list App.Event) :
  0 <= d ->
  editor_ok d st ->
  Forall (event_ok d) evs ->
  editor_ok d (fst (App.run st evs)) /\
  Forall (in_bounds d) (snd (App.run st evs)).
Proof.
  intros Hd Hst Hevs. revert st Hst.
  induction Hevs as [| ev evs Hev _ IH]; intros st Hst.
  - split; [exact Hst | constructor].
  - cbn [App.run].
    destruct (editor_step_ok d st ev Hd Hst Hev) as [Hst' Hout].
    destruct (App.step st ev) as [[s' t'] out]. cbn [fst snd] in *.
    destruct (IH (s', t') Hst') as [Hst'' Houts].
    destruct (App.run (s', t') evs) as [st'' outs]. cbn [fst snd] in *.
    split; [exact Hst'' |]. apply Forall_app. split; assumption.
Qed.

(** A create-drag from 30 s back to 10 s, then the end handle dragged far
    past the right edge of the track: two commits, both in bounds. *)
Lemma committed_ranges_in_bounds_witness :
  let s := demo_state [] 0 in
  let e := demo_pointer in
  let evs := [App.TimelineEvent (Timeline.MouseDown (e 300));
              App.TimelineEvent (Timeline.GlobalMouseUp (e 100));
              App.TimelineEvent Timeline.EndHandleMouseDown;
              App.TimelineEvent (Timeline.GlobalMouseMove (e 5000));
              App.TimelineEvent (Timeline.GlobalMouseUp (e 5000))] in
  List.length (snd (App.run (s, Timeline.initial) evs)) = 2%nat /\
  Forall (in_bounds 120) (snd (App.run (s, Timeline.initial) evs)).
Proof.
  intros s e evs. split; [reflexivity |].
  apply (committed_ranges_in_bounds 120 (s, Timeline.initial) evs).
  - vm_compute. discriminate.
  - split; [reflexivity |]. split; [exact I |].
    split; [intros a Ha; discriminate Ha | exact I].
  - repeat constructor.
Defined.

(** ** Strings: split undoes join *)

Lemma split_cons_sep (sep : ascii) (s : string) :
  JS.split sep (String sep s) = EmptyString :: JS.split sep s.
Proof. cbn [JS.split]. now rewrite Ascii.eqb_refl. Qed.

Lemma split_not_nil (sep : ascii) (s : string) : JS.split sep s <> [].
Proof.
  induction s as [| c s IH]; cbn [JS.split]; [discriminate |].
  destruct (Ascii.eqb c sep); [discriminate |].
  destruct (JS.split sep s); [contradiction | discriminate].
Qed.

Lemma split_app (sep : ascii) (x rest : string) :
  JS.has_char sep x = false ->
  JS.split sep (x ++ String sep rest) = x :: JS.split sep rest.
Proof.
  induction x as [| c x IH]; intros Hx.
  - apply split_cons_sep.
  - cbn [JS.has_char] in Hx. apply orb_false_iff in Hx as [Hc Hx].
    cbn [String.append JS.split]. rewrite Hc, (IH Hx). reflexivity.
Qed.

Lemma split_no_sep (sep : ascii) (x : string) :
  JS.has_char sep x = false -> JS.split sep x = [x].
Proof.
  induction x as [| c x IH]; intros Hx; [reflexivity |].
  cbn [JS.has_char] in Hx. apply orb_false_iff in Hx as [Hc Hx].
  cbn [JS.split]. rewrite Hc, (IH Hx). reflexivity.
Qed.

Lemma split_join (l : list string) :
  l <> [] ->
  Forall (fun x => JS.has_char "," x = false) l ->
  JS.split "," (JS.join "," l) = l.
Proof.
  intros Hne Hl. induction Hl as [| x l Hx Hl IH]; [contradiction |].
  unfold JS.join in *. destruct l as [| y l].
  - cbn [String.concat]. now apply split_no_sep.
  - change (String.concat "," (x :: y :: l))
      with (x ++ String "," (String.concat "," (y :: l)))%string.
    rewrite split_app by exact Hx. f_equal. apply IH. discriminate.
Qed.

Lemma join_truthy (l : list string) :
  l <> [] -> Forall (fun x => x <> EmptyString) l ->
  JS.truthy (JS.join "," l) = true.
Proof.
  intros Hne Hl. destruct Hl as [| x l Hx _]; [contradiction |].
  unfold JS.truthy, JS.join. destruct x as [| c x]; [contradiction |].
  destruct l; reflexivity.
Qed.

(** ** Sorting keeps the elements *)

Lemma insert_string_perm (x : string) (l : list string) :
  Permutation (JS.insert_string x l) (x :: l).
Proof.
  induction l as [| y l IH]; cbn [JS.insert_string]; [reflexivity |].
  destruct (String.leb x y); [reflexivity |].
  rewrite IH. apply perm_swap.
Qed.

Lemma sort_strings_perm (l : list string) :
  Permutation (JS.sort_strings l) l.
Proof.
  induction l as [| x l IH]; [reflexivity |].
  unfold JS.sort_strings in *. cbn [fold_right].
  rewrite insert_string_perm. now constructor.
Qed.

Lemma includes_In (l : list string) (x : string) :
  JS.includes l x = true <-> In x l.
Proof.
  unfold JS.includes. rewrite existsb_exists. split.
  - intros (y & Hy & E). apply String.eqb_eq in E. now subst.
  - intros H. exists x. split; [exact H | apply String.eqb_refl].
Qed.

(** ** Drawing visibility *)

Lemma isTimeInRange_spec (time start end' : Q) :
  App.isTimeInRange time start end' = true <->
  start - 0.1 <= time /\ time <= end' + 0.1.
Proof.
  unfold App.isTimeInRange, App.TIME_EPSILON.
  rewrite andb_true_iff, !Qle_bool_iff. reflexivity.
Qed.

Lemma gathered_atb_spec (time : Q) (a : Annotation) :
  gathered_atb time a = true <-> gathered_at time a.
Proof.
  unfold gathered_atb, gathered_at, App.hasDrawing.
  rewrite andb_true_iff, isTimeInRange_spec.
  destruct (drawingData a); split; intros [H1 H2]; split;
    trivial; congruence.
Qed.

(** With distinct ids, an id names an element of a sublist exactly when
    the annotation itself is in the sublist. *)
Lemma id_in_filter (P : Annotation -> bool) (anns : list Annotation)
      (a : Annotation) :
  NoDup (map id anns) -> In a anns ->
  (In (id a) (map id (filter P anns)) <-> P a = true).
Proof.
  intros Hnd Ha. split.
  - intros Hin. apply in_map_iff in Hin as (b & Hid & Hb).
    apply filter_In in Hb as [Hb HP].
    replace a with b; [exact HP |].
    clear HP. induction anns as [| c anns IH]; [contradiction |].
    cbn [map] in Hnd. inversion Hnd as [| ? ? Hnotin Hnd']; subst.
    destruct Ha as [-> | Ha], Hb as [-> | Hb]; trivial.
    + exfalso. apply Hnotin. rewrite <- Hid. now apply in_map.
    + exfalso. apply Hnotin. rewrite Hid. now apply in_map.
    + now apply IH.
  - intros HP. apply in_map. apply filter_In. now split.
Qed.

(** The second memo step recovers exactly the annotations whose ids went
    into the signature. *)
Lemma visibleAnns_of_signature (P : Annotation -> bool)
      (anns : list Annotation) :
  ids_well_formed anns ->
  filter P anns <> [] ->
  App.visibleAnns
    (JS.join "," (JS.sort_strings (map id (filter P anns)))) anns
  = filter P anns.
Proof.
  intros [Hnd Hids] Hne.
  set (ids := map id (filter P anns)).
  assert (Hperm : Permutation (JS.sort_strings ids) ids)
    by apply sort_strings_perm.
  assert (Hfree : Forall (fun x => JS.has_char "," x = false)
                         (JS.sort_strings ids)).
  { apply Forall_forall. intros x Hx.
    apply (Permutation_in _ Hperm) in Hx.
    apply in_map_iff in Hx as (a & <- & Ha).
    apply filter_In in Ha as [Ha _].
    rewrite Forall_forall in Hids. now apply Hids. }
  assert (Hsorted_ne : JS.sort_strings ids <> []).
  { intros E. rewrite E in Hperm. apply Permutation_nil in Hperm.
    subst ids. destruct (filter P anns); [contradiction | discriminate]. }
  unfold App.visibleAnns. rewrite (split_join _ Hsorted_ne Hfree).
  apply filter_ext_in. intros a Ha.
  apply eq_true_iff_eq. rewrite includes_In.
  rewrite <- (id_in_filter P anns a Hnd Ha). subst ids.
  split; intros H.
  - now apply (Permutation_in _ Hperm).
  - now apply (Permutation_in _ (Permutation_sym Hperm)).
Qed.

Lemma signature_truthy (P : Annotation -> bool) (anns : list Annotation) :
  ids_well_formed anns ->
  filter P anns <> [] ->
  JS.truthy (JS.join "," (JS.sort_strings (map id (filter P anns)))) = true.
Proof.
  intros [_ Hids] Hne.
  set (ids := map id (filter P anns)).
  pose proof (sort_strings_perm ids) as Hperm.
  apply join_truthy.
  - intros E. rewrite E in Hperm. apply Permutation_nil in Hperm.
    subst ids. destruct (filter P anns); [contradiction | discriminate].
  - apply Forall_forall. intros x Hx.
    apply (Permutation_in _ Hperm) in Hx.
    apply in_map_iff in Hx as (a & <- & Ha).
    apply filter_In in Ha as [Ha _].
    rewrite Forall_forall in Hids. now apply Hids.
Qed.

Lemma fallback_signature (s : App.State) :
  App.isDrawingMode s = false ->
  App.activeAnnotationId s = None ->
  App.visibleAnnotationIdsString s
  = JS.join "," (JS.sort_strings (map id (spec_gathered s))).
Proof.
  intros Hmode Hactive. unfold App.visibleAnnotationIdsString.
  rewrite Hmode, Hactive. reflexivity.
Qed.

(** C5.  With drawing mode off and no annotation selected, and with
    annotation ids that are distinct, non-empty and comma-free, the
    gathered annotations are exactly those of the list that have a drawing
    payload and whose range contains the current time within 0.1 s; the
    resolver returns null when none is gathered, the payload of the only
    one as stored when one is gathered, and otherwise a document whose
    objects are the gathered annotations' objects concatenated in list
    order. *)
Theorem resolver_without_selection (s : App.State) :
  App.isDrawingMode s = false ->
  App.activeAnnotationId s = None ->
  ids_well_formed (App.annotations s) ->
  (forall a, In a (spec_gathered s) <->
             In a (App.annotations s) /\ gathered_at (App.currentTime s) a) /\
  match spec_gathered s with
  | [] => App.activeDrawing s = None
  | [only] =>
      App.activeDrawing s = drawingData only /\ drawingData only <> None
  | many =>
      exists doc,
        App.activeDrawing s = Some doc /\
        objects doc = List.concat (map (fun a => match drawingData a with
                                            | Some d => objects d
                                            | None => []
                                            end) many)
  end.
Proof.
  intros Hmode Hactive Hids. split.
  - intros a. unfold spec_gathered. rewrite filter_In, gathered_atb_spec.
    reflexivity.
  - unfold App.activeDrawing, App.activeDrawing_memo.
    rewrite (fallback_signature s Hmode Hactive).
    destruct (spec_gathered s) as [| a1 rest] eqn:Eg; [reflexivity |].
    assert (Hne : spec_gathered s <> []) by (rewrite Eg; discriminate).
    unfold spec_gathered in Eg, Hne. rewrite <- Eg.
    rewrite (signature_truthy _ _ Hids Hne). cbn [negb].
    rewrite (visibleAnns_of_signature _ _ Hids Hne), Eg.
    destruct rest as [| a2 rest].
    + split; [reflexivity |].
      assert (Hin : In a1 (filter (gathered_atb (App.currentTime s))
                                  (App.annotations s)))
        by (rewrite Eg; now left).
      apply filter_In in Hin as [_ Hin].
      apply gathered_atb_spec in Hin. apply Hin.
    + eexists. split; [reflexivity |]. cbn [objects].
      unfold App.combinedObjects. apply flat_map_concat_map.
Qed.

Lemma demo_ids_well_formed :
  ids_well_formed
    [demo_drawing "a1" 5 8 "4.6.0" [JStr "path-1"];
     demo_drawing "b2" 6 9 "6.0.2" [JStr "path-2"; JStr "path-3"]].
Proof.
  split.
  - repeat constructor; cbn; intuition discriminate.
  - repeat constructor; discriminate.
Qed.

(** The specification's merge example: two drawings covering 6.5 s. *)
Lemma resolver_without_selection_witness :
  let anns := [demo_drawing "a1" 5 8 "4.6.0" [JStr "path-1"];
               demo_drawing "b2" 6 9 "6.0.2" [JStr "path-2"; JStr "path-3"]] in
  exists doc,
    App.activeDrawing (demo_state anns 6.5) = Some doc /\
    objects doc = [JStr "path-1"; JStr "path-2"; JStr "path-3"].
Proof.
  intros anns.
  destruct (resolver_without_selection (demo_state anns 6.5)
              eq_refl eq_refl demo_ids_well_formed) as [_ H].
  exact H.
Defined.

(** C10.  Whenever the resolver reaches its merge of two or more visible
    annotations, the document it returns has version ["5.3.0"] whatever
    the versions of the stored documents; with exactly one visible
    annotation it returns that annotation's stored document. *)
Theorem merged_document_version (s : App.State) :
  let sig := App.visibleAnnotationIdsString s in
  let shown := App.visibleAnns sig (App.annotations s) in
  JS.truthy sig = true ->
  ((2 <= List.length shown)%nat ->
   App.activeDrawing s
   = Some (mkDrawingPath "5.3.0" (App.combinedObjects shown))) /\
  (forall only, shown = [only] -> App.activeDrawing s = drawingData only).
Proof.
  intros sig shown Hsig.
  unfold App.activeDrawing, App.activeDrawing_memo.
  fold sig. rewrite Hsig. cbn [negb]. fold shown. split.
  - intros Hlen.
    destruct shown as [| a1 [| a2 rest]]; cbn [List.length] in Hlen;
      [lia | lia | reflexivity].
  - intros only Hone. now rewrite Hone.
Qed.

(** Two visible drawings stored with versions 4.6.0 and 6.0.2. *)
Lemma merged_document_version_witness :
  let anns := [demo_drawing "a1" 5 8 "4.6.0" [JStr "path-1"];
               demo_drawing "b2" 6 9 "6.0.2" [JStr "path-2"; JStr "path-3"]] in
  option_map version (App.activeDrawing (demo_state anns 6.5))
  = Some "5.3.0"%string.
Proof.
  intros anns.
  destruct (merged_document_version (demo_state anns 6.5) eq_refl)
    as [Hmerge _].
  rewrite Hmerge; [reflexivity | cbn; lia].
Defined.

(** Why the ids must be comma-free: the signature of a single visible
    drawing whose id is ["a,b"] splits into two ids that name nothing. *)
Remark signature_needs_comma_free_ids :
  let anns := [demo_drawing "a,b" 5 8 "4.6.0" [JStr "path-1"]] in
  spec_gathered (demo_state anns 6.5) = anns /\
  App.activeDrawing (demo_state anns 6.5) = None.
Proof. split; reflexivity. Qed.

(** ** Failed requests *)

Lemma fetch_ok_failed {A} (r : Api.FetchResult A) (msg : string) :
  Api.failed r = true ->
  exists reason, Api.fetch_ok r msg = ([], Eff.Throws reason).
Proof.
  destruct r; intros H; try discriminate H; eexists; reflexivity.
Qed.

Lemma getAnnotations_failed (r : Api.FetchResult (list Annotation)) :
  Api.failed r = true ->
  Api.getAnnotations r
  = ([Eff.console_error "Error fetching annotations:"], Eff.Returns []).
Proof. destruct r; intros H; try discriminate H; reflexivity. Qed.

Lemma getUser_failed (r : Api.FetchResult User) :
  Api.failed r = true ->
  snd (Api.getUser r) = Eff.Returns None /\
  Eff.alerted (fst (Api.getUser r)) = false.
Proof.
  destruct r as [| status |]; intros H; try discriminate H.
  - split; reflexivity.
  - unfold Api.getUser. destruct (status =? 404)%Z; split; reflexivity.
Qed.

Lemma videoLoaded_videoId (s : App.State) :
  App.videoLoaded s = true ->
  exists v, App.videoId s = Some v /\ JS.truthy v = true.
Proof.
  unfold App.videoLoaded. destruct (App.videoId s) as [v |]; [| discriminate].
  intros H. now exists v.
Qed.

Lemma signedIn_videoLoaded (s : App.State) :
  App.signedIn s = true -> App.videoLoaded s = true.
Proof.
  unfold App.signedIn, App.videoLoaded.
  destruct (App.videoId s) as [v |]; [| discriminate].
  destruct (App.currentUser s); [trivial | discriminate].
Qed.

Lemma loadAnnotations_failed (r : Api.FetchResult (list Annotation))
      (s : App.State) :
  Api.failed r = true -> App.videoLoaded s = true ->
  App.loadAnnotations r s
  = (App.setAnnotations [] s,
     [Eff.console_error "Error fetching annotations:"]).
Proof.
  intros Hr Hin. destruct (videoLoaded_videoId s Hin) as (v & Hv & Ht).
  unfold App.loadAnnotations.
  now rewrite Hv, Ht, (getAnnotations_failed r Hr).
Qed.

(** C6 as stated fails: on a failed annotation fetch at video load the
    only effect is a console message, and the annotation list is emptied. *)
Lemma failed_annotation_fetch_is_not_alerted :
  let s := demo_state [demo_drawing "a1" 5 8 "4.6.0" [JStr "path-1"]] 0 in
  Api.failed (@Api.Rejected (list Annotation)) = true /\
  snd (App.loadAnnotations Api.Rejected s)
  = [Eff.console_error "Error fetching annotations:"] /\
  Eff.alerted (snd (App.loadAnnotations Api.Rejected s)) = false /\
  App.annotations (fst (App.loadAnnotations Api.Rejected s)) = [].
Proof. intros s. repeat split. Qed.

(** C6, as the code has it.  A failed create-user, save-annotation, export
    or import request ends in an alert that names the failure (and a failed
    save leaves the state as it was); a failed annotation fetch at video
    load and a failed user lookup at start-up end without any alert: the
    fetch is logged to the console and the annotation list becomes empty;
    the lookup opens onboarding, and is logged to the console unless the
    server answered 404 (no such user), which is not logged at all. *)
Theorem api_failures_surfaced (s : App.State) :
  (forall r, Api.failed r = true ->
     In (Eff.alert "Failed to create user. Please make sure the server is running.")
        (snd (App.handleUserCreate r s))) /\
  (forall canvasJSON r, Api.failed r = true -> App.signedIn s = true ->
     In (Eff.alert "Failed to save annotation. Please make sure the server is running.")
        (snd (App.handleAddComment canvasJSON r s)) /\
     fst (App.handleAddComment canvasJSON r s) = s) /\
  (forall r, Api.failed r = true -> App.videoLoaded s = true ->
     In (Eff.alert "Failed to export annotations.")
        (snd (App.handleExport r s))) /\
  (forall data userConfirms rImport rReload,
     Api.failed rImport = true -> App.signedIn s = true ->
     App.videoId s = Some (Api.videoHash data) \/ userConfirms = true ->
     In (Eff.alert "Failed to import annotations. Make sure the file is valid JSON.")
        (snd (App.handleImportFile (Some (Some data)) userConfirms
                                   rImport rReload s))) /\
  (forall r, Api.failed r = true -> App.videoLoaded s = true ->
     snd (App.loadAnnotations r s)
     = [Eff.console_error "Error fetching annotations:"] /\
     Eff.alerted (snd (App.loadAnnotations r s)) = false /\
     App.annotations (fst (App.loadAnnotations r s)) = []) /\
  (forall storedUser r, Api.failed r = true ->
     Eff.alerted (snd (App.initUser (Some storedUser) r s)) = false /\
     App.showOnboarding (fst (App.initUser (Some storedUser) r s)) = true /\
     (r <> Api.NotOk 404 ->
      snd (App.initUser (Some storedUser) r s)
      = [Eff.console_error "Error fetching user:"]) /\
     (r = Api.NotOk 404 ->
      snd (App.initUser (Some storedUser) r s) = [])).
Proof.
  split; [| split; [| split; [| split; [| split]]]].
  - intros r Hr. unfold App.handleUserCreate, Api.createUser.
    destruct (fetch_ok_failed r "Failed to create user" Hr) as [reason E].
    rewrite E. cbn. auto.
  - intros canvasJSON r Hr Hin.
    unfold App.handleAddComment, Api.saveAnnotation.
    rewrite Hin. cbn [negb].
    destruct (fetch_ok_failed r "Failed to save annotation" Hr)
      as [reason E].
    rewrite E.
    destruct (App.selectionRange s), canvasJSON; cbn; auto.
  - intros r Hr Hin. destruct (videoLoaded_videoId s Hin) as (v & Hv & Ht).
    unfold App.handleExport, Api.exportAnnotations. rewrite Hv, Ht.
    destruct (fetch_ok_failed r "Failed to export annotations" Hr)
      as [reason E].
    rewrite E. cbn. auto.
  - intros data userConfirms rImport rReload Hr Hin Hgo.
    destruct (videoLoaded_videoId s (signedIn_videoLoaded s Hin))
      as (v & Hv & Ht).
    unfold App.handleImportFile, Api.importAnnotations.
    rewrite Hv, Hin. cbn [negb].
    assert (Hproceed :
              negb (String.eqb (Api.videoHash data) v) && negb userConfirms
              = false).
    { destruct Hgo as [Hsame | ->]; [| apply andb_false_r].
      rewrite Hv in Hsame. injection Hsame as ->.
      now rewrite String.eqb_refl. }
    rewrite Hproceed.
    destruct (fetch_ok_failed rImport "Failed to import annotations" Hr)
      as [reason E].
    rewrite E.
    destruct (negb (String.eqb (Api.videoHash data) v)); cbn; auto.
  - intros r Hr Hin. rewrite (loadAnnotations_failed r s Hr Hin).
    repeat split.
  - intros storedUser r Hr. unfold App.initUser.
    destruct r as [| status | body]; try discriminate Hr.
    + split; [reflexivity |]. split; [reflexivity |].
      split; [intros _; reflexivity | discriminate].
    + unfold Api.getUser.
      destruct (Z.eqb_spec status 404) as [-> | Hstatus];
        (split; [reflexivity |]); (split; [reflexivity |]);
        split; intros H; first [reflexivity | congruence].
Qed.

(** A server that answers 500 to every request, and one that answers 404
    to the user lookup. *)
Lemma api_failures_surfaced_witness :
  let s := demo_state [demo_drawing "a1" 5 8 "4.6.0" [JStr "path-1"]] 0 in
  In (Eff.alert "Failed to save annotation. Please make sure the server is running.")
     (snd (App.handleAddComment None (Api.NotOk 500) s)) /\
  Eff.alerted (snd (App.loadAnnotations (Api.NotOk 500) s)) = false /\
  App.annotations (fst (App.loadAnnotations (Api.NotOk 500) s)) = [] /\
  snd (App.initUser (Some demo_user) (Api.NotOk 500) s)
  = [Eff.console_error "Error fetching user:"] /\
  snd (App.initUser (Some demo_user) (Api.NotOk 404) s) = [].
Proof.
  intros s.
  destruct (api_failures_surfaced s) as (_ & Hsave & _ & _ & Hload & Huser).
  destruct (Hsave None (Api.NotOk 500) eq_refl eq_refl) as [Halert _].
  destruct (Hload (Api.NotOk 500) eq_refl eq_refl) as (_ & Hquiet & Hempty).
  destruct (Huser demo_user (Api.NotOk 500) eq_refl) as (_ & _ & Hlogged & _).
  destruct (Huser demo_user (Api.NotOk 404) eq_refl) as (_ & _ & _ & Hsilent).
  split; [exact Halert |]. split; [exact Hquiet |]. split; [exact Hempty |].
  split; [apply Hlogged; discriminate | apply Hsilent; reflexivity].
Defined.

Close Scope Q_scope.

(** ** Content hashing *)

Lemma byteLength_app (a b : list byte) :
  Hash.byteLength (a ++ b) = (Hash.byteLength a + Hash.byteLength b)%Z.
Proof. unfold Hash.byteLength. rewrite length_app. lia. Qed.

Lemma byteLength_zeros (n : nat) :
  Hash.byteLength (repeat x00 n) = Z.of_nat n.
Proof. unfold Hash.byteLength. now rewrite repeat_length. Qed.

(** Writing a chunk right after the filled prefix of a zeroed buffer. *)
Lemma set_after_prefix (filled chunk : list byte) (n : nat) :
  (List.length chunk <= n)%nat ->
  Hash.set (filled ++ repeat x00 n) chunk (Hash.byteLength filled)
  = Some ((filled ++ chunk) ++ repeat x00 (n - List.length chunk)).
Proof.
  intros Hfit. unfold Hash.set.
  rewrite byteLength_app, byteLength_zeros.
  unfold Hash.byteLength.
  destruct (Z.leb_spec (Z.of_nat (List.length filled)
                        + Z.of_nat (List.length chunk))
                       (Z.of_nat (List.length filled) + Z.of_nat n));
    [| lia].
  f_equal. rewrite Nat2Z.id.
  rewrite firstn_app, Nat.sub_diag, firstn_all, firstn_O, app_nil_r.
  rewrite <- app_assoc. do 2 f_equal.
  rewrite <- Nat2Z.inj_add, Nat2Z.id.
  rewrite skipn_app, skipn_all2 by lia.
  replace (List.length filled + List.length chunk - List.length filled)%nat
    with (List.length chunk) by lia.
  cbn [app]. 
  rewrite <- (firstn_skipn (List.length chunk) (repeat x00 n)) at 1.
  rewrite skipn_app.
  rewrite skipn_all2 by (rewrite length_firstn, repeat_length; lia).
  rewrite length_firstn, repeat_length.
  replace (List.length chunk - Nat.min (List.length chunk) n)%nat
    with 0%nat by lia.
  cbn [app skipn].
  clear. revert n. induction (List.length chunk) as [| k IH]; intros n.
  - now rewrite Nat.sub_0_r.
  - destruct n; [reflexivity |]. cbn [repeat skipn Nat.sub]. apply IH.
Qed.

Lemma copy_chunks_fills (chunks : list (list byte)) :
  forall filled,
    Hash.copy_chunks (filled ++ repeat x00 (Hash.total_length chunks))
                     (Hash.byteLength filled) chunks
    = Some (filled ++ List.concat chunks).
Proof.
  unfold Hash.total_length.
  induction chunks as [| chunk rest IH]; intros filled.
  - cbn [List.concat List.length repeat Hash.copy_chunks]. reflexivity.
  - cbn [List.concat Hash.copy_chunks]. rewrite length_app.
    rewrite set_after_prefix by lia.
    replace (List.length chunk + List.length (List.concat rest)
             - List.length chunk)%nat
      with (List.length (List.concat rest)) by lia.
    rewrite <- byteLength_app, IH. now rewrite <- app_assoc.
Qed.

Lemma fold_left_byteLength (chunks : list (list byte)) (acc : Z) :
  fold_left (fun acc c => (acc + Hash.byteLength c)%Z) chunks acc
  = (acc + Z.of_nat (Hash.total_length chunks))%Z.
Proof.
  unfold Hash.total_length. revert acc.
  induction chunks as [| c rest IH]; intros acc; cbn [fold_left List.concat].
  - cbn [List.length]. lia.
  - rewrite IH, length_app. unfold Hash.byteLength. lia.
Qed.

(** The buffer handed to the digest is the concatenation of the size
    prefix and the three slices. *)
Lemma combined_message_concat (f : Hash.File) :
  Hash.combined_message f
  = Some (Hash.encode_decimal (Hash.size f)
          ++ Hash.slice f 0 (Some Hash.CHUNK_SIZE)
          ++ Hash.slice f (Hash.size f / 2 - Hash.CHUNK_SIZE / 2)
                        (Some (Hash.size f / 2 - Hash.CHUNK_SIZE / 2
                               + Hash.CHUNK_SIZE)%Z)
          ++ Hash.slice f (- Hash.CHUNK_SIZE) None).
Proof.
  unfold Hash.combined_message.
  set (sizeBuffer := Hash.encode_decimal (Hash.size f)).
  set (c1 := Hash.slice f 0 (Some Hash.CHUNK_SIZE)).
  set (c2 := Hash.slice f _ _).
  set (c3 := Hash.slice f _ None).
  cbv zeta. rewrite fold_left_byteLength.
  unfold Hash.new_Uint8Array.
  replace (Z.to_nat (Hash.byteLength sizeBuffer + (0 + Z.of_nat (Hash.total_length [c1; c2; c3]))))
    with (List.length sizeBuffer + Hash.total_length [c1; c2; c3])%nat
    by (unfold Hash.byteLength; lia).
  rewrite repeat_app.
  pose proof (set_after_prefix [] sizeBuffer (List.length sizeBuffer)
                               (le_n _)) as Hset.
  assert (Hlen0 : Hash.byteLength [] = 0%Z) by reflexivity.
  rewrite Hlen0, Nat.sub_diag in Hset. cbn [app repeat] in Hset.
  rewrite app_nil_r in Hset.
  assert (E : Hash.set (repeat x00 (List.length sizeBuffer)
                        ++ repeat x00 (Hash.total_length [c1; c2; c3]))
                       sizeBuffer 0
              = Some (sizeBuffer ++ repeat x00 (Hash.total_length [c1; c2; c3]))).
  { unfold Hash.set in *. rewrite byteLength_app, !byteLength_zeros.
    rewrite byteLength_zeros in Hset.
    destruct (0 + Hash.byteLength sizeBuffer <=? Z.of_nat (List.length sizeBuffer))%Z eqn:E1;
      [| discriminate Hset].
    unfold Hash.byteLength in *.
    destruct (Z.leb_spec (0 + Z.of_nat (List.length sizeBuffer))
                (Z.of_nat (List.length sizeBuffer)
                 + Z.of_nat (Hash.total_length [c1; c2; c3]))); [| lia].
    f_equal. cbn [Z.to_nat firstn app]. f_equal.
    rewrite Z.add_0_l, Nat2Z.id, skipn_app, repeat_length, Nat.sub_diag.
    rewrite skipn_all2 by (rewrite repeat_length; lia). reflexivity. }
  rewrite E, copy_chunks_fills.
  cbn [List.concat]. now rewrite app_nil_r.
Qed.

Lemma relative_nonneg (sz pos : Z) :
  (0 <= pos <= sz)%Z -> Hash.relative sz pos = pos.
Proof.
  intros H. unfold Hash.relative.
  destruct (Z.ltb_spec pos 0); lia.
Qed.

Lemma relative_from_end (sz pos : Z) :
  (- sz <= pos < 0)%Z -> Hash.relative sz pos = (sz + pos)%Z.
Proof.
  intros H. unfold Hash.relative.
  destruct (Z.ltb_spec pos 0); lia.
Qed.

Lemma half_bounds (sz : Z) : (sz - 1 <= 2 * (sz / 2) <= sz)%Z.
Proof.
  pose proof (Z.div_mod sz 2 ltac:(lia)).
  pose proof (Z.mod_pos_bound sz 2 ltac:(lia)). lia.
Qed.

Section Slices.
Variable f : Hash.File.
Hypothesis large : (Hash.CHUNK_SIZE * 3 < Hash.size f)%Z.

Let chunk_is_MiB : Hash.CHUNK_SIZE = 1048576%Z := eq_refl.
Let half_chunk : (Hash.CHUNK_SIZE / 2 = 524288)%Z := eq_refl.

Lemma slice_first : Hash.slice f 0 (Some Hash.CHUNK_SIZE) = firstn Hash.MiB f.
Proof.
  unfold Hash.slice.
  rewrite !relative_nonneg by lia.
  rewrite Z.max_l by lia. rewrite Z.sub_0_r, chunk_is_MiB.
  change (Z.to_nat 0) with 0%nat. rewrite skipn_0.
  unfold Hash.MiB. reflexivity.
Qed.

Lemma slice_middle :
  let midStart := (Hash.size f / 2 - Hash.CHUNK_SIZE / 2)%Z in
  Hash.slice f midStart (Some (midStart + Hash.CHUNK_SIZE)%Z)
  = firstn Hash.MiB (skipn (Z.to_nat (Hash.size f / 2 - Hash.KiB512)) f).
Proof.
  intros midStart. subst midStart. rewrite half_chunk.
  pose proof (half_bounds (Hash.size f)) as Hhalf.
  unfold Hash.slice.
  rewrite !relative_nonneg by lia.
  rewrite Z.max_l by lia.
  replace (Hash.size f / 2 - 524288 + Hash.CHUNK_SIZE
           - (Hash.size f / 2 - 524288))%Z
    with 1048576%Z by lia.
  unfold Hash.MiB, Hash.KiB512. reflexivity.
Qed.

Lemma slice_last :
  Hash.slice f (- Hash.CHUNK_SIZE) None
  = skipn (List.length f - Hash.MiB) f.
Proof.
  unfold Hash.slice.
  rewrite relative_from_end by lia.
  rewrite Z.max_l by lia.
  replace (Z.to_nat (Hash.size f + - Hash.CHUNK_SIZE))
    with (List.length f - Hash.MiB)%nat
    by (unfold Hash.size, Hash.MiB in *; lia).
  apply firstn_all2. rewrite length_skipn.
  unfold Hash.size, Hash.MiB in *. lia.
Qed.

Lemma sample_lengths :
  List.length (firstn Hash.MiB f) = Hash.MiB /\
  List.length (firstn Hash.MiB
                 (skipn (Z.to_nat (Hash.size f / 2 - Hash.KiB512)) f))
  = Hash.MiB /\
  List.length (skipn (List.length f - Hash.MiB) f) = Hash.MiB.
Proof.
  pose proof (half_bounds (Hash.size f)) as Hhalf.
  rewrite !length_firstn, !length_skipn.
  unfold Hash.MiB, Hash.KiB512, Hash.size in *. lia.
Qed.
End Slices.

Lemma hex_of_byte_lowercase (b : byte) :
  exists c1 c2,
    Hash.hex_of_byte b = String c1 (String c2 EmptyString) /\
    Hash.lower_hex c1 = true /\ Hash.lower_hex c2 = true.
Proof.
  destruct b; do 2 eexists; (split; [reflexivity |]); split; reflexivity.
Qed.

(** The hex text has two lowercase hexadecimal characters per byte. *)
Lemma hex_lowercase (digest : list byte) :
  Hash.all_chars Hash.lower_hex (Hash.hex digest) = true /\
  String.length (Hash.hex digest) = (2 * List.length digest)%nat.
Proof.
  unfold Hash.hex.
  induction digest as [| b rest [IH1 IH2]]; [split; reflexivity |].
  cbn [map].
  destruct (hex_of_byte_lowercase b) as (c1 & c2 & E & H1 & H2).
  assert (Hcat : String.concat EmptyString
                   (Hash.hex_of_byte b :: map Hash.hex_of_byte rest)
                 = String c1 (String c2
                     (String.concat EmptyString (map Hash.hex_of_byte rest)))).
  { rewrite E. destruct (map Hash.hex_of_byte rest); reflexivity. }
  rewrite Hcat. cbn [Hash.all_chars String.length List.length].
  rewrite H1, H2, IH1, IH2. split; [reflexivity | lia].
Qed.

Lemma sampled_branch (sha256 : list byte -> list byte) (f : Hash.File) :
  (3 * 1048576 < Hash.size f)%Z ->
  Hash.generateFastFileHash sha256 f
  = Some (Hash.hex (sha256 (Hash.spec_sampled_message f))).
Proof.
  intros Hlarge.
  assert (large : (Hash.CHUNK_SIZE * 3 < Hash.size f)%Z)
    by (unfold Hash.CHUNK_SIZE; lia).
  unfold Hash.generateFastFileHash.
  destruct (Z.leb_spec (Hash.size f) (Hash.CHUNK_SIZE * 3)); [lia |].
  rewrite combined_message_concat.
  rewrite (slice_first f large), (slice_last f large).
  pose proof (slice_middle f large) as Hmid. cbv zeta in Hmid.
  rewrite Hmid. reflexivity.
Qed.

Lemma full_branch (sha256 : list byte -> list byte) (f : Hash.File) :
  (Hash.size f <= 3 * 1048576)%Z ->
  Hash.generateFastFileHash sha256 f = Some (Hash.hex (sha256 f)).
Proof.
  intros Hsmall. unfold Hash.generateFastFileHash, Hash.generateFileHash.
  destruct (Z.leb_spec (Hash.size f) (Hash.CHUNK_SIZE * 3));
    [reflexivity | unfold Hash.CHUNK_SIZE in *; lia].
Qed.

Lemma size_zeros (n : Z) :
  (0 <= n)%Z -> Hash.size (repeat x00 (Z.to_nat n)) = n.
Proof. intros H. unfold Hash.size. rewrite repeat_length. lia. Qed.

(** C3.  For a file of more than 3 MiB, [generateFastFileHash] returns
    the lowercase hex of the digest of one message: the decimal digits of
    the size, the first 1 MiB, the 1 MiB that starts at
    [floor(size/2) - 512 KiB], and the last 1 MiB, in that order; each of
    the three samples is exactly 1 MiB long, and the text is lowercase
    hexadecimal. *)
Theorem sampled_hash_message (sha256 : list byte -> list byte)
        (f : Hash.File) :
  (3 * 1048576 < Hash.size f)%Z ->
  Hash.generateFastFileHash sha256 f
  = Some (Hash.hex (sha256 (Hash.spec_sampled_message f))) /\
  Hash.all_chars Hash.lower_hex
                 (Hash.hex (sha256 (Hash.spec_sampled_message f))) = true /\
  List.length (firstn Hash.MiB f) = Hash.MiB /\
  List.length (firstn Hash.MiB
                 (skipn (Z.to_nat (Hash.size f / 2 - Hash.KiB512)) f))
  = Hash.MiB /\
  List.length (skipn (List.length f - Hash.MiB) f) = Hash.MiB.
Proof.
  intros Hlarge. split; [now apply sampled_branch |].
  split; [apply hex_lowercase |].
  apply sample_lengths. unfold Hash.CHUNK_SIZE. lia.
Qed.

(** A 4 MiB file of zero bytes, with a stand-in digest. *)
Lemma sampled_hash_message_witness :
  let f := repeat x00 (Z.to_nat 4194304) in
  let sha256 (m : list byte) := firstn 32 m in
  (3 * 1048576 < Hash.size f)%Z /\
  Hash.generateFastFileHash sha256 f
  = Some (Hash.hex (sha256 (Hash.spec_sampled_message f))).
Proof.
  intros f sha256.
  assert (H : (3 * 1048576 < Hash.size f)%Z)
    by (unfold f; rewrite size_zeros; lia).
  split; [exact H |].
  exact (proj1 (sampled_hash_message sha256 f H)).
Defined.

(** C4.  [generateFastFileHash] digests the whole content when the size is
    at most 3 MiB and the sampled message when it is larger; a file of
    exactly 3 MiB takes the first branch, one of 3 MiB + 1 byte the
    second. *)
Theorem hash_method_boundary (sha256 : list byte -> list byte)
        (f : Hash.File) :
  ((Hash.size f <= 3 * 1048576)%Z ->
   Hash.generateFastFileHash sha256 f = Some (Hash.hex (sha256 f))) /\
  ((3 * 1048576 < Hash.size f)%Z ->
   Hash.generateFastFileHash sha256 f
   = Some (Hash.hex (sha256 (Hash.spec_sampled_message f)))) /\
  (Hash.size f = (3 * 1048576)%Z ->
   Hash.generateFastFileHash sha256 f = Some (Hash.hex (sha256 f))) /\
  (Hash.size f = (3 * 1048576 + 1)%Z ->
   Hash.generateFastFileHash sha256 f
   = Some (Hash.hex (sha256 (Hash.spec_sampled_message f)))).
Proof.
  repeat split; intros Hsize.
  - now apply full_branch.
  - now apply sampled_branch.
  - apply full_branch. lia.
  - apply sampled_branch. lia.
Qed.

(** Files of exactly 3 MiB and of 3 MiB + 1 byte. *)
Lemma hash_method_boundary_witness :
  let exactly := repeat x00 (Z.to_nat 3145728) in
  let one_more := repeat x00 (Z.to_nat 3145729) in
  let sha256 (m : list byte) := firstn 32 m in
  Hash.generateFastFileHash sha256 exactly
  = Some (Hash.hex (sha256 exactly)) /\
  Hash.generateFastFileHash sha256 one_more
  = Some (Hash.hex (sha256 (Hash.spec_sampled_message one_more))).
Proof.
  intros exactly one_more sha256.
  destruct (hash_method_boundary sha256 exactly) as (_ & _ & Hfull & _).
  destruct (hash_method_boundary sha256 one_more) as (_ & _ & _ & Hsampled).
  split.
  - exact (Hfull (size_zeros 3145728 ltac:(lia))).
  - exact (Hsampled (size_zeros 3145729 ltac:(lia))).
Defined.

(** ** Local storage *)

Lemma filter_other_video (v w : string) (all : list Annotation) :
  w <> v ->
  filter (fun a => String.eqb (videoId a) w)
         (filter (fun a => negb (String.eqb (videoId a) v)) all)
  = filter (fun a => String.eqb (videoId a) w) all.
Proof.
  intros Hwv. induction all as [| a all IH]; [reflexivity |].
  cbn [filter].
  destruct (String.eqb_spec (videoId a) v) as [Hv | Hv]; cbn [negb].
  - destruct (String.eqb_spec (videoId a) w) as [Hw | Hw];
      [congruence | exact IH].
  - cbn [filter]. destruct (String.eqb (videoId a) w); [f_equal |]; exact IH.
Qed.

Lemma filter_same_video (v : string) (all : list Annotation) :
  filter (fun a => String.eqb (videoId a) v)
         (filter (fun a => negb (String.eqb (videoId a) v)) all) = [].
Proof.
  induction all as [| a all IH]; [reflexivity |].
  cbn [filter]. destruct (String.eqb (videoId a) v) eqn:E; cbn [negb];
    [exact IH |].
  cbn [filter]. now rewrite E.
Qed.

(** C9.  After [clearAnnotations v] no stored annotation has video id [v];
    the stored collection is the previous one with exactly those removed
    (the others in their order, each as it was), so an annotation of
    another video is stored afterwards iff it was before; reading video
    [v] gives nothing and reading any other video gives what it gave
    before. *)
Theorem clearAnnotations_frame (ls : Storage.localStorage) (v : string) :
  let ls' := Storage.clearAnnotations ls v in
  (forall a, In a (Storage.stored ls') -> videoId a <> v) /\
  (forall a, videoId a <> v ->
             (In a (Storage.stored ls') <-> In a (Storage.stored ls))) /\
  Storage.stored ls'
  = filter (fun a => negb (String.eqb (videoId a) v)) (Storage.stored ls) /\
  Storage.getAnnotations ls' v = [] /\
  (forall w, w <> v ->
             Storage.getAnnotations ls' w = Storage.getAnnotations ls w).
Proof.
  intros ls'.
  assert (Hstored : Storage.stored ls'
                    = filter (fun a => negb (String.eqb (videoId a) v))
                             (Storage.stored ls))
    by (destruct ls; reflexivity).
  split; [| split; [| split; [exact Hstored | split]]].
  - intros a Ha. rewrite Hstored in Ha. apply filter_In in Ha as [_ Ha].
    destruct (String.eqb_spec (videoId a) v); [discriminate | assumption].
  - intros a Hne. rewrite Hstored, filter_In.
    destruct (String.eqb_spec (videoId a) v); [contradiction |].
    cbn [negb]. tauto.
  - subst ls'. destruct ls as [all |]; [| reflexivity].
    cbn [Storage.clearAnnotations Storage.getAnnotations].
    now rewrite filter_same_video.
  - intros w Hw. subst ls'. destruct ls as [all |]; [| reflexivity].
    cbn [Storage.clearAnnotations Storage.getAnnotations].
    now rewrite filter_other_video.
Qed.

(** ** Worked examples *)

Open Scope Q_scope.

Example getTimeFromEvent_example :
  Timeline.getTimeFromEvent (Timeline.mkProps 120 0 None) Timeline.initial
                            (demo_pointer 100) == 10.
Proof. reflexivity. Qed.

(** Zoomed to level 4 around 35 s the track shows [[20, 50]]; its middle
    is 35 s. *)
Example getTimeFromEvent_zoomed_example :
  Timeline.getTimeFromEvent
    (Timeline.mkProps 120 0 None)
    (Timeline.mkState Timeline.none None None None 4 35)
    (demo_pointer 600) == 35.
Proof. reflexivity. Qed.

Example zoom_steps_example :
  let p := Timeline.mkProps 120 40 None in
  let t1 := Timeline.handleZoomIn p Timeline.initial in
  let t2 := Timeline.handleZoomIn p t1 in
  Timeline.zoomLevel t1 = 2 /\ Timeline.zoomLevel t2 = 4 /\
  Timeline.zoomCenter t2 = 40 /\
  Timeline.zoomLevel (Timeline.handleZoomOut p t1) = 1 /\
  Timeline.handleZoomOut p Timeline.initial = Timeline.initial.
Proof. repeat split. Qed.

Example split_join_example :
  JS.join "," ["b2"; "a1"; "c3"]%string = "b2,a1,c3"%string /\
  JS.split "," "b2,a1,c3" = ["b2"; "a1"; "c3"]%string /\
  JS.split "," "a,,b" = ["a"; EmptyString; "b"]%string /\
  JS.split "," EmptyString = [EmptyString] /\
  JS.sort_strings ["b2"; "a1"; "c3"; "B0"]%string
  = ["B0"; "a1"; "b2"; "c3"]%string.
Proof. repeat split. Qed.

(** One drawing over [[5, 8]], time 6.5 s: its payload as stored. *)
Example resolver_single_match_example :
  App.activeDrawing
    (demo_state [demo_drawing "a1" 5 8 "4.6.0" [JStr "path-1"]] 6.5)
  = Some (mkDrawingPath "4.6.0" [JStr "path-1"]).
Proof. reflexivity. Qed.

(** The tolerance: shown up to 0.1 s after the end, not later. *)
Example resolver_tolerance_example :
  let anns := [demo_drawing "a1" 5 8 "4.6.0" [JStr "path-1"]] in
  App.activeDrawing (demo_state anns 8.1)
  = Some (mkDrawingPath "4.6.0" [JStr "path-1"]) /\
  App.activeDrawing (demo_state anns 8.11) = None.
Proof. split; reflexivity. Qed.

(** Drawing mode reserves the canvas: nothing is resolved. *)
Lemma resolver_drawing_mode (s : App.State) :
  App.isDrawingMode s = true -> App.activeDrawing s = None.
Proof.
  intros Hmode. unfold App.activeDrawing, App.visibleAnnotationIdsString.
  now rewrite Hmode.
Qed.

(** An explicit selection wins over the other visible drawings. *)
Example resolver_selection_example :
  let anns := [demo_drawing "a1" 5 8 "4.6.0" [JStr "path-1"];
               demo_drawing "b2" 6 9 "6.0.2" [JStr "path-2"]] in
  let selected time :=
    App.setActiveAnnotationId (Some "b2"%string) (demo_state anns time) in
  App.activeDrawing (selected 6.5)
  = Some (mkDrawingPath "6.0.2" [JStr "path-2"]) /\
  App.activeDrawing (selected 5.5) = None.
Proof. split; reflexivity. Qed.

Example handleAddComment_example :
  let s := App.setSelectionRange (Some (mkRange 30 45)) (demo_state [] 40) in
  let saved := mkAnnotation "n1" "video" 30 45 demo_user "look here" 0
                            comment None [] in
  let s' := fst (App.handleAddComment None (Api.Ok saved) s) in
  App.annotations s' = [saved] /\
  App.activeAnnotationId s' = Some "n1"%string /\
  App.selectionRange s' = Some (mkRange 30 45) /\
  snd (App.handleAddComment None (Api.Ok saved) s)
  = [Eff.seekTo 30; Eff.clearCanvas].
Proof. repeat split. Qed.

Example clearAnnotations_example :
  let a v i := mkAnnotation i v 1 2 demo_user "note" 0 comment None [] in
  let ls := Some [a "v1" "x"; a "v2" "y"; a "v1" "z"]%string in
  Storage.clearAnnotations ls "v1" = Some [a "v2" "y"]%string /\
  Storage.getAnnotations (Storage.clearAnnotations ls "v1") "v1" = [] /\
  Storage.clearAnnotations None "v1" = None.
Proof. repeat split. Qed.

Close Scope Q_scope.

Example slice_example :
  let f := [x01; x02; x03; x04; x05] in
  Hash.slice f 0 (Some 2%Z) = [x01; x02] /\
  Hash.slice f 1 (Some 3%Z) = [x02; x03] /\
  Hash.slice f (-2) None = [x04; x05] /\
  Hash.slice f 3 (Some 99%Z) = [x04; x05] /\
  Hash.slice f 4 (Some 2%Z) = [].
Proof. repeat split. Qed.

Example encode_decimal_example :
  Hash.encode_decimal 3145729 = [x33; x31; x34; x35; x37; x32; x39].
Proof. reflexivity. Qed.

(** A three-byte file is digested whole; with the identity as a stand-in
    digest the result is the hex of the content. *)
Example generateFastFileHash_small_example :
  Hash.generateFastFileHash (fun m => m) [x00; xff; x1a]
  = Some "00ff1a"%string.
Proof. reflexivity. Qed.

(** The copy loop on a file far smaller than a chunk (a case the size
    guard keeps away from it): every slice is the whole file. *)
Example combined_message_example :
  Hash.combined_message [x0a; x0b; x0c]
  = Some [x33; x0a; x0b; x0c; x0a; x0b; x0c; x0a; x0b; x0c].
Proof. vm_compute. reflexivity. Qed.

(** * Further properties of the code *)

Open Scope Q_scope.

Lemma Qdiv_unit (a b : Q) :
  0 < b -> 0 <= a -> a <= b -> 0 <= a / b /\ a / b <= 1.
Proof.
  intros Hb Ha Hab. split.
  - apply Qle_shift_div_l; lra.
  - apply Qle_shift_div_r; lra.
Qed.

Lemma Qeq_bool_false (x y : Q) : ~ x == y -> Qeq_bool x y = false.
Proof.
  intros H. destruct (Qeq_bool x y) eqn:E; trivial.
  apply Qeq_bool_iff in E. contradiction.
Qed.

(** The time under the pointer, before the final clamp, is already a time
    of the video. *)
Lemma pointer_time_unclamped (p : Timeline.TimelineProps)
      (s : Timeline.State) (e : Timeline.MouseEvent) (rect : Timeline.DOMRect) :
  0 < Timeline.duration p ->
  1 <= Timeline.zoomLevel s ->
  Timeline.trackRect e = Some rect ->
  0 < Timeline.width rect ->
  let x := Qmax 0 (Qmin (Timeline.clientX e - Timeline.left rect)
                        (Timeline.width rect)) in
  Timeline.getTimeFromEvent p s e
  == Timeline.actualViewStart p s
     + (x / Timeline.width rect) * Timeline.visibleDuration p s.
Proof.
  intros Hd Hz Hrect Hw x.
  unfold Timeline.getTimeFromEvent. rewrite Hrect.
  rewrite Qeq_bool_false by lra. cbv zeta. fold x.
  assert (Hx : 0 <= x /\ x <= Timeline.width rect)
    by (unfold x; split_minmax; lra).
  destruct (Qdiv_unit x (Timeline.width rect) Hw (proj1 Hx) (proj2 Hx))
    as [Hr0 Hr1].
  destruct (zoom_window_bounds p s (Qlt_le_weak _ _ Hd) Hz) as (Ha & _ & Hb).
  destruct (visibleDuration_bounds p s (Qlt_le_weak _ _ Hd) Hz) as [Hv0 Hv1].
  unfold Timeline.actualViewEnd in Hb.
  set (r := x / Timeline.width rect) in *.
  set (vd := Timeline.visibleDuration p s) in *.
  set (a := Timeline.actualViewStart p s) in *.
  assert (Hprod : 0 <= r * vd /\ r * vd <= vd) by (split; nra).
  split_minmax; lra.
Qed.

(** X1.  On a track of positive width, the time that [getTimeFromEvent]
    reads under the pointer lies in the visible window, at every zoom
    level and wherever the pointer is (also beside the track): a click
    never seeks to a time that is not shown. *)
Theorem pointer_time_in_window (p : Timeline.TimelineProps)
        (s : Timeline.State) (e : Timeline.MouseEvent)
        (rect : Timeline.DOMRect) :
  0 <= Timeline.duration p ->
  In (Timeline.zoomLevel s) Timeline.ZOOM_LEVELS ->
  Timeline.trackRect e = Some rect ->
  0 < Timeline.width rect ->
  Timeline.actualViewStart p s <= Timeline.getTimeFromEvent p s e /\
  Timeline.getTimeFromEvent p s e <= Timeline.actualViewEnd p s.
Proof.
  intros Hd Hz Hrect Hw. apply ZOOM_LEVELS_ge_1 in Hz.
  destruct (zoom_window_bounds p s Hd Hz) as (Ha & Hab & Hb).
  destruct (Qlt_le_dec 0 (Timeline.duration p)) as [Hpos | Hzero].
  - pose proof (pointer_time_unclamped p s e rect Hpos Hz Hrect Hw) as Ht.
    cbv zeta in Ht.
    set (x := Qmax 0 (Qmin (Timeline.clientX e - Timeline.left rect)
                           (Timeline.width rect))) in *.
    assert (Hx : 0 <= x /\ x <= Timeline.width rect)
      by (unfold x; split_minmax; lra).
    destruct (Qdiv_unit x (Timeline.width rect) Hw (proj1 Hx) (proj2 Hx))
      as [Hr0 Hr1].
    destruct (visibleDuration_bounds p s Hd Hz) as [Hv0 _].
    unfold Timeline.actualViewEnd in *.
    set (r := x / Timeline.width rect) in *.
    set (vd := Timeline.visibleDuration p s) in *.
    rewrite Ht. split; nra.
  - assert (E : Timeline.getTimeFromEvent p s e = 0).
    { unfold Timeline.getTimeFromEvent. rewrite Hrect.
      destruct (Qeq_bool (Timeline.duration p) 0) eqn:Ed; [reflexivity |].
      apply Qeq_bool_neq in Ed. exfalso. apply Ed. lra. }
    rewrite E. lra.
Qed.

(** Level 4 centred on 35 s shows [[20, 50]]; a quarter into the track is
    27.5 s. *)
Lemma pointer_time_in_window_witness :
  let p := Timeline.mkProps 120 40 None in
  let s := Timeline.mkState Timeline.none None None None 4 35 in
  Timeline.getTimeFromEvent p s (demo_pointer 300) == 27.5 /\
  Timeline.actualViewStart p s
  <= Timeline.getTimeFromEvent p s (demo_pointer 300) /\
  Timeline.getTimeFromEvent p s (demo_pointer 300)
  <= Timeline.actualViewEnd p s.
Proof.
  intros p s. split; [reflexivity |].
  apply (pointer_time_in_window p s (demo_pointer 300)
           (Timeline.mkRect 0 1200)).
  - vm_compute. discriminate.
  - vm_compute. tauto.
  - reflexivity.
  - reflexivity.
Defined.

(** A window centred on a time of the video contains that time. *)
Lemma centred_window_contains (p : Timeline.TimelineProps)
      (s : Timeline.State) :
  0 <= Timeline.duration p ->
  1 <= Timeline.zoomLevel s ->
  0 <= Timeline.zoomCenter s ->
  Timeline.zoomCenter s <= Timeline.duration p ->
  Timeline.actualViewStart p s <= Timeline.zoomCenter s /\
  Timeline.zoomCenter s <= Timeline.actualViewEnd p s.
Proof.
  intros Hd Hz Hc0 Hc1.
  destruct (visibleDuration_bounds p s Hd Hz) as [Hv0 Hv1].
  pose proof (Qhalf (Timeline.visibleDuration p s)) as Hh.
  unfold Timeline.actualViewEnd.
  destruct (Qlt_le_dec (Timeline.viewStart p s + Timeline.visibleDuration p s)
                       (Timeline.duration p)) as [Hin | Hpast].
  - rewrite (window_not_shifted p s Hin).
    unfold Timeline.viewStart in *. split_minmax; lra.
  - rewrite (window_shifted_left p s Hd Hz Hpast).
    unfold Timeline.viewStart in *. revert Hpast. split_minmax; lra.
Qed.

(** X2.  While zoomed in, once the keep-playhead-visible effect has
    run the playhead lies inside the visible window; the effect leaves the
    zoom level alone, and running it again changes nothing. *)
Theorem playhead_kept_visible (p : Timeline.TimelineProps)
        (s : Timeline.State) :
  0 <= Timeline.currentTime p ->
  Timeline.currentTime p <= Timeline.duration p ->
  In (Timeline.zoomLevel s) Timeline.ZOOM_LEVELS ->
  1 < Timeline.zoomLevel s ->
  let s' := Timeline.keepPlayheadVisible p s in
  Timeline.actualViewStart p s' <= Timeline.currentTime p /\
  Timeline.currentTime p <= Timeline.actualViewEnd p s' /\
  Timeline.zoomLevel s' = Timeline.zoomLevel s /\
  Timeline.keepPlayheadVisible p s' = s'.
Proof.
  intros Hc0 Hc1 Hz Hzoomed s'.
  apply ZOOM_LEVELS_ge_1 in Hz.
  assert (Hd : 0 <= Timeline.duration p) by lra.
  assert (Hrecentred :
            forall t, Timeline.zoomLevel t = Timeline.zoomLevel s ->
                      Timeline.zoomCenter t = Timeline.currentTime p ->
                      Timeline.actualViewStart p t <= Timeline.currentTime p /\
                      Timeline.currentTime p <= Timeline.actualViewEnd p t).
  { intros t Hl Hc.
    destruct (centred_window_contains p t Hd) as [H1 H2];
      rewrite ?Hl, ?Hc; trivial. rewrite Hc in H1, H2. now split. }
  assert (Hin : Timeline.actualViewStart p s' <= Timeline.currentTime p /\
                Timeline.currentTime p <= Timeline.actualViewEnd p s' /\
                Timeline.zoomLevel s' = Timeline.zoomLevel s).
  { subst s'. unfold Timeline.keepPlayheadVisible.
    destruct (Qlt_le_dec 1 (Timeline.zoomLevel s)) as [_ | Hno]; [| lra].
    destruct (Qlt_le_dec (Timeline.currentTime p)
                         (Timeline.actualViewStart p s)) as [Hl | Hl].
    - destruct (Hrecentred (Timeline.set_zoom s (Timeline.zoomLevel s)
                                              (Timeline.currentTime p))
                           eq_refl eq_refl); auto.
    - destruct (Qlt_le_dec (Timeline.actualViewEnd p s)
                           (Timeline.currentTime p)) as [Hr | Hr].
      + destruct (Hrecentred (Timeline.set_zoom s (Timeline.zoomLevel s)
                                                (Timeline.currentTime p))
                             eq_refl eq_refl); auto.
      + auto. }
  destruct Hin as (H1 & H2 & H3).
  repeat split; trivial.
  unfold Timeline.keepPlayheadVisible at 1. rewrite H3.
  destruct (Qlt_le_dec 1 (Timeline.zoomLevel s)) as [_ | Hno]; [| lra].
  destruct (Qlt_le_dec (Timeline.currentTime p)
                       (Timeline.actualViewStart p s')); [lra |].
  destruct (Qlt_le_dec (Timeline.actualViewEnd p s')
                       (Timeline.currentTime p)); [lra | reflexivity].
Qed.

Lemma playhead_kept_visible_witness :
  let p := Timeline.mkProps 120 100 None in
  let s := Timeline.mkState Timeline.none None None None 4 35 in
  let s' := Timeline.keepPlayheadVisible p s in
  Timeline.zoomCenter s' = 100 /\
  Timeline.actualViewStart p s' <= 100 /\
  100 <= Timeline.actualViewEnd p s'.
Proof.
  intros p s s'. split; [reflexivity |].
  destruct (playhead_kept_visible p s) as (H1 & H2 & _).
  - vm_compute. discriminate.
  - vm_compute. discriminate.
  - vm_compute. tauto.
  - reflexivity.
  - split; [exact H1 | exact H2].
Defined.

(** X5.  At zoom level 1 the visible window is the whole video,
    from 0 to [duration], wherever the zoom centre is; in particular after
    [handleResetZoom]. *)
Theorem unzoomed_window_is_whole_video (p : Timeline.TimelineProps)
        (s : Timeline.State) :
  0 <= Timeline.duration p ->
  Timeline.zoomLevel s == 1 ->
  Timeline.actualViewStart p s == 0 /\
  Timeline.actualViewEnd p s == Timeline.duration p /\
  Timeline.actualViewStart p (Timeline.handleResetZoom p s) == 0 /\
  Timeline.actualViewEnd p (Timeline.handleResetZoom p s)
  == Timeline.duration p.
Proof.
  intros Hd Hz.
  assert (Hwhole : forall t, Timeline.zoomLevel t == 1 ->
                     Timeline.actualViewStart p t == 0 /\
                     Timeline.actualViewEnd p t == Timeline.duration p).
  { intros t Ht.
    assert (Hvd : Timeline.visibleDuration p t == Timeline.duration p).
    { unfold Timeline.visibleDuration. rewrite Ht. field. }
    assert (Hge : 1 <= Timeline.zoomLevel t) by lra.
    pose proof (viewStart_nonneg p t) as Hv.
    assert (Hpast : Timeline.duration p
                    <= Timeline.viewStart p t + Timeline.visibleDuration p t)
      by lra.
    pose proof (window_shifted_left p t Hd Hge Hpast) as Hs.
    unfold Timeline.actualViewEnd. lra. }
  destruct (Hwhole s Hz) as [H1 H2].
  destruct (Hwhole (Timeline.handleResetZoom p s)) as [H3 H4];
    [reflexivity |].
  repeat split; assumption.
Qed.

Lemma unzoomed_window_is_whole_video_witness :
  let p := Timeline.mkProps 120 100 None in
  let s := Timeline.mkState Timeline.none None None None 8 100 in
  Timeline.actualViewStart p (Timeline.handleResetZoom p s) == 0 /\
  Timeline.actualViewEnd p (Timeline.handleResetZoom p s) == 120.
Proof.
  intros p s.
  destruct (unzoomed_window_is_whole_video p (Timeline.handleResetZoom p s))
    as (H1 & H2 & _).
  - vm_compute. discriminate.
  - reflexivity.
  - split; [exact H1 | exact H2].
Defined.

(** X6.  A pointer-move depends on the pointer position only: the
    same move event handled twice leaves the Timeline state as after the
    first time, in every drag mode (the margin and the clamp of a handle
    drag do not creep). *)
Theorem pointer_move_idempotent (p : Timeline.TimelineProps)
        (s : Timeline.State) (e : Timeline.MouseEvent) :
  Timeline.handleGlobalMouseMove p (Timeline.handleGlobalMouseMove p s e) e
  = Timeline.handleGlobalMouseMove p s e.
Proof.
  unfold Timeline.handleGlobalMouseMove at 2 3.
  destruct (Timeline.dragMode s) eqn:Em, (Timeline.tempRange s) eqn:Et;
    unfold Timeline.handleGlobalMouseMove;
    cbn [Timeline.dragMode Timeline.tempRange Timeline.set_hover
         Timeline.set_tempRange];
    rewrite ?Em, ?Et; reflexivity.
Qed.

(** ** Zoom along a run *)

Lemma dispatch_keeps_duration (calls : list Timeline.Callback) :
  forall s log,
    App.duration (fst (fold_left App.dispatch calls (s, log)))
    = App.duration s.
Proof.
  induction calls as [| c calls IH]; intros s log; [reflexivity |].
  cbn [fold_left]. destruct c as [time | [r |]]; cbn [App.dispatch App.handleSeek];
    rewrite IH; reflexivity.
Qed.

Lemma editor_step_keeps_zoom (st : App.State * Timeline.State)
      (ev : App.Event) :
  In (Timeline.zoomLevel (snd st)) Timeline.ZOOM_LEVELS ->
  In (Timeline.zoomLevel (snd (fst (App.step st ev)))) Timeline.ZOOM_LEVELS /\
  App.duration (fst (fst (App.step st ev))) = App.duration (fst st).
Proof.
  destruct st as [s t]. cbn [fst snd]. intros Hz.
  destruct ev as [tev | ann | time]; cbn [App.step].
  - unfold App.timelineEvent.
    pose proof (step_keeps_zoom_level (App.timelineProps s) t tev Hz) as Hz'.
    destruct (Timeline.step (App.timelineProps s) t tev) as [t' calls].
    pose proof (dispatch_keeps_duration calls s []) as Hd.
    destruct (fold_left App.dispatch calls (s, [])) as [s' log].
    cbn [fst snd] in *. now split.
  - cbn [fst snd]. split; [exact Hz |].
    unfold App.handleAnnotationSelect. cbn [fst].
    destruct (App.isDrawingMode s); reflexivity.
  - cbn [fst snd]. now split.
Qed.

(** X3.  Along every run of Timeline events (zoom buttons, wheel,
    pointer events, the playhead effect), sidebar selections and time
    updates, started from the Timeline's initial state, the zoom level is
    one of [ZOOM_LEVELS] and the visible window stays inside
    [0, duration]. *)
Theorem zoom_invariant_along_runs (s : App.State) (evs : list App.Event) :
  0 <= App.duration s ->
  let final := fst (App.run (s, Timeline.initial) evs) in
  let p := App.timelineProps (fst final) in
  let t := snd final in
  In (Timeline.zoomLevel t) Timeline.ZOOM_LEVELS /\
  0 <= Timeline.actualViewStart p t /\
  Timeline.actualViewStart p t <= Timeline.actualViewEnd p t /\
  Timeline.actualViewEnd p t <= App.duration s.
Proof.
  intros Hd.
  assert (Hgen : forall evs st,
             In (Timeline.zoomLevel (snd st)) Timeline.ZOOM_LEVELS ->
             In (Timeline.zoomLevel (snd (fst (App.run st evs))))
                Timeline.ZOOM_LEVELS /\
             App.duration (fst (fst (App.run st evs)))
             = App.duration (fst st)).
  { clear. induction evs as [| ev evs IH]; intros st Hz.
    - now split.
    - cbn [App.run].
      destruct (editor_step_keeps_zoom st ev Hz) as [Hz' Hd'].
      destruct (App.step st ev) as [[s' t'] out]. cbn [fst snd] in *.
      destruct (IH (s', t') Hz') as [Hz'' Hd''].
      destruct (App.run (s', t') evs) as [st'' outs]. cbn [fst snd] in *.
      split; [exact Hz'' | congruence]. }
  destruct (Hgen evs (s, Timeline.initial)) as [Hz Hdur];
    [cbn; tauto |].
  cbn [fst snd] in Hdur. intros final p t. fold final in Hz, Hdur.
  split; [exact Hz |].
  assert (Hp : Timeline.duration p = App.duration s) by exact Hdur.
  rewrite <- Hp. apply zoom_window_bounds.
  - rewrite Hp. exact Hd.
  - now apply ZOOM_LEVELS_ge_1.
Qed.

Lemma zoom_invariant_along_runs_witness :
  let evs := [App.TimelineEvent Timeline.ZoomInClick;
              App.TimelineEvent Timeline.ZoomInClick;
              App.TimeUpdate 118;
              App.TimelineEvent Timeline.PlayheadEffect;
              App.TimelineEvent (Timeline.MouseDown (demo_pointer 1200))] in
  let final := fst (App.run (demo_state [] 0, Timeline.initial) evs) in
  Timeline.zoomLevel (snd final) = 4 /\
  Timeline.actualViewEnd (App.timelineProps (fst final)) (snd final) <= 120.
Proof.
  intros evs final. split; [reflexivity |].
  destruct (zoom_invariant_along_runs (demo_state [] 0) evs)
    as (_ & _ & _ & H).
  - vm_compute. discriminate.
  - exact H.
Defined.

(** X4.  Zooming in and zooming out are inverse to each other away
    from the ends of [ZOOM_LEVELS]: below 16, zoom-in raises the level and
    zoom-out brings it back; above 1, zoom-out lowers it and zoom-in brings
    it back; each step re-centres the window on the current time.  At 16
    zoom-in does nothing, at 1 zoom-out does nothing. *)
Theorem zoom_in_then_out (p : Timeline.TimelineProps) (s : Timeline.State) :
  In (Timeline.zoomLevel s) Timeline.ZOOM_LEVELS ->
  (Timeline.zoomLevel s <> 16 ->
   Timeline.zoomLevel (Timeline.handleZoomOut p (Timeline.handleZoomIn p s))
   = Timeline.zoomLevel s /\
   Timeline.zoomLevel s < Timeline.zoomLevel (Timeline.handleZoomIn p s) /\
   Timeline.zoomCenter (Timeline.handleZoomIn p s) = Timeline.currentTime p) /\
  (Timeline.zoomLevel s <> 1 ->
   Timeline.zoomLevel (Timeline.handleZoomIn p (Timeline.handleZoomOut p s))
   = Timeline.zoomLevel s /\
   Timeline.zoomLevel (Timeline.handleZoomOut p s) < Timeline.zoomLevel s /\
   Timeline.zoomCenter (Timeline.handleZoomOut p s) = Timeline.currentTime p) /\
  (Timeline.zoomLevel s = 16 -> Timeline.handleZoomIn p s = s) /\
  (Timeline.zoomLevel s = 1 -> Timeline.handleZoomOut p s = s).
Proof.
  intros Hz. destruct s as [m ds h tr z c]. cbn [Timeline.zoomLevel] in *.
  simpl in Hz.
  destruct Hz as [<- | [<- | [<- | [<- | [<- | []]]]]];
    (split; [| split; [| split]]); intros H;
    try discriminate H; try (exfalso; apply H; reflexivity);
    try reflexivity; repeat split.
Qed.

Lemma zoom_in_then_out_witness :
  let p := Timeline.mkProps 120 40 None in
  let s := Timeline.mkState Timeline.none None None None 4 35 in
  Timeline.zoomLevel (Timeline.handleZoomOut p (Timeline.handleZoomIn p s)) = 4.
Proof.
  intros p s.
  destruct (zoom_in_then_out p s) as [H _]; [vm_compute; tauto |].
  destruct H as [H _]; [discriminate |]. exact H.
Defined.

(** ** Releasing the pointer *)

(** X8.  Releasing the pointer while a handle is dragged commits
    the provisional range as it stands, whatever the pointer position at
    release: the application's selection becomes that range, the video
    seeks to its start, playback is paused, no annotation is selected, and
    the Timeline is idle again with no provisional range. *)
Theorem handle_release_commits_provisional (s : App.State)
        (t : Timeline.State) (tr : Range) (e : Timeline.MouseEvent) :
  Timeline.dragMode t = Timeline.extend_start \/
  Timeline.dragMode t = Timeline.extend_end ->
  Timeline.tempRange t = Some tr ->
  let '(s', t', log) := App.timelineEvent s t (Timeline.GlobalMouseUp e) in
  App.selectionRange s' = Some tr /\
  App.currentTime s' = start tr /\
  App.isPlaying s' = false /\
  App.activeAnnotationId s' = None /\
  App.annotations s' = App.annotations s /\
  log = [Eff.seekTo (start tr)] /\
  Timeline.dragMode t' = Timeline.none /\
  Timeline.tempRange t' = None.
Proof.
  intros Hmode Htr.
  unfold App.timelineEvent, Timeline.step, Timeline.dragging,
    Timeline.handleGlobalMouseUp.
  rewrite Htr. destruct Hmode as [-> | ->];
    destruct (Timeline.dragStart t); cbn; repeat split.
Qed.

(** A click on a handle, without any move in between. *)
Lemma handle_release_commits_provisional_witness :
  let s := App.setIsPlaying true
             (App.setActiveAnnotationId (Some "a1"%string)
                (App.setSelectionRange (Some (mkRange 10 20))
                   (demo_state [] 15))) in
  let t := Timeline.handleStartHandleMouseDown (App.timelineProps s)
                                               Timeline.initial in
  let s' := fst (fst (App.timelineEvent s t
                        (Timeline.GlobalMouseUp (demo_pointer 700)))) in
  App.selectionRange s' = Some (mkRange 10 20) /\
  App.currentTime s' = 10 /\
  App.isPlaying s' = false /\
  App.activeAnnotationId s' = None.
Proof.
  intros s t s'.
  pose proof (handle_release_commits_provisional s t (mkRange 10 20)
                (demo_pointer 700) (or_introl eq_refl) eq_refl) as H.
  unfold s'.
  destruct (App.timelineEvent s t (Timeline.GlobalMouseUp (demo_pointer 700)))
    as [[s1 t1] log].
  destruct H as (H1 & H2 & H3 & H4 & _). cbn [fst].
  repeat split; assumption.
Defined.

(** X9.  A click on the track (release within 0.1 s of the press)
    leaves playback and the selected annotation as they were; a drag that
    commits a range pauses playback and deselects the annotation.  Neither
    touches the annotation list or the drawing mode. *)
Theorem click_keeps_playback_drag_pauses (s : App.State)
        (t : Timeline.State) (e : Timeline.MouseEvent) (anchor : Q) :
  Timeline.dragMode t = Timeline.create ->
  Timeline.dragStart t = Some anchor ->
  let time := Timeline.getTimeFromEvent (App.timelineProps s) t e in
  let s' := fst (fst (App.timelineEvent s t (Timeline.GlobalMouseUp e))) in
  App.annotations s' = App.annotations s /\
  App.isDrawingMode s' = App.isDrawingMode s /\
  (Qabs (time - anchor) < 0.1 ->
   App.isPlaying s' = App.isPlaying s /\
   App.activeAnnotationId s' = App.activeAnnotationId s) /\
  (0.1 <= Qabs (time - anchor) ->
   App.isPlaying s' = false /\
   App.activeAnnotationId s' = None).
Proof.
  intros Hmode Hanchor time s'. subst s'.
  unfold App.timelineEvent, Timeline.step, Timeline.dragging,
    Timeline.handleGlobalMouseUp.
  rewrite Hmode, Hanchor. fold time.
  destruct (Qlt_le_dec (Qabs (time - anchor)) 0.1) as [Hc | Hd];
    (split; [reflexivity |]); (split; [reflexivity |]);
    split; intros H; first [split; reflexivity | exfalso; lra].
Qed.

Lemma click_keeps_playback_drag_pauses_witness :
  let s := App.setIsPlaying true
             (App.setActiveAnnotationId (Some "a1"%string)
                (demo_state [] 15)) in
  let t := Timeline.handleMouseDown (App.timelineProps s) Timeline.initial
                                    (demo_pointer 100) in
  let up x :=
    fst (fst (App.timelineEvent s t
                (Timeline.GlobalMouseUp (demo_pointer x)))) in
  App.isPlaying (up 100.5) = true /\
  App.activeAnnotationId (up 100.5) = Some "a1"%string /\
  App.isPlaying (up 300) = false /\
  App.activeAnnotationId (up 300) = None.
Proof.
  intros s t up.
  destruct (click_keeps_playback_drag_pauses s t (demo_pointer 100.5)
              (12000 # 1200) eq_refl eq_refl) as (_ & _ & Hclick & _).
  destruct (click_keeps_playback_drag_pauses s t (demo_pointer 300)
              (12000 # 1200) eq_refl eq_refl) as (_ & _ & _ & Hdrag).
  destruct Hclick as [H1 H2]; [vm_compute; reflexivity |].
  destruct Hdrag as [H3 H4]; [vm_compute; discriminate |].
  repeat split; assumption.
Defined.

(** ** Displayed times *)

Lemma Qfloor_unique (q : Q) (z : Z) :
  inject_Z z <= q -> q < inject_Z (z + 1) -> Qfloor q = z.
Proof.
  intros Hle Hlt.
  pose proof (Qfloor_le q) as H1. pose proof (Qlt_floor q) as H2.
  assert (Ha : (z <= Qfloor q)%Z).
  { rewrite <- (Qfloor_Z z). now apply Qfloor_resp_le. }
  assert (Hb : (Qfloor q < z + 1)%Z).
  { rewrite Zlt_Qlt. lra. }
  lia.
Qed.

Lemma inject_Z_60 (m r : Z) :
  inject_Z (60 * m + r) == 60 * inject_Z m + inject_Z r.
Proof. rewrite inject_Z_plus, inject_Z_mult. reflexivity. Qed.

Section Clock.
Variable seconds : Q.
Hypothesis nonneg : 0 <= seconds.

Let F : Z := Qfloor seconds.

Lemma minutes_floor : JSNum.floor (seconds / 60) = (F / 60)%Z.
Proof.
  unfold JSNum.floor.
  pose proof (Qfloor_le seconds) as H1. pose proof (Qlt_floor seconds) as H2.
  fold F in H1, H2.
  pose proof (Z.div_mod F 60 ltac:(lia)) as Hdm.
  pose proof (Z.mod_pos_bound F 60 ltac:(lia)) as Hr.
  assert (E1 : inject_Z F == 60 * inject_Z (F / 60) + inject_Z (F mod 60)).
  { rewrite <- inject_Z_60. now rewrite <- Hdm. }
  assert (Hr0 : 0 <= inject_Z (F mod 60)).
  { change 0 with (inject_Z 0). rewrite <- Zle_Qle. lia. }
  assert (Hr1 : inject_Z (F mod 60) <= 59).
  { change 59 with (inject_Z 59). rewrite <- Zle_Qle. lia. }
  assert (E2 : inject_Z (F + 1) == inject_Z F + 1)
    by (rewrite inject_Z_plus; reflexivity).
  assert (E3 : inject_Z (F / 60 + 1) == inject_Z (F / 60) + 1)
    by (rewrite inject_Z_plus; reflexivity).
  apply Qfloor_unique.
  - apply Qle_shift_div_l; lra.
  - rewrite E3. apply Qlt_shift_div_r; lra.
Qed.

Lemma seconds_floor :
  JSNum.floor (JSNum.rem seconds 60) = (F mod 60)%Z.
Proof.
  unfold JSNum.rem, JSNum.trunc.
  destruct (Qlt_le_dec (seconds / 60) 0) as [Hneg | _].
  { exfalso. assert (0 <= seconds / 60) by (apply Qle_shift_div_l; lra).
    lra. }
  pose proof minutes_floor as Hm. unfold JSNum.floor in Hm. rewrite Hm.
  unfold JSNum.floor.
  pose proof (Qfloor_le seconds) as H1. pose proof (Qlt_floor seconds) as H2.
  fold F in H1, H2.
  pose proof (Z.div_mod F 60 ltac:(lia)) as Hdm.
  assert (E1 : inject_Z F == 60 * inject_Z (F / 60) + inject_Z (F mod 60)).
  { rewrite <- inject_Z_60. now rewrite <- Hdm. }
  assert (E2 : inject_Z (F + 1) == inject_Z F + 1)
    by (rewrite inject_Z_plus; reflexivity).
  assert (E3 : inject_Z (F mod 60 + 1) == inject_Z (F mod 60) + 1)
    by (rewrite inject_Z_plus; reflexivity).
  apply Qfloor_unique; lra.
Qed.

End Clock.

Lemma two_digits (z : Z) :
  (0 <= z < 60)%Z ->
  String.length (JSNum.padStart 2 "0" (JSNum.toString z)) = 2%nat.
Proof.
  intros Hz.
  assert (Hall : forallb (fun n => Nat.eqb (String.length
                   (JSNum.padStart 2 "0" (JSNum.toString (Z.of_nat n)))) 2)
                   (seq 0 60) = true) by (vm_compute; reflexivity).
  rewrite forallb_forall in Hall.
  specialize (Hall (Z.to_nat z)).
  rewrite Z2Nat.id in Hall by lia.
  apply Nat.eqb_eq, Hall. apply in_seq. lia.
Qed.

(** X10.  For a non-negative time, [formatTimeShort] shows the
    whole seconds elapsed, [floor(seconds)], split as minutes and
    remaining seconds: the minutes are [floor(seconds) / 60] without
    padding, the seconds are [floor(seconds) mod 60] written with exactly
    two digits. *)
Theorem formatTimeShort_reads_floor (seconds : Q) :
  0 <= seconds ->
  let F := Qfloor seconds in
  TimelineView.formatTimeShort seconds
  = (JSNum.toString (F / 60) ++ ":"
       ++ JSNum.padStart 2 "0" (JSNum.toString (F mod 60)))%string /\
  String.length (JSNum.padStart 2 "0" (JSNum.toString (F mod 60))) = 2%nat /\
  (60 * (F / 60) + F mod 60 = F)%Z.
Proof.
  intros Hs F. unfold TimelineView.formatTimeShort.
  rewrite (minutes_floor seconds), (seconds_floor seconds Hs).
  split; [reflexivity |]. split.
  - apply two_digits. apply Z.mod_pos_bound. lia.
  - symmetry. apply Z.div_mod. lia.
Qed.

Lemma formatTimeShort_reads_floor_witness :
  TimelineView.formatTimeShort 125.7 = "2:05"%string /\
  TimelineView.formatTimeShort 59.99 = "0:59"%string.
Proof.
  split.
  - rewrite (proj1 (formatTimeShort_reads_floor 125.7 ltac:(vm_compute; discriminate))).
    reflexivity.
  - rewrite (proj1 (formatTimeShort_reads_floor 59.99 ltac:(vm_compute; discriminate))).
    reflexivity.
Defined.

(** ** Sorting by a key *)

Section SortByFacts.
Context {A : Type} (key : A -> Q).

Let le (a b : A) : Prop := key a <= key b.

Lemma insert_by_perm (x : A) (l : list A) :
  Permutation (JS.insert_by key x l) (x :: l).
Proof.
  induction l as [| y l IH]; cbn [JS.insert_by]; [reflexivity |].
  destruct (Qle_bool (key x) (key y)); [reflexivity |].
  rewrite IH. apply perm_swap.
Qed.

Lemma sort_by_perm (l : list A) : Permutation (JS.sort_by key l) l.
Proof.
  induction l as [| x l IH]; [reflexivity |].
  unfold JS.sort_by in *. cbn [fold_right].
  rewrite insert_by_perm. now constructor.
Qed.

Lemma insert_by_sorted (x : A) (l : list A) :
  StronglySorted le l -> StronglySorted le (JS.insert_by key x l).
Proof.
  induction 1 as [| y l Hl IH Hy]; cbn [JS.insert_by].
  - repeat constructor.
  - destruct (Qle_bool (key x) (key y)) eqn:E.
    + apply Qle_bool_iff in E. constructor; [now constructor |].
      constructor; [exact E |].
      eapply Forall_impl; [| exact Hy]. intros b Hb. unfold le in *. lra.
    + assert (Hyx : key y <= key x).
      { destruct (Qlt_le_dec (key y) (key x)) as [H | H]; [lra |].
        apply Qle_bool_iff in H. congruence. }
      constructor; [exact IH |].
      apply (Permutation_Forall (Permutation_sym (insert_by_perm x l))).
      constructor; assumption.
Qed.

Lemma sort_by_sorted (l : list A) : StronglySorted le (JS.sort_by key l).
Proof.
  induction l as [| x l IH]; [constructor |].
  unfold JS.sort_by in *. cbn [fold_right]. now apply insert_by_sorted.
Qed.

(** Inserting in front of a list whose keys are all at least the new key
    leaves the list as it is behind the new element. *)
Lemma insert_by_front (x : A) (l : list A) :
  Forall (fun b => key x <= key b) l -> JS.insert_by key x l = x :: l.
Proof.
  intros H. destruct H as [| y l Hy _]; [reflexivity |].
  cbn [JS.insert_by]. apply Qle_bool_iff in Hy. now rewrite Hy.
Qed.

(** Appending one element to a sorted list and sorting puts the element
    after every element whose key is not larger, and moves nothing else. *)
Lemma sort_by_append (old : list A) (x : A) :
  StronglySorted le old ->
  exists l1 l2,
    old = l1 ++ l2 /\
    JS.sort_by key (old ++ [x]) = l1 ++ x :: l2 /\
    Forall (fun a => key a <= key x) l1 /\
    Forall (fun a => key x < key a) l2.
Proof.
  unfold JS.sort_by. rewrite fold_right_app. cbn [fold_right JS.insert_by].
  induction 1 as [| a rest Hrest IH Ha].
  - exists [], []. repeat split; constructor.
  - destruct IH as (l1 & l2 & Eold & Esort & H1 & H2).
    cbn [fold_right]. rewrite Esort.
    destruct l1 as [| b l1].
    + cbn [app] in *. subst rest. cbn [JS.insert_by].
      destruct (Qle_bool (key a) (key x)) eqn:E.
      * apply Qle_bool_iff in E. exists [a], l2.
        repeat split; trivial. now constructor.
      * assert (Hxa : key x < key a).
        { destruct (Qlt_le_dec (key x) (key a)) as [H | H]; [exact H |].
          apply Qle_bool_iff in H. congruence. }
        rewrite insert_by_front by exact Ha.
        exists [], (a :: l2). repeat split; trivial. now constructor.
    + cbn [app] in *. subst rest.
      assert (Hab : key a <= key b) by (inversion Ha; assumption).
      cbn [JS.insert_by]. apply Qle_bool_iff in Hab. rewrite Hab.
      apply Qle_bool_iff in Hab.
      exists (a :: b :: l1), l2. repeat split; trivial.
      constructor; [| exact H1]. inversion H1; subst. lra.
Qed.

End SortByFacts.

(** ** Adding an annotation *)

(** The state after a successful save. *)
Lemma handleAddComment_saved (canvasJSON : option DrawingPath)
      (saved : Annotation) (s : App.State) :
  App.signedIn s = true ->
  let s' := fst (App.handleAddComment canvasJSON (Api.Ok saved) s) in
  let range := Editor.commentRange canvasJSON s in
  App.annotations s'
  = JS.sort_by startTime (App.annotations s ++ [saved]) /\
  App.activeAnnotationId s' = Some (id saved) /\
  App.currentTime s' = fst range /\
  App.selectionRange s' = Some (mkRange (fst range) (snd range)) /\
  App.isDrawingMode s'
  = match App.selectedTool s with
    | App.pen => false
    | App.pointer => App.isDrawingMode s
    end /\
  App.selectedTool s' = App.pointer.
Proof.
  intros Hin s' range. subst s' range.
  unfold App.handleAddComment, Editor.commentRange.
  rewrite Hin. cbn [negb].
  destruct (App.selectionRange s), canvasJSON,
    (App.selectedTool s) eqn:Etool; repeat split; exact Etool.
Qed.

(** X11.  When the annotation list is ordered by start time, a
    successful save keeps it ordered: the saved annotation is put behind
    every annotation that starts no later and before every annotation that
    starts later, and the others keep their places. *)
Theorem add_comment_keeps_order (canvasJSON : option DrawingPath)
        (saved : Annotation) (s : App.State) :
  App.signedIn s = true ->
  StronglySorted by_start (App.annotations s) ->
  let s' := fst (App.handleAddComment canvasJSON (Api.Ok saved) s) in
  StronglySorted by_start (App.annotations s') /\
  exists before after,
    App.annotations s = before ++ after /\
    App.annotations s' = before ++ saved :: after /\
    Forall (fun a => startTime a <= startTime saved) before /\
    Forall (fun a => startTime saved < startTime a) after.
Proof.
  intros Hin Hsorted s'.
  destruct (handleAddComment_saved canvasJSON saved s Hin) as (Hanns & _).
  fold s' in Hanns. rewrite Hanns. split.
  - apply sort_by_sorted.
  - apply sort_by_append. exact Hsorted.
Qed.

Lemma add_comment_keeps_order_witness :
  let old := [demo_comment "a" 5 8; demo_comment "b" 30 45;
              demo_comment "c" 60 60] in
  let saved := demo_comment "n" 30 31 in
  App.annotations
    (fst (App.handleAddComment None (Api.Ok saved) (demo_state old 30)))
  = [demo_comment "a" 5 8; demo_comment "b" 30 45; saved;
     demo_comment "c" 60 60].
Proof.
  intros old saved.
  destruct (add_comment_keeps_order None saved (demo_state old 30))
    as (_ & before & after & _ & E & _).
  - reflexivity.
  - repeat constructor; vm_compute; discriminate.
  - reflexivity.
Defined.

(** ** An explicitly selected annotation *)

Lemma find_by_id (anns : list Annotation) (a : Annotation) :
  NoDup (map id anns) -> In a anns ->
  find (fun b => String.eqb (id b) (id a)) anns = Some a.
Proof.
  induction anns as [| b anns IH]; intros Hnd Hin; [contradiction |].
  cbn [map] in Hnd. inversion Hnd as [| ? ? Hnot Hnd']; subst.
  cbn [find]. destruct (String.eqb_spec (id b) (id a)) as [E | E].
  - destruct Hin as [-> | Hin]; [reflexivity |].
    exfalso. apply Hnot. rewrite E. now apply in_map.
  - destruct Hin as [-> | Hin]; [contradiction |]. now apply IH.
Qed.

Lemma filter_absent_id (anns : list Annotation) (x : string) :
  ~ In x (map id anns) ->
  filter (fun b => JS.includes [x] (id b)) anns = [].
Proof.
  induction anns as [| c anns IH]; intros Hnot; [reflexivity |].
  cbn [filter]. unfold JS.includes at 1. cbn [existsb].
  rewrite orb_false_r.
  destruct (String.eqb_spec (id c) x) as [Ec | Ec].
  - exfalso. apply Hnot. left. exact Ec.
  - apply IH. intros H. apply Hnot. now right.
Qed.

Lemma filter_by_id (anns : list Annotation) (a : Annotation) :
  NoDup (map id anns) -> In a anns ->
  filter (fun b => JS.includes [id a] (id b)) anns = [a].
Proof.
  induction anns as [| b anns IH]; intros Hnd Hin; [contradiction |].
  cbn [map] in Hnd. inversion Hnd as [| ? ? Hnot Hnd']; subst.
  cbn [filter]. unfold JS.includes at 1. cbn [existsb]. rewrite orb_false_r.
  destruct (String.eqb_spec (id b) (id a)) as [E | E].
  - destruct Hin as [-> | Hin].
    + f_equal. now apply filter_absent_id.
    + exfalso. apply Hnot. rewrite E. now apply in_map.
  - destruct Hin as [-> | Hin]; [contradiction |]. now apply IH.
Qed.

(** What the resolver shows for a selected annotation of the list. *)
Lemma selected_drawing (s : App.State) (a : Annotation) :
  App.isDrawingMode s = false ->
  App.activeAnnotationId s = Some (id a) ->
  In a (App.annotations s) ->
  ids_well_formed (App.annotations s) ->
  App.activeDrawing s
  = if App.isTimeInRange (App.currentTime s) (startTime a) (endTime a)
    then drawingData a else None.
Proof.
  intros Hmode Hactive Hin [Hnd Hids].
  rewrite Forall_forall in Hids. destruct (Hids a Hin) as [Hne Hfree].
  assert (Htruthy : JS.truthy (id a) = true).
  { unfold JS.truthy. destruct (String.eqb_spec (id a) EmptyString);
      [contradiction | reflexivity]. }
  unfold App.activeDrawing, App.visibleAnnotationIdsString.
  rewrite Hmode, Hactive, Htruthy, (find_by_id _ a Hnd Hin).
  unfold App.hasDrawing.
  destruct (drawingData a) as [d |] eqn:Ed;
    destruct (App.isTimeInRange _ _ _); cbn [andb]; try reflexivity.
  unfold App.activeDrawing_memo, App.visibleAnns.
  rewrite Htruthy. cbn [negb].
  rewrite (split_no_sep "," (id a) Hfree), (filter_by_id _ a Hnd Hin).
  exact Ed.
Qed.

(** X13.  With an annotation of the list explicitly selected (and
    drawing mode off), the drawing shown is that annotation's own drawing
    data while the current time is within its range, widened by 0.1 s on
    both sides, and nothing outside of it; other drawings that cover the
    current time are not shown.  Ids are well formed (distinct, non-empty,
    comma-free). *)
Theorem resolver_with_selection (s : App.State) (a : Annotation) :
  App.isDrawingMode s = false ->
  App.activeAnnotationId s = Some (id a) ->
  In a (App.annotations s) ->
  ids_well_formed (App.annotations s) ->
  (startTime a - 0.1 <= App.currentTime s /\
   App.currentTime s <= endTime a + 0.1 ->
   App.activeDrawing s = drawingData a) /\
  (App.currentTime s < startTime a - 0.1 \/
   endTime a + 0.1 < App.currentTime s ->
   App.activeDrawing s = None).
Proof.
  intros Hmode Hactive Hin Hids.
  rewrite (selected_drawing s a Hmode Hactive Hin Hids).
  destruct (App.isTimeInRange _ _ _) eqn:E.
  - apply isTimeInRange_spec in E. split; [reflexivity |].
    intros [H | H]; lra.
  - split; [| reflexivity]. intros H.
    apply isTimeInRange_spec in H. congruence.
Qed.

(** With "b2" selected, the other drawing that covers 6.5 s is not shown;
    outside the range of "b2" nothing is. *)
Lemma resolver_with_selection_witness :
  let anns := [demo_drawing "a1" 5 8 "4.6.0" [JStr "path-1"];
               demo_drawing "b2" 6 9 "6.0.2" [JStr "path-2"]] in
  let selected time :=
    App.setActiveAnnotationId (Some "b2"%string) (demo_state anns time) in
  App.activeDrawing (selected 6.5)
  = Some (mkDrawingPath "6.0.2" [JStr "path-2"]) /\
  App.activeDrawing (selected 5.5) = None.
Proof.
  intros anns selected.
  assert (Hids : ids_well_formed anns).
  { split; [repeat constructor; cbn; intuition discriminate
           | repeat constructor; discriminate]. }
  destruct (resolver_with_selection (selected 6.5)
              (demo_drawing "b2" 6 9 "6.0.2" [JStr "path-2"])
              eq_refl eq_refl (or_intror (or_introl eq_refl)) Hids)
    as [Hshown _].
  destruct (resolver_with_selection (selected 5.5)
              (demo_drawing "b2" 6 9 "6.0.2" [JStr "path-2"])
              eq_refl eq_refl (or_intror (or_introl eq_refl)) Hids)
    as [_ Hhidden].
  split.
  - apply Hshown. split; vm_compute; discriminate.
  - apply Hhidden. left. vm_compute. reflexivity.
Defined.

(** X15.  Selecting an annotation of the list in the sidebar shows
    its drawing data at once (nothing if it has none): the handler seeks
    to its start, which is inside its own range, leaves drawing mode,
    pauses playback and sets the selection range to the annotation's
    range. *)
Theorem selecting_shows_the_drawing (s : App.State) (ann : Annotation) :
  In ann (App.annotations s) ->
  ids_well_formed (App.annotations s) ->
  startTime ann <= endTime ann ->
  let s' := fst (App.handleAnnotationSelect ann s) in
  App.activeDrawing s' = drawingData ann /\
  App.isDrawingMode s' = false /\
  App.isPlaying s' = false /\
  App.currentTime s' = startTime ann /\
  App.selectionRange s' = Some (mkRange (startTime ann) (endTime ann)).
Proof.
  intros Hin Hids Horder s'.
  assert (Hfields : App.isDrawingMode s' = false /\
                    App.activeAnnotationId s' = Some (id ann) /\
                    App.annotations s' = App.annotations s /\
                    App.currentTime s' = startTime ann /\
                    App.isPlaying s' = false /\
                    App.selectionRange s'
                    = Some (mkRange (startTime ann) (endTime ann))).
  { subst s'. unfold App.handleAnnotationSelect. cbn [fst].
    destruct (App.isDrawingMode s) eqn:E; repeat split; exact E. }
  destruct Hfields as (Hm & Ha & Hl & Ht & Hp & Hr).
  repeat split; trivial.
  rewrite (selected_drawing s' ann Hm Ha); rewrite ?Hl; trivial.
  rewrite Ht.
  replace (App.isTimeInRange (startTime ann) (startTime ann) (endTime ann))
    with true; [reflexivity |].
  symmetry. apply isTimeInRange_spec. lra.
Qed.

Lemma selecting_shows_the_drawing_witness :
  let anns := [demo_drawing "a1" 5 8 "4.6.0" [JStr "path-1"];
               demo_drawing "b2" 6 9 "6.0.2" [JStr "path-2"]] in
  let s := fst (App.handleToolChange App.pen (demo_state anns 100)) in
  App.activeDrawing
    (fst (App.handleAnnotationSelect
            (demo_drawing "b2" 6 9 "6.0.2" [JStr "path-2"]) s))
  = Some (mkDrawingPath "6.0.2" [JStr "path-2"]).
Proof.
  intros anns s.
  destruct (selecting_shows_the_drawing s
              (demo_drawing "b2" 6 9 "6.0.2" [JStr "path-2"])) as [H _].
  - right. left. reflexivity.
  - split; [repeat constructor; cbn; intuition discriminate
           | repeat constructor; discriminate].
  - vm_compute. discriminate.
  - exact H.
Defined.

(** ** The two parts of adding a comment *)

(** A submit that is answered before anything else happens is the
    one-step handler. *)
Lemma handleAddComment_atomic (canvasJSON : option DrawingPath)
      (r : Api.FetchResult Annotation) (s : App.State) :
  App.handleAddComment canvasJSON r s
  = match Editor.handleAddComment_submit canvasJSON s with
    | Some c => Editor.handleAddComment_settle c r s
    | None => (s, [])
    end.
Proof.
  unfold App.handleAddComment, Editor.handleAddComment_submit,
    Editor.handleAddComment_settle, Editor.commentRange.
  destruct (negb (App.signedIn s)); [reflexivity |].
  destruct (App.selectionRange s), canvasJSON; reflexivity.
Qed.

(** The state after a response that reports success. *)
Lemma handleAddComment_settled (c : Editor.AddCommentClosure)
      (saved : Annotation) (s : App.State) :
  let s' := fst (Editor.handleAddComment_settle c (Api.Ok saved) s) in
  App.annotations s'
  = JS.sort_by startTime (App.annotations s ++ [saved]) /\
  App.activeAnnotationId s' = Some (id saved) /\
  App.currentTime s' = Editor.captured_start c /\
  App.isDrawingMode s'
  = match Editor.captured_tool c with
    | App.pen => false
    | App.pointer => App.isDrawingMode s
    end.
Proof.
  intros s'. subst s'. unfold Editor.handleAddComment_settle.
  destruct (Editor.captured_tool c); repeat split.
Qed.

(** ** Tool mode along runs of the editor *)

Ltac mode_solve :=
  first [ assumption
        | unfold Editor.mode_ok in *; cbn in *; intuition congruence ].

Lemma dispatch_keeps_mode (calls : list Timeline.Callback)
      (acc : App.State * list Eff.Effect) :
  Editor.mode_ok (fst acc) ->
  Editor.mode_ok (fst (fold_left App.dispatch calls acc)).
Proof.
  revert acc. induction calls as [| c calls IH]; intros [s log] H;
    [exact H |].
  cbn [fold_left]. apply IH.
  destruct c as [time | [r |]]; mode_solve.
Qed.

Lemma settle_keeps_mode (c : Editor.AddCommentClosure)
      (r : Api.FetchResult Annotation) (s : App.State) :
  Editor.mode_ok s ->
  Editor.mode_ok (fst (Editor.handleAddComment_settle c r s)).
Proof.
  intros H. unfold Editor.handleAddComment_settle.
  destruct r, (Editor.captured_tool c); mode_solve.
Qed.

Lemma editor_step_keeps_mode (st : App.State * Timeline.State)
      (a : Editor.Action) :
  Editor.mode_ok (fst st) ->
  Editor.mode_ok (fst (fst (Editor.step st a))).
Proof.
  destruct st as [s t]. cbn [fst]. intros H.
  destruct a; cbn [Editor.step fst snd].
  - destruct tool; mode_solve.
  - unfold App.handleAnnotationSelect. cbn [fst].
    destruct (App.isDrawingMode s) eqn:E; mode_solve.
  - rewrite handleAddComment_atomic.
    destruct (Editor.handleAddComment_submit canvasJSON s) as [c |];
      [now apply settle_keeps_mode | exact H].
  - now apply settle_keeps_mode.
  - unfold App.timelineEvent.
    destruct (Timeline.step (App.timelineProps s) t ev) as [t' calls].
    pose proof (dispatch_keeps_mode calls (s, []) H) as H'.
    destruct (fold_left App.dispatch calls (s, [])) as [s' log]. exact H'.
  - exact H.
  - exact H.
  - exact H.
  - destruct chosen; exact H.
  - unfold App.initUser. destruct storedUser; [| exact H].
    destruct r as [| status | dbUser]; try exact H.
    unfold Api.getUser. destruct (status =? 404)%Z; exact H.
  - unfold App.handleUserCreate. destruct r; exact H.
  - unfold App.loadAnnotations. destruct (App.videoId s) as [v |]; [| exact H].
    destruct (JS.truthy v); [| exact H].
    destruct r; exact H.
  - unfold App.handleExport. destruct (App.videoId s) as [v |]; [| exact H].
    destruct (JS.truthy v); [| exact H].
    destruct r; exact H.
  - unfold App.handleImportFile.
    destruct chosen as [[data |] |], (App.videoId s) as [v |];
      try exact H;
      destruct (negb (App.signedIn s)); try exact H.
    destruct (negb (Api.videoHash data =? v)%string), userConfirms,
      rImport, rReload; exact H.
Qed.

(** X12.  Along every run of the editor's actions (tool change, sidebar
    selection, add comment, also with its response arriving after other
    actions, Timeline events, time updates, play/pause, duration change,
    file upload, sign-in, load, export, import), drawing mode is on
    exactly when the pen is the selected tool, and while it is on no saved
    drawing is shown. *)
Theorem tool_mode_invariant (acts : list Editor.Action)
        (st : App.State * Timeline.State) :
  Editor.mode_ok (fst st) ->
  let s' := fst (fst (Editor.run st acts)) in
  (App.isDrawingMode s' = true <-> App.selectedTool s' = App.pen) /\
  (App.isDrawingMode s' = true -> App.activeDrawing s' = None).
Proof.
  intros H s'.
  assert (Hok : Editor.mode_ok s').
  { subst s'. revert st H.
    induction acts as [| a acts IH]; intros st H; [exact H |].
    cbn [Editor.run].
    pose proof (editor_step_keeps_mode st a H) as Hstep.
    destruct (Editor.step st a) as [[s1 t1] log].
    specialize (IH (s1, t1) Hstep).
    destruct (Editor.run (s1, t1) acts) as [st2 logs]. exact IH. }
  split; [exact Hok |].
  intros Hd. unfold App.activeDrawing, App.visibleAnnotationIdsString.
  rewrite Hd. reflexivity.
Qed.

(** From the start-up state: a comment was submitted with the pointer
    selected, the pen is chosen, an annotation is selected in the sidebar,
    the pen is chosen again, and then the response to the submit arrives.
    The pen stays selected and no drawing is shown, although the saved
    annotation is now the selected one. *)
Lemma tool_mode_invariant_witness :
  let acts := [Editor.ToolChange App.pen;
               Editor.AnnotationSelect
                 (demo_drawing "a1" 5 8 "4.6.0" [JStr "path-1"]);
               Editor.ToolChange App.pen;
               Editor.AddCommentSettle
                 (Editor.mkClosure 6 7 App.pointer)
                 (Api.Ok (demo_drawing "n1" 6 7 "6.0.2" [JStr "path-2"]))] in
  let s' := fst (fst (Editor.run (App.initial, Timeline.initial) acts)) in
  App.selectedTool s' = App.pen /\
  App.activeAnnotationId s' = Some "n1"%string /\
  App.activeDrawing s' = None.
Proof.
  intros acts s'.
  destruct (tool_mode_invariant acts (App.initial, Timeline.initial))
    as (Htool & Hshown).
  - split; discriminate.
  - assert (Hd : App.isDrawingMode s' = true) by reflexivity.
    split; [apply Htool, Hd | split; [reflexivity | apply Hshown, Hd]].
Defined.

(** ** A saved annotation and its drawing *)

Lemma ids_well_formed_perm (l l' : list Annotation) :
  Permutation l l' -> ids_well_formed l -> ids_well_formed l'.
Proof.
  intros Hp [Hnd Hids]. split.
  - eapply Permutation_NoDup; [apply Permutation_map; exact Hp | exact Hnd].
  - eapply Permutation_Forall; eassumption.
Qed.

(** X14.  When the response to a submitted comment reports success, the
    saved annotation becomes the selected one and the current time the
    start that was submitted.  If the pen was the tool at the submit, or
    drawing mode is off when the response arrives, drawing mode is off
    afterwards and the saved annotation's drawing data is what the player
    shows (its range containing the submitted start within the tolerance,
    its id being new).  If the pointer was the tool at the submit and
    drawing mode is on when the response arrives (the pen was chosen in
    between), drawing mode stays on and no drawing is shown. *)
Theorem saved_drawing_shown_when_settled (c : Editor.AddCommentClosure)
        (saved : Annotation) (s : App.State) :
  ids_well_formed (App.annotations s ++ [saved]) ->
  startTime saved - 0.1 <= Editor.captured_start c /\
  Editor.captured_start c <= endTime saved + 0.1 ->
  let s' := fst (Editor.handleAddComment_settle c (Api.Ok saved) s) in
  App.activeAnnotationId s' = Some (id saved) /\
  App.currentTime s' = Editor.captured_start c /\
  (Editor.captured_tool c = App.pen \/ App.isDrawingMode s = false ->
   App.isDrawingMode s' = false /\
   App.activeDrawing s' = drawingData saved) /\
  (Editor.captured_tool c = App.pointer -> App.isDrawingMode s = true ->
   App.isDrawingMode s' = true /\
   App.activeDrawing s' = None).
Proof.
  intros Hids Hrange s'.
  destruct (handleAddComment_settled c saved s) as (Hl & Ha & Ht & Hm).
  fold s' in Hl, Ha, Ht, Hm.
  split; [exact Ha |]. split; [exact Ht |]. split.
  - intros Hoff.
    assert (Hm' : App.isDrawingMode s' = false).
    { rewrite Hm. destruct (Editor.captured_tool c); [| reflexivity].
      destruct Hoff as [Hpen | Hoff]; [discriminate Hpen | exact Hoff]. }
    split; [exact Hm' |].
    assert (Hperm : Permutation (App.annotations s ++ [saved])
                                (App.annotations s')).
    { rewrite Hl. symmetry. apply sort_by_perm. }
    rewrite (selected_drawing s' saved Hm' Ha).
    + rewrite Ht.
      replace (App.isTimeInRange (Editor.captured_start c)
                                 (startTime saved) (endTime saved))
        with true; [reflexivity |].
      symmetry. apply isTimeInRange_spec. exact Hrange.
    + eapply Permutation_in; [exact Hperm |].
      apply in_or_app. right. now left.
    + exact (ids_well_formed_perm _ _ Hperm Hids).
  - intros Hpointer Hon.
    assert (Hm' : App.isDrawingMode s' = true)
      by (rewrite Hm, Hpointer; exact Hon).
    split; [exact Hm' |].
    unfold App.activeDrawing, App.visibleAnnotationIdsString.
    rewrite Hm'. reflexivity.
Qed.

(** The pen is active over an existing drawing at 6 s and the sketch is
    submitted; the response arrives at once, and the saved sketch "n1" is
    the one drawing shown.  Had the submit been made with the pointer and
    the pen chosen before the response, nothing would be shown. *)
Lemma saved_drawing_shown_when_settled_witness :
  let s := fst (App.handleToolChange App.pen
                  (demo_state
                     [demo_drawing "a1" 5 8 "4.6.0" [JStr "path-1"]] 6)) in
  let sketch := mkDrawingPath "6.0.2" [JStr "path-2"] in
  let saved := demo_drawing "n1" 6 7 "6.0.2" [JStr "path-2"] in
  App.activeDrawing (fst (App.handleAddComment (Some sketch) (Api.Ok saved) s))
  = Some sketch /\
  App.activeDrawing
    (fst (Editor.handleAddComment_settle (Editor.mkClosure 6 7 App.pointer)
                                         (Api.Ok saved) s))
  = None.
Proof.
  intros s sketch saved.
  assert (Hids : ids_well_formed (App.annotations s ++ [saved])).
  { split; [repeat constructor; cbn; intuition discriminate
           | repeat constructor; discriminate]. }
  destruct (saved_drawing_shown_when_settled
              (Editor.mkClosure 6 7 App.pen) saved s Hids)
    as (_ & _ & Hshown & _); [vm_compute; split; discriminate |].
  destruct (saved_drawing_shown_when_settled
              (Editor.mkClosure 6 7 App.pointer) saved s Hids)
    as (_ & _ & _ & Hhidden); [vm_compute; split; discriminate |].
  split.
  - rewrite handleAddComment_atomic. exact (proj2 (Hshown (or_introl eq_refl))).
  - exact (proj2 (Hhidden eq_refl eq_refl)).
Defined.

(** ** Importing annotations *)

(** X16.  Importing a file exported for another video asks first:
    the confirmation with the mismatch warning is the first effect, and a
    declined confirmation ends the import with the state unchanged and
    nothing else done.  For a file of the current video no confirmation is
    asked, and the answer plays no part. *)
Theorem import_needs_consent (data : Api.ExportData) (userConfirms : bool)
        (rImport : Api.FetchResult Z)
        (rReload : Api.FetchResult (list Annotation))
        (s : App.State) (v : string) :
  App.signedIn s = true ->
  App.videoId s = Some v ->
  let import answer :=
    App.handleImportFile (Some (Some data)) answer rImport rReload s in
  (Api.videoHash data <> v ->
   import false = (s, [Eff.confirm (App.mismatchWarning data v)]) /\
   hd_error (snd (import true))
   = Some (Eff.confirm (App.mismatchWarning data v))) /\
  (Api.videoHash data = v ->
   import userConfirms = import true /\
   forall msg, ~ In (Eff.confirm msg) (snd (import userConfirms))).
Proof.
  intros Hin Hv import. subst import.
  unfold App.handleImportFile. rewrite Hv, Hin. cbn [negb].
  split; intros Hhash.
  - apply String.eqb_neq in Hhash. rewrite Hhash. cbn [negb andb].
    split; [reflexivity |].
    destruct rImport as [| status | n]; try reflexivity.
    destruct rReload; reflexivity.
  - apply String.eqb_eq in Hhash. rewrite Hhash. cbn [negb andb].
    split; [reflexivity |].
    intros msg.
    destruct rImport as [| status | n];
      [| | destruct rReload]; cbn; intuition discriminate.
Qed.

Lemma import_needs_consent_witness :
  let data := Api.mkExportData "1.0" "2024-05-01" "other-video" [] in
  let s := demo_state [demo_drawing "a1" 5 8 "4.6.0" [JStr "path-1"]] 0 in
  App.handleImportFile (Some (Some data)) false (Api.Ok 3%Z) (Api.Ok []) s
  = (s, [Eff.confirm (App.mismatchWarning data "video")]).
Proof.
  intros data s.
  destruct (import_needs_consent data false (Api.Ok 3%Z) (Api.Ok []) s
              "video" eq_refl eq_refl) as [Hforeign _].
  apply Hforeign. discriminate.
Defined.

(** X17.  Once the import request has succeeded, the annotation
    list is replaced by what the reload returns, or emptied when the
    reload fails; in both cases the last effect is the success alert with
    the imported count and the failure alert is not raised (a failed
    reload is only logged to the console). *)
Theorem import_reload_outcome (data : Api.ExportData) (userConfirms : bool)
        (imported : Z) (rReload : Api.FetchResult (list Annotation))
        (s : App.State) (v : string) :
  App.signedIn s = true ->
  App.videoId s = Some v ->
  Api.videoHash data = v \/ userConfirms = true ->
  let out := App.handleImportFile (Some (Some data)) userConfirms
                                  (Api.Ok imported) rReload s in
  fst out
  = App.setAnnotations
      (match rReload with Api.Ok loaded => loaded | _ => [] end) s /\
  last (snd out) Eff.downloadFile = Eff.alert (App.importedMessage imported) /\
  ~ In (Eff.alert "Failed to import annotations. Make sure the file is valid JSON.")
       (snd out) /\
  (Api.failed rReload = true ->
   In (Eff.console_error "Error fetching annotations:") (snd out)).
Proof.
  intros Hin Hv Hgo out. subst out.
  unfold App.handleImportFile. rewrite Hv, Hin. cbn [negb].
  assert (Hproceed : negb (Api.videoHash data =? v)%string
                     && negb userConfirms = false).
  { destruct Hgo as [Hhash | ->].
    - apply String.eqb_eq in Hhash. now rewrite Hhash.
    - apply andb_false_r. }
  rewrite Hproceed.
  destruct (negb (Api.videoHash data =? v)%string), rReload;
    cbn; repeat split; try discriminate; intuition discriminate.
Qed.

Lemma import_reload_outcome_witness :
  let data := Api.mkExportData "1.0" "2024-05-01" "video" [] in
  let s := demo_state [demo_drawing "a1" 5 8 "4.6.0" [JStr "path-1"]] 0 in
  let out := App.handleImportFile (Some (Some data)) false
                                  (Api.Ok 3%Z) (Api.NotOk 500) s in
  App.annotations (fst out) = [] /\
  last (snd out) Eff.downloadFile
  = Eff.alert "Successfully imported 3 annotations!".
Proof.
  intros data s out.
  destruct (import_reload_outcome data false 3%Z (Api.NotOk 500) s "video"
              eq_refl eq_refl (or_introl eq_refl)) as (Hs & Hlast & _).
  fold out in Hs, Hlast. split; [now rewrite Hs | exact Hlast].
Defined.

(** ** The stored identity *)

(** X18.  A successful sign-up stores the created user, whatever
    was stored before: [getStoredUser] reads it back, the application is
    signed in with onboarding closed and no alert, and a later start-up
    that finds the user on the server signs in as the server's record.  A
    failed sign-up leaves the storage, the current user and the onboarding
    flag as they were.  Either way the loading flag is cleared. *)
Theorem created_user_is_stored (r : Api.FetchResult User)
        (ls : ApiStore.UserStorage) (s : App.State) :
  let out := App.handleUserCreate r s in
  let ls' := ApiStore.apply_effects ls (snd out) in
  App.isUserLoading (fst out) = false /\
  match r with
  | Api.Ok user =>
      ApiStore.getStoredUser ls' = Some user /\
      App.currentUser (fst out) = Some user /\
      App.showOnboarding (fst out) = false /\
      Eff.alerted (snd out) = false /\
      (forall dbUser,
         App.currentUser
           (fst (App.initUser (ApiStore.getStoredUser ls') (Api.Ok dbUser)
                              App.initial)) = Some dbUser)
  | _ =>
      ls' = ls /\
      App.currentUser (fst out) = App.currentUser s /\
      App.showOnboarding (fst out) = App.showOnboarding s
  end.
Proof.
  intros out ls'. subst out ls'.
  destruct r as [| status | user]; repeat split.
Qed.

(** ** Sorting by a key, continued *)

Section SortByMore.
Context {A : Type} (key : A -> Q).

Lemma Qle_bool_false (x y : Q) : Qle_bool x y = false -> y < x.
Proof.
  intros E. destruct (Qlt_le_dec y x) as [H | H]; [exact H |].
  apply Qle_bool_iff in H. congruence.
Qed.

Lemma insert_by_app (a : A) (l1 r : list A) :
  JS.insert_by key a (l1 ++ r)
  = if existsb (fun y => Qle_bool (key a) (key y)) l1
    then JS.insert_by key a l1 ++ r
    else l1 ++ JS.insert_by key a r.
Proof.
  induction l1 as [| y l1 IH]; [reflexivity |].
  cbn [app JS.insert_by existsb].
  destruct (Qle_bool (key a) (key y)); cbn [orb]; [reflexivity |].
  rewrite IH. now destruct (existsb _ l1).
Qed.

(** Sorting a list with one more element at its end: the sorted list with
    that element put behind every element whose key is not larger. *)
Lemma sort_by_snoc (l : list A) (x : A) :
  exists l1 l2,
    JS.sort_by key l = l1 ++ l2 /\
    JS.sort_by key (l ++ [x]) = l1 ++ x :: l2 /\
    Forall (fun a => key a <= key x) l1 /\
    Forall (fun a => key x < key a) l2.
Proof.
  induction l as [| a l (l1 & l2 & E & Ex & H1 & H2)].
  - exists [], []. repeat split; constructor.
  - unfold JS.sort_by in *. cbn [app fold_right]. rewrite E, Ex.
    rewrite !insert_by_app.
    destruct (existsb (fun y => Qle_bool (key a) (key y)) l1) eqn:Eex.
    + exists (JS.insert_by key a l1), l2. repeat split; trivial.
      apply (Permutation_Forall (Permutation_sym (insert_by_perm key a l1))).
      constructor; [| exact H1].
      apply existsb_exists in Eex as (y & Hy & Hay).
      apply Qle_bool_iff in Hay.
      rewrite Forall_forall in H1. specialize (H1 y Hy). cbn in H1. lra.
    + cbn [JS.insert_by].
      destruct (Qle_bool (key a) (key x)) eqn:Eax.
      * apply Qle_bool_iff in Eax.
        rewrite insert_by_front.
        -- exists (l1 ++ [a]), l2. rewrite <- !app_assoc.
           repeat split; trivial.
           apply Forall_app. split; [exact H1 | now constructor].
        -- eapply Forall_impl; [| exact H2]. intros b Hb. cbn in Hb. lra.
      * apply Qle_bool_false in Eax.
        exists l1, (JS.insert_by key a l2). repeat split; trivial.
        apply (Permutation_Forall
                 (Permutation_sym (insert_by_perm key a l2))).
        now constructor.
Qed.

(** The sort is stable: elements with one key keep their order. *)
Lemma sort_by_stable (t : Q) (l : list A) :
  filter (fun a => Qeq_bool (key a) t) (JS.sort_by key l)
  = filter (fun a => Qeq_bool (key a) t) l.
Proof.
  induction l as [| x l IH]; [reflexivity |].
  unfold JS.sort_by in *. cbn [fold_right]. cbn [filter]. rewrite <- IH.
  generalize (fold_right (JS.insert_by key) [] l). intros sorted.
  induction sorted as [| y sorted IHs]; [reflexivity |].
  cbn [JS.insert_by].
  destruct (Qle_bool (key x) (key y)) eqn:E; [reflexivity |].
  apply Qle_bool_false in E. cbn [filter]. rewrite IHs.
  destruct (Qeq_bool (key x) t) eqn:Ex; [| reflexivity].
  destruct (Qeq_bool (key y) t) eqn:Ey; [| reflexivity].
  apply Qeq_bool_iff in Ex, Ey. lra.
Qed.

End SortByMore.

(** ** Local storage, continued *)

(** X19.  [getAnnotations] of the local store returns exactly the
    stored annotations of the requested video, each as often as it is
    stored, in ascending order of start time, and annotations with the
    same start time in the order in which they were stored; an absent
    store reads as empty. *)
Theorem stored_annotations_of_video (ls : Storage.localStorage)
        (v : string) :
  let got := Storage.getAnnotations ls v in
  StronglySorted by_start got /\
  (forall a, In a got <-> In a (Storage.stored ls) /\ videoId a = v) /\
  Permutation got
    (filter (fun a => String.eqb (videoId a) v) (Storage.stored ls)) /\
  (forall t,
     filter (fun a => Qeq_bool (startTime a) t) got
     = filter (fun a => Qeq_bool (startTime a) t)
         (filter (fun a => String.eqb (videoId a) v) (Storage.stored ls))).
Proof.
  intros got. subst got. destruct ls as [all |]; cbn [Storage.getAnnotations
                                                     Storage.stored].
  - split; [apply sort_by_sorted |].
    split; [| split; [apply sort_by_perm | intros t; apply sort_by_stable]].
    intros a. split.
    + intros H. apply (Permutation_in _ (sort_by_perm startTime _)) in H.
      apply filter_In in H as [H E]. now apply String.eqb_eq in E.
    + intros [H E].
      apply (Permutation_in _ (Permutation_sym (sort_by_perm startTime _))).
      apply filter_In. split; [exact H | now apply String.eqb_eq].
  - split; [constructor |]. split; [| split; [constructor | reflexivity]].
    intros a. cbn. tauto.
Qed.

(** X20.  After [saveAnnotation], reading the annotation's video
    gives what it gave before with the new annotation put behind every
    annotation that starts no later and before those that start later;
    reading any other video gives what it gave before.  The function
    returns the annotation it was given. *)
Theorem saved_annotation_is_read_back (ls : Storage.localStorage)
        (annotation : Annotation) :
  let ls' := fst (Storage.saveAnnotation ls annotation) in
  let v := videoId annotation in
  snd (Storage.saveAnnotation ls annotation) = annotation /\
  (exists before after,
     Storage.getAnnotations ls v = before ++ after /\
     Storage.getAnnotations ls' v = before ++ annotation :: after /\
     Forall (fun a => startTime a <= startTime annotation) before /\
     Forall (fun a => startTime annotation < startTime a) after) /\
  (forall w, w <> v ->
     Storage.getAnnotations ls' w = Storage.getAnnotations ls w).
Proof.
  intros ls' v. subst ls' v. split; [reflexivity |].
  cbn [Storage.saveAnnotation fst Storage.getAnnotations].
  rewrite filter_app. cbn [filter]. split.
  - rewrite String.eqb_refl.
    destruct (sort_by_snoc startTime
                (filter (fun a => String.eqb (videoId a) (videoId annotation))
                        (Storage.stored ls)) annotation)
      as (l1 & l2 & E & Ex & H1 & H2).
    exists l1, l2. repeat split; trivial.
    destruct ls as [all |]; [exact E |].
    cbn in E |- *. destruct l1, l2; try discriminate E. reflexivity.
  - intros w Hw. rewrite filter_app. cbn [filter].
    destruct (String.eqb_spec (videoId annotation) w) as [E | _];
      [congruence |].
    rewrite app_nil_r. destruct ls; reflexivity.
Qed.

Lemma filter_filter_comm {A} (P Q : A -> bool) (l : list A) :
  filter P (filter Q l) = filter Q (filter P l).
Proof.
  induction l as [| a l IH]; [reflexivity |].
  cbn [filter]. destruct (P a) eqn:Ep, (Q a) eqn:Eq; cbn [filter];
    rewrite ?Ep, ?Eq, IH; reflexivity.
Qed.

Lemma filter_idem {A} (P : A -> bool) (l : list A) :
  filter P (filter P l) = filter P l.
Proof.
  induction l as [| a l IH]; [reflexivity |].
  cbn [filter]. destruct (P a) eqn:Ep; cbn [filter]; rewrite ?Ep, IH;
    reflexivity.
Qed.

(** X21.  Clearing a video twice is the same as clearing it once,
    clearing two videos gives the same store in either order, and clearing
    the video of an annotation just saved leaves what clearing would have
    left without the save. *)
Theorem clearAnnotations_composes (ls : Storage.localStorage)
        (v w : string) (annotation : Annotation) :
  Storage.clearAnnotations (Storage.clearAnnotations ls v) v
  = Storage.clearAnnotations ls v /\
  Storage.clearAnnotations (Storage.clearAnnotations ls v) w
  = Storage.clearAnnotations (Storage.clearAnnotations ls w) v /\
  Storage.stored
    (Storage.clearAnnotations (fst (Storage.saveAnnotation ls annotation))
                              (videoId annotation))
  = Storage.stored (Storage.clearAnnotations ls (videoId annotation)).
Proof.
  repeat split.
  - destruct ls as [all |]; [| reflexivity]. cbn. now rewrite filter_idem.
  - destruct ls as [all |]; [| reflexivity]. cbn.
    now rewrite filter_filter_comm.
  - cbn [Storage.saveAnnotation fst Storage.clearAnnotations Storage.stored].
    rewrite filter_app. cbn [filter]. rewrite String.eqb_refl. cbn [negb].
    rewrite app_nil_r. destruct ls; reflexivity.
Qed.

Close Scope Q_scope.

(** ** Content hashing, continued *)

(** A list with one element replaced, seen from a prefix or a suffix. *)
Lemma firstn_replaced {A} (l1 l2 : list A) (x y : A) (n : nat) :
  (n <= List.length l1)%nat ->
  firstn n (l1 ++ x :: l2) = firstn n (l1 ++ y :: l2).
Proof.
  intros H. rewrite !firstn_app.
  replace (n - List.length l1)%nat with 0%nat by lia. reflexivity.
Qed.

Lemma skipn_replaced {A} (l1 l2 : list A) (x y : A) (n : nat) :
  (List.length l1 < n)%nat ->
  skipn n (l1 ++ x :: l2) = skipn n (l1 ++ y :: l2).
Proof.
  intros H. rewrite !skipn_app.
  rewrite !skipn_all2 by lia.
  destruct (n - List.length l1)%nat as [| k] eqn:E; [lia | reflexivity].
Qed.

Lemma window_replaced {A} (l1 l2 : list A) (x y : A) (k m : nat) :
  (List.length l1 < k \/ k + m <= List.length l1)%nat ->
  firstn m (skipn k (l1 ++ x :: l2)) = firstn m (skipn k (l1 ++ y :: l2)).
Proof.
  intros [H | H].
  - now rewrite (skipn_replaced l1 l2 x y k H).
  - rewrite !skipn_app.
    replace (k - List.length l1)%nat with 0%nat by lia.
    cbn [skipn]. apply firstn_replaced. rewrite length_skipn. lia.
Qed.

Lemma split_at {A} (l : list A) (i : nat) :
  (i < List.length l)%nat ->
  exists x, l = firstn i l ++ x :: skipn (S i) l.
Proof.
  revert l. induction i as [| i IH]; intros [| a l] H; cbn in H; try lia.
  - now exists a.
  - destruct (IH l ltac:(lia)) as [x E]. exists x.
    change (a :: l = a :: (firstn i l ++ x :: skipn (S i) l)).
    f_equal. exact E.
Qed.

Lemma with_byte_size (f : Hash.File) (i : nat) (b : byte) :
  (i < List.length f)%nat -> Hash.size (with_byte f i b) = Hash.size f.
Proof.
  intros H. unfold Hash.size, with_byte. f_equal.
  rewrite length_app. cbn [List.length].
  rewrite length_firstn, length_skipn. lia.
Qed.

(** X22.  For a file of more than 3 MiB, [generateFastFileHash]
    does not depend on the bytes outside its three samples: replacing a
    byte that lies after the first MiB and before the middle sample, or
    after the middle sample and before the last MiB, gives the same
    hash, whatever the digest function is. *)
Theorem fast_hash_ignores_unsampled_bytes
        (sha256 : list byte -> list byte) (f : Hash.File)
        (i : nat) (b : byte) :
  (3 * 1048576 < Hash.size f)%Z ->
  (1048576 <= Z.of_nat i < Hash.size f / 2 - 524288 \/
   Hash.size f / 2 + 524288 <= Z.of_nat i < Hash.size f - 1048576)%Z ->
  Hash.generateFastFileHash sha256 (with_byte f i b)
  = Hash.generateFastFileHash sha256 f.
Proof.
  intros Hlarge Hi.
  pose proof (half_bounds (Hash.size f)) as Hhalf.
  assert (Hlen : (i < List.length f)%nat) by (unfold Hash.size in *; lia).
  pose proof (with_byte_size f i b Hlen) as Hsize.
  rewrite !sampled_branch by (rewrite ?Hsize; exact Hlarge).
  do 3 f_equal.
  unfold Hash.spec_sampled_message. rewrite Hsize.
  assert (Hlen' : List.length (with_byte f i b) = List.length f)
    by (unfold Hash.size in Hsize; lia).
  rewrite Hlen'.
  destruct (split_at f i Hlen) as [x Ef].
  set (l1 := firstn i f) in *. set (l2 := skipn (S i) f) in *.
  assert (Hl1 : List.length l1 = i)
    by (subst l1; rewrite length_firstn; lia).
  unfold with_byte. fold l1 l2. clearbody l1 l2.
  assert (HM : Z.of_nat Hash.MiB = 1048576%Z) by (unfold Hash.MiB; lia).
  remember Hash.MiB as M eqn:EM. clear EM.
  set (k := Z.to_nat (Hash.size f / 2 - Hash.KiB512)).
  assert (Hk : (i < k \/ k + M <= i)%nat)
    by (subst k; unfold Hash.KiB512, Hash.size in *; lia).
  set (n := (List.length f - M)%nat).
  assert (Hn : (i < n)%nat) by (subst n; unfold Hash.size in *; lia).
  clearbody k n.
  assert (E1 : firstn M (l1 ++ b :: l2) = firstn M f).
  { rewrite Ef. apply firstn_replaced. lia. }
  assert (E2 : firstn M (skipn k (l1 ++ b :: l2)) = firstn M (skipn k f)).
  { rewrite Ef. apply window_replaced. lia. }
  assert (E3 : skipn n (l1 ++ b :: l2) = skipn n f).
  { rewrite Ef. apply skipn_replaced. lia. }
  rewrite E1, E2, E3. reflexivity.
Qed.

(** A 4 MiB file of zero bytes; the byte at 1 200 000 lies between the
    first and the middle sample. *)
Lemma fast_hash_ignores_unsampled_bytes_witness :
  let f := repeat x00 (Z.to_nat 4194304) in
  let sha256 (m : list byte) := firstn 32 m in
  Hash.generateFastFileHash sha256 (with_byte f (Z.to_nat 1200000) xff)
  = Hash.generateFastFileHash sha256 f.
Proof.
  intros f sha256.
  assert (Hs : Hash.size f = 4194304%Z)
    by (unfold f; rewrite size_zeros; lia).
  refine (fast_hash_ignores_unsampled_bytes sha256 f (Z.to_nat 1200000) xff
            _ _).
  - rewrite Hs. lia.
  - left. rewrite Hs, Z2Nat.id by lia.
    pose proof (half_bounds 4194304). lia.
Defined.

Lemma hex_cons (b : byte) (rest : list byte) :
  exists c1 c2,
    Hash.hex (b :: rest) = String c1 (String c2 (Hash.hex rest)) /\
    unhex_byte c1 c2 = Some b.
Proof.
  assert (H : exists c1 c2,
             Hash.hex_of_byte b = String c1 (String c2 EmptyString) /\
             unhex_byte c1 c2 = Some b)
    by (destruct b; do 2 eexists; split; reflexivity).
  destruct H as (c1 & c2 & E & Hb). exists c1, c2. split; [| exact Hb].
  unfold Hash.hex. cbn [map String.concat]. rewrite E.
  destruct (map Hash.hex_of_byte rest); reflexivity.
Qed.

Lemma hex_injective (d1 d2 : list byte) :
  Hash.hex d1 = Hash.hex d2 -> d1 = d2.
Proof.
  revert d2. induction d1 as [| b1 d1 IH]; intros [| b2 d2] H.
  - reflexivity.
  - destruct (hex_cons b2 d2) as (c1 & c2 & E & _).
    rewrite E in H. discriminate H.
  - destruct (hex_cons b1 d1) as (c1 & c2 & E & _).
    rewrite E in H. discriminate H.
  - destruct (hex_cons b1 d1) as (c1 & c2 & E1 & Hb1).
    destruct (hex_cons b2 d2) as (c1' & c2' & E2 & Hb2).
    rewrite E1, E2 in H. injection H as -> -> Hrest.
    f_equal; [congruence | now apply IH].
Qed.

(** X23.  The hexadecimal encoding loses nothing: two files have
    the same [generateFileHash] exactly when their digests are equal, and
    two files of at most 3 MiB with the same [generateFastFileHash] have
    equal digests.  The text has two lowercase hexadecimal characters per
    digest byte. *)
Theorem file_hash_as_good_as_digest (sha256 : list byte -> list byte)
        (f g : Hash.File) :
  (Hash.generateFileHash sha256 f = Hash.generateFileHash sha256 g <->
   sha256 f = sha256 g) /\
  (Hash.generateFastFileHash sha256 f = Hash.generateFastFileHash sha256 g
   -> (Hash.size f <= 3 * 1048576)%Z -> (Hash.size g <= 3 * 1048576)%Z ->
   sha256 f = sha256 g) /\
  String.length (Hash.generateFileHash sha256 f)
  = (2 * List.length (sha256 f))%nat /\
  Hash.all_chars Hash.lower_hex (Hash.generateFileHash sha256 f) = true.
Proof.
  unfold Hash.generateFileHash. repeat split.
  - apply hex_injective.
  - intros ->. reflexivity.
  - intros H Hf Hg. rewrite !full_branch in H by assumption.
    apply hex_injective. congruence.
  - apply hex_lowercase.
  - apply hex_lowercase.
Qed.

Open Scope Q_scope.

(** ** Transcript *)

Lemma filter_all {A} (P : A -> bool) (l : list A) :
  Forall (fun a => P a = true) l -> filter P l = l.
Proof.
  induction 1 as [| a l Ha _ IH]; [reflexivity |].
  cbn [filter]. now rewrite Ha, IH.
Qed.

Lemma filter_none {A} (P : A -> bool) (l : list A) :
  Forall (fun a => P a = false) l -> filter P l = [].
Proof.
  induction 1 as [| a l Ha _ IH]; [reflexivity |].
  cbn [filter]. now rewrite Ha.
Qed.

Lemma overlaps_spec (start end' : Q) (cue : Transcript.TranscriptCue) :
  Transcript.overlaps start end' cue = true <->
  Transcript.cue_start cue < end' /\ start < Transcript.cue_end cue.
Proof.
  unfold Transcript.overlaps. rewrite andb_true_iff, !negb_true_iff.
  split.
  - intros [H1 H2]. split; now apply Qle_bool_false.
  - intros [H1 H2]. split.
    + destruct (Qle_bool end' (Transcript.cue_start cue)) eqn:E;
        [| reflexivity].
      apply Qle_bool_iff in E. lra.
    + destruct (Qle_bool (Transcript.cue_end cue) start) eqn:E;
        [| reflexivity].
      apply Qle_bool_iff in E. lra.
Qed.

(** X24.  [getTranscriptForRange] gives the full transcript when
    every cue overlaps the range, the empty string when none does, and
    ignores a cue that only touches the range (it ends where the range
    starts, or starts where the range ends). *)
Theorem transcript_for_range (cues : list Transcript.TranscriptCue)
        (start end' : Q) :
  (Forall (fun c => Transcript.cue_start c < end' /\
                    start < Transcript.cue_end c) cues ->
   Transcript.getTranscriptForRange cues start end'
   = Transcript.getFullTranscript cues) /\
  (Forall (fun c => end' <= Transcript.cue_start c \/
                    Transcript.cue_end c <= start) cues ->
   Transcript.getTranscriptForRange cues start end' = EmptyString) /\
  (forall before touching after,
     cues = before ++ touching :: after ->
     Transcript.cue_end touching == start \/
     Transcript.cue_start touching == end' ->
     Transcript.getTranscriptForRange cues start end'
     = Transcript.getTranscriptForRange (before ++ after) start end').
Proof.
  unfold Transcript.getTranscriptForRange, Transcript.getFullTranscript.
  repeat split.
  - intros H. rewrite filter_all; [reflexivity |].
    eapply Forall_impl; [| exact H]. intros c Hc. now apply overlaps_spec.
  - intros H. rewrite filter_none; [reflexivity |].
    eapply Forall_impl; [| exact H]. intros c Hc.
    destruct (Transcript.overlaps start end' c) eqn:E; [| reflexivity].
    apply overlaps_spec in E. cbv beta in Hc. lra.
  - intros before touching after -> Htouch.
    rewrite !filter_app. cbn [filter].
    destruct (Transcript.overlaps start end' touching) eqn:E;
      [| reflexivity].
    apply overlaps_spec in E. lra.
Qed.

(** ** The earlier Timeline *)




Close Scope Q_scope.
